(** * Telebroad webhook merge engine: a shallow embedding

    The development follows the Node services of the repository:

    - [src/services/webhookEvents.js]  (staging table of raw webhook events),
    - [src/services/calls.js]          (the Calls table),
    - [src/services/webhookMerger.js]  (grouping, fact extraction, upsert),

    together with the two sibling merge scripts
    ([airtable-scripts/merge-webhook-to-calls.js] and
    [google-apps-script/LevLehazin.gs]) where they differ, the
    endpoint that stages the webhooks
    ([src/webhooks/telebroad-webhook-receiver.js]) and the aggregation
    of the streaming handler ([src/webhooks/telebroad-handler.js]).

    JavaScript objects are finite maps from property names to values,
    Airtable tables are lists of records, and every Airtable request may fail;
    the effects are threaded through a state-and-exception monad in which a
    thrown error keeps the writes that happened before it. *)

From stdpp Require Import gmap strings list sorting pretty.
From Stdlib Require Import ZArith Ascii String.

Local Open Scope Z_scope.

(** ** JavaScript values and built-ins *)

Module JS.

(** The values that occur in webhook payloads, Airtable cells and the
    merged call data. Numbers are the integers the code computes with
    (counts, millisecond differences, seconds) and [NaN]. An array is an
    array of record ids (Airtable link cells). *)
Inductive value : Type :=
| undefined
| null
| Str (s : string)
| Num (z : Z)
| NaN
| Bool (b : bool)
| Arr (l : list string).

#[global] Instance value_eq_dec : EqDecision value.
Proof. solve_decision. Defined.

(** Property read [o[k]]: an absent property reads as [undefined]. *)
Definition get (o : gmap string value) (k : string) : value :=
  default undefined (o !! k).

(** ToBoolean. *)
Definition truthy (v : value) : bool :=
  match v with
  | undefined | null | NaN => false
  | Str s => negb (String.eqb s "")
  | Num z => negb (z =? 0)
  | Bool b => b
  | Arr _ => true
  end.

(** [a || b]. *)
Definition or (a b : value) : value := if truthy a then a else b.

(** [v === 'literal']. *)
Definition is_str (v : value) (lit : string) : bool :=
  match v with
  | Str s => String.eqb s lit
  | _ => false
  end.

(** [v !== undefined]. *)
Definition defined (v : value) : bool :=
  match v with
  | undefined => false
  | _ => true
  end.

(** [Array.prototype.join]. *)
Definition join (sep : string) (l : list string) : string :=
  String.concat sep l.

(** ToString, as used by template literals and by property keys. *)
Definition ToString (v : value) : string :=
  match v with
  | undefined => "undefined"
  | null => "null"
  | Str s => s
  | Num z => pretty z
  | NaN => "NaN"
  | Bool true => "true"
  | Bool false => "false"
  | Arr l => join "," l
  end.

(** [Array.prototype.includes]. *)
Definition includes (l : list value) (v : value) : bool :=
  bool_decide (v ∈ l).

(** [Math.round(d / k)] for an integer [d] and a positive integer [k]:
    the quotient rounded to the nearest integer, halves towards
    +infinity. For the millisecond differences of two dates the double
    quotient is exact enough for this to be the value the engine
    returns. *)
Definition Math_round_div (d k : Z) : Z := (2 * d + k) / (2 * k).

(** A Date object is its time value: milliseconds since the epoch, or
    [None] for an Invalid Date. *)
Definition date := option Z.

(** [a - b] on two dates. *)
Definition Date_sub (a b : date) : value :=
  match a, b with
  | Some x, Some y => Num (x - y)
  | _, _ => NaN
  end.

(** A comparator [(a, b) => key(a) - key(b)] on dates. *)
Definition by_date {A} (key : A → date) (a b : A) : value :=
  Date_sub (key a) (key b).

(** [Array.prototype.sort(cmp)]: the sort is stable; [a] moves behind
    [b] only when [cmp a b > 0], and a [NaN] comparison counts as [0].
    For a consistent comparator every stable sort returns the list
    computed here; for an inconsistent one (some dates invalid) the
    order is left to the engine, of which this is one instance. *)
Definition gt0 (v : value) : bool :=
  match v with
  | Num z => 0 <? z
  | _ => false
  end.

Fixpoint sort_insert {A} (cmp : A → A → value) (x : A) (l : list A) : list A :=
  match l with
  | [] => [x]
  | y :: l' => if gt0 (cmp x y) then y :: sort_insert cmp x l' else x :: l
  end.

Fixpoint Array_sort {A} (cmp : A → A → value) (l : list A) : list A :=
  match l with
  | [] => []
  | x :: l' => sort_insert cmp x (Array_sort cmp l')
  end.

(** *** Plain objects used as dictionaries

    [const grouped = {}] keeps its own properties in insertion order;
    reads of a name that [Object.prototype] defines find the inherited
    member. *)
Definition Object_prototype_names : list string :=
  [ "constructor"; "__proto__"; "hasOwnProperty"; "isPrototypeOf";
    "propertyIsEnumerable"; "toLocaleString"; "toString"; "valueOf";
    "__defineGetter__"; "__defineSetter__"; "__lookupGetter__";
    "__lookupSetter__" ]%string.

Definition inherited (k : string) : bool :=
  existsb (String.eqb k) Object_prototype_names.

Definition dict (A : Type) : Type := list (string * A).

Fixpoint own {A} (k : string) (d : dict A) : option A :=
  match d with
  | [] => None
  | (k', a) :: d' => if String.eqb k k' then Some a else own k d'
  end.

(** [d[k] = a]: replaces in place, or appends a new own property. *)
Fixpoint assign {A} (k : string) (a : A) (d : dict A) : dict A :=
  match d with
  | [] => [(k, a)]
  | (k', a') :: d' =>
      if String.eqb k k' then (k', a) :: d' else (k', a') :: assign k a d'
  end.

(** Array indices (canonical numeric strings below 2^32 - 1) are
    enumerated first, in ascending numeric order, by [Object.keys]. *)
Definition digit (c : ascii) : option Z :=
  let n := Z.of_nat (nat_of_ascii c) in
  if (48 <=? n) && (n <=? 57) then Some (n - 48) else None.

Fixpoint decimal (cs : list ascii) (acc : Z) : option Z :=
  match cs with
  | [] => Some acc
  | c :: cs' =>
      match digit c with
      | Some d => decimal cs' (10 * acc + d)
      | None => None
      end
  end.

Definition array_index (k : string) : option Z :=
  match list_ascii_of_string k with
  | [] => None
  | c :: cs =>
      if Ascii.eqb c "0" && negb (Nat.eqb (List.length cs) 0) then None
      else match decimal (c :: cs) 0 with
           | Some n => if n <? 4294967295 then Some n else None
           | None => None
           end
  end.

Definition index_cmp (a b : string * Z) : value := Num (a.2 - b.2).

Definition Object_keys {A} (d : dict A) : list string :=
  let ks := map fst d in
  let idx := omap (λ k, (λ n, (k, n)) <$> array_index k) ks in
  map fst (Array_sort index_cmp idx)
    ++ List.filter (λ k, negb (bool_decide (is_Some (array_index k)))) ks.

End JS.

(** ** What the host provides

    [Date.parse] (implementation-defined outside the ISO format),
    [JSON.stringify] of a payload or of an array of events, and the order
    in which Airtable returns the rows of a sorted query. Airtable returns
    every selected row once; nothing else is assumed about the order. *)

Inductive json : Type :=
| JObject (o : gmap string JS.value)
| JArray (l : list (gmap string JS.value)).

Record record : Type := Row {
  id : string;
  fields : gmap string JS.value
}.

Inductive direction : Type := asc | desc.

Class Host : Type := {
  Date_parse : string → JS.date;
  JSON_stringify : json → string;
  airtable_sort : string → direction → list record → list record;
  airtable_sort_perm : ∀ f d l, airtable_sort f d l ≡ₚ l
}.

(** [new Date(v)]. *)
Definition Date_new `{Host} (v : JS.value) : JS.date :=
  match v with
  | JS.undefined | JS.NaN => None
  | JS.null => Some 0
  | JS.Str s => Date_parse s
  | JS.Num z => if (Z.abs z <=? 8640000000000000) then Some z else None
  | JS.Bool b => Some (if b then 1 else 0)
  | JS.Arr l => Date_parse (JS.join "," l)
  end.

(** *** A host instance for concrete runs

    [iso_parse] reads the timestamps Telebroad sends,
    [YYYY-MM-DDTHH:MM:SS] followed by [Z] or by an offset [+HH:MM] or
    [-HH:MM], and rejects every other string. *)

Module Iso.

Fixpoint number (n : nat) (cs : list ascii) (acc : Z) : option (Z * list ascii) :=
  match n with
  | O => Some (acc, cs)
  | S n' =>
      match cs with
      | c :: cs' =>
          match JS.digit c with
          | Some d => number n' cs' (10 * acc + d)
          | None => None
          end
      | [] => None
      end
  end.

Definition expect (c : ascii) (cs : list ascii) : option (list ascii) :=
  match cs with
  | c' :: cs' => if Ascii.eqb c c' then Some cs' else None
  | [] => None
  end.

(** Days from 1970-01-01 to the given day of the proleptic Gregorian
    calendar. *)
Definition days_from_civil (y m d : Z) : Z :=
  let y' := if m <=? 2 then y - 1 else y in
  let era := y' / 400 in
  let yoe := y' - era * 400 in
  let mp := (m + 9) mod 12 in
  let doy := (153 * mp + 2) / 5 + d - 1 in
  let doe := yoe * 365 + yoe / 4 - yoe / 100 + doy in
  era * 146097 + doe - 719468.

Definition offset (cs : list ascii) : option Z :=
  match cs with
  | [c] => if Ascii.eqb c "Z" then Some 0 else None
  | c :: cs' =>
      let sign := if Ascii.eqb c "+" then Some 1
                  else if Ascii.eqb c "-" then Some (-1) else None in
      sg ← sign;
      '(h, r1) ← number 2 cs' 0;
      r2 ← expect ":" r1;
      '(mi, r3) ← number 2 r2 0;
      match r3 with
      | [] => if (h <? 24) && (mi <? 60) then Some (sg * (h * 60 + mi) * 60000) else None
      | _ => None
      end
  | [] => None
  end.

Definition iso_parse (s : string) : JS.date :=
  '(y, r1) ← number 4 (list_ascii_of_string s) 0;
  r2 ← expect "-" r1;
  '(m, r3) ← number 2 r2 0;
  r4 ← expect "-" r3;
  '(d, r5) ← number 2 r4 0;
  r6 ← expect "T" r5;
  '(h, r7) ← number 2 r6 0;
  r8 ← expect ":" r7;
  '(mi, r9) ← number 2 r8 0;
  r10 ← expect ":" r9;
  '(sec, r11) ← number 2 r10 0;
  off ← offset r11;
  if (1 <=? m) && (m <=? 12) && (1 <=? d) && (d <=? 31)
     && (h <? 24) && (mi <? 60) && (sec <? 60)
  then Some ((((days_from_civil y m d * 24 + h) * 60 + mi) * 60 + sec) * 1000 - off)
  else None.

(** The key under which Airtable orders a cell of this model host:
    dates by their time value, blank or unreadable cells first. *)
Definition cell_cmp (f : string) (d : direction) (a b : record) : JS.value :=
  let ka := default (-1) (match JS.get (fields a) f with JS.Str s => iso_parse s | _ => None end) in
  let kb := default (-1) (match JS.get (fields b) f with JS.Str s => iso_parse s | _ => None end) in
  match d with
  | asc => JS.Num (ka - kb)
  | desc => JS.Num (kb - ka)
  end.

Definition sort_rows (f : string) (d : direction) (l : list record) : list record :=
  JS.Array_sort (cell_cmp f d) l.

(** A compact rendering (no indentation, no escaping). *)
Definition show (v : JS.value) : string :=
  match v with
  | JS.Str s => String.append (String.append (String "034" EmptyString) s) (String "034" EmptyString)
  | JS.Arr l => String.append "[" (String.append (JS.join "," l) "]")
  | _ => JS.ToString v
  end.

Definition show_object (o : gmap string JS.value) : string :=
  String.append "{"
    (String.append
       (JS.join "," (map (λ kv, String.append kv.1 (String.append ":" (show kv.2)))
                         (map_to_list o)))
       "}").

Definition stringify (j : json) : string :=
  match j with
  | JObject o => show_object o
  | JArray l => String.append "[" (String.append (JS.join "," (map show_object l)) "]")
  end.

End Iso.

(** ** The Airtable base and the process around it *)

Module Airtable.

Import JS.

Inductive error : Type :=
| Error (msg : string)
| TypeError (msg : string).

Definition message (e : error) : string :=
  match e with
  | Error m | TypeError m => m
  end.

Inductive table : Type := Calls | WebhookEvents.

(** The lines the merger writes to the console, one constructor per
    [console.log] / [console.error] call site. *)
Inductive line : Type :=
| Merging
| NothingToMerge
| FoundCalls (n : nat)
| Processing (callId : string) (nEvents : nat)
| CreatedRecord (recordId : value)
| UpdatedRecord (recordId : value)
| MarkedProcessed (n : nat)
| ErrorProcessing (callId : string) (msg : string)
| MergeComplete (created updated : nat)
| ErrorInPass (msg : string)
| ProcessingSingle (callId : string)
| NoEventsFound
| FoundEvents (n : nat)
| SingleDone (action : string) (recordId : value).

#[global] Instance line_eq_dec : EqDecision line.
Proof. solve_decision. Defined.

(** The two tables, the id the base hands out next, the clock, the
    requests that are going to fail (one flag per request, in order; no
    flag left means no failure) and the console. *)
Record World : Type := MkWorld {
  calls : list record;
  webhookEvents : list record;
  nextId : nat;
  now : string;
  faults : list bool;
  console : list line
}.

Definition rows (t : table) (w : World) : list record :=
  match t with
  | Calls => calls w
  | WebhookEvents => webhookEvents w
  end.

Definition set_rows (t : table) (l : list record) (w : World) : World :=
  match t with
  | Calls => MkWorld l (webhookEvents w) (nextId w) (now w) (faults w) (console w)
  | WebhookEvents => MkWorld (calls w) l (nextId w) (now w) (faults w) (console w)
  end.

Definition set_nextId (n : nat) (w : World) : World :=
  MkWorld (calls w) (webhookEvents w) n (now w) (faults w) (console w).

Definition set_faults (fs : list bool) (w : World) : World :=
  MkWorld (calls w) (webhookEvents w) (nextId w) (now w) fs (console w).

Definition set_console (c : list line) (w : World) : World :=
  MkWorld (calls w) (webhookEvents w) (nextId w) (now w) (faults w) c.

(** *** State and exceptions *)

Inductive outcome (A : Type) : Type :=
| Return (a : A)
| Throw (e : error).
Arguments Return {A} a.
Arguments Throw {A} e.

(** A computation over a state [S]: what a statement throws leaves the
    state as it was when it threw. *)
Definition ST (S A : Type) : Type := S → outcome A * S.

#[global] Instance ST_ret {S} : MRet (ST S) := λ A a s, (Return a, s).

#[global] Instance ST_bind {S} : MBind (ST S) := λ A B f m s,
  match m s with
  | (Return a, s') => f a s'
  | (Throw e, s') => (Throw e, s')
  end.

Definition throw {S A} (e : error) : ST S A := λ s, (Throw e, s).

Definition try_catch {S A} (body : ST S A) (handler : error → ST S A) : ST S A := λ s,
  match body s with
  | (Throw e, s') => handler e s'
  | r => r
  end.

(** [try { body } catch (error) { throw new Error(prefix + error.message) }] *)
Definition rethrow {S A} (prefix : string) (body : ST S A) : ST S A :=
  try_catch body (λ e, throw (Error (String.append prefix (message e)))).

(** [for (const x of xs) { body }] *)
Fixpoint for_of {S A} (xs : list A) (body : A → ST S ()) : ST S () :=
  match xs with
  | [] => mret ()
  | x :: xs' => body x ≫= λ _, for_of xs' body
  end.

(** A pure step that may throw. *)
Definition lift_pure {S A} (r : error + A) : ST S A :=
  match r with
  | inl e => throw e
  | inr a => mret a
  end.

(** The services run over the world alone. *)
Abbreviation M := (ST World).

Definition log (l : line) : M unit := λ w,
  (Return (), set_console (console w ++ [l]) w).

(** [new Date().toISOString()] *)
Definition clock : M string := λ w, (Return (now w), w).

(** *** Requests *)

Definition request {A} (op : M A) : M A := λ w,
  match faults w with
  | true :: fs => (Throw (Error "request failed"), set_faults fs w)
  | false :: fs => op (set_faults fs w)
  | [] => op w
  end.

(** A cell that holds nothing is not stored and not returned: empty
    text, an unchecked box, an empty link list ([NaN] is sent as
    [null]). *)
Definition blank (v : value) : bool :=
  match v with
  | undefined | null | NaN | Str "" | Bool false | Arr [] => true
  | _ => false
  end.

(** Writing one cell: a property that is [undefined] is not sent. *)
Definition cell (new old : option value) : option value :=
  match new with
  | None | Some undefined => old
  | Some v => if blank v then None else Some v
  end.

Definition write (new old : gmap string value) : gmap string value :=
  merge cell new old.

(** The text a formula compares a cell by. *)
Definition cell_text (v : value) : string :=
  match v with
  | undefined | null => ""
  | _ => ToString v
  end.

(** [{field} = 'lit']: the cell, as text, is the literal (call ids are
    digits and a dot; a literal with a quote in it is not modelled). *)
Definition formula_eq (field lit : string) (r : record) : bool :=
  String.eqb (cell_text (get (fields r) field)) lit.

(** [{field} = FALSE()] *)
Definition formula_false (field : string) (r : record) : bool :=
  negb (truthy (get (fields r) field)).

Section Requests.
Context `{Host}.

Definition sorted_by (sort : option (string * direction)) (l : list record) : list record :=
  match sort with
  | Some (f, d) => airtable_sort f d l
  | None => l
  end.

(** [base(t).select({filterByFormula, sort, maxRecords})], all pages. *)
Definition select (t : table) (filter : record → bool)
    (sort : option (string * direction)) (maxRecords : nat) : M (list record) :=
  request (λ w, (Return (take maxRecords (sorted_by sort (List.filter filter (rows t w)))), w)).

(** [.firstPage()]: one page holds 100 records. *)
Definition firstPage (t : table) (filter : record → bool)
    (sort : option (string * direction)) : M (list record) :=
  select t filter sort 100.

End Requests.

(** [base(t).create(fields)] *)
Definition create (t : table) (fs : gmap string value) : M record :=
  request (λ w,
    let r := Row (String.append "rec" (pretty (nextId w))) (write fs ∅) in
    (Return r, set_nextId (S (nextId w)) (set_rows t (rows t w ++ [r]) w))).

Definition has_id (rid : value) (r : record) : bool := is_str rid (id r).

Definition patch (rid : value) (fs : gmap string value) (r : record) : record :=
  if has_id rid r then Row (id r) (write fs (fields r)) else r.

(** [base(t).update(recordId, fields)] *)
Definition update (t : table) (rid : value) (fs : gmap string value) : M record :=
  request (λ w,
    match List.find (has_id rid) (rows t w) with
    | None => (Throw (Error "NOT_FOUND"), w)
    | Some r => (Return (patch rid fs r), set_rows t (map (patch rid fs) (rows t w)) w)
    end).

Definition patch_all (us : list (value * gmap string value)) (r : record) : record :=
  match List.find (λ u, has_id u.1 r) us with
  | Some u => patch u.1 u.2 r
  | None => r
  end.

(** [base(t).update([{id, fields}, ...])]: at most 10 records per
    request, all of them or none. *)
Definition update_many (t : table) (us : list (value * gmap string value)) : M (list record) :=
  request (λ w,
    if (10 <? List.length us)%nat then (Throw (Error "INVALID_REQUEST"), w)
    else if forallb (λ u, existsb (has_id u.1) (rows t w)) us then
      let rows' := map (patch_all us) (rows t w) in
      (Return (omap (λ u, List.find (has_id u.1) rows') us), set_rows t rows' w)
    else (Throw (Error "NOT_FOUND"), w)).

(** [{ id: record.id, ...record.fields }] *)
Definition as_object (r : record) : gmap string value :=
  fields r ∪ {[ "id" := Str (id r) ]}.

End Airtable.

(** ** [services/webhookEvents.js] *)

Module webhookEventService.

Import JS Airtable.

Definition WEBHOOK_EVENTS_TABLE : table := WebhookEvents.

(** One step of the [forEach] of [getEventsGroupedByCallId]:
    [if (!grouped[callId]) grouped[callId] = []; grouped[callId].push(event)].
    The key is [event['Call ID']] turned into a property name. *)
Definition push_event (grouped : dict (list (gmap string value)))
    (event : gmap string value) : error + dict (list (gmap string value)) :=
  let callId := ToString (get event "Call ID") in
  match own callId grouped with
  | Some group => inr (assign callId (group ++ [event]) grouped)
  | None =>
      if inherited callId
      then inl (TypeError "grouped[callId].push is not a function")
      else inr (assign callId [event] grouped)
  end.

Fixpoint group_events (grouped : dict (list (gmap string value)))
    (events : list (gmap string value)) : error + dict (list (gmap string value)) :=
  match events with
  | [] => inr grouped
  | event :: events' =>
      match push_event grouped event with
      | inl e => inl e
      | inr grouped' => group_events grouped' events'
      end
  end.

(** The [i]-th pass of [for (let i = 0; i < updates.length; i += 10)]
    takes [updates.slice(i, i + 10)]. *)
Definition slices {A} (updates : list A) : list (list A) :=
  map (λ k, take 10 (drop (10 * k) updates))
      (seq 0 ((List.length updates + 9) `div` 10)%nat).

Section Service.
Context `{Host}.

Definition createEvent (webhookData : gmap string value) : M (gmap string value) :=
  rethrow "Failed to create webhook event: "
    (receivedAt ← clock;
     record ← create WEBHOOK_EVENTS_TABLE (list_to_map [
       ("Received At", Str receivedAt);
       ("Call ID", or (get webhookData "callId") (Str ""));
       ("Unique ID", or (get webhookData "UniqueId") (Str ""));
       ("Status", or (get webhookData "status") (Str ""));
       ("Direction", or (get webhookData "direction") (Str ""));
       ("Send Type", or (get webhookData "sendType") (Str ""));
       ("Send Name", or (get webhookData "sendName") (Str ""));
       ("Send Number", or (get webhookData "sendNumber") (Str ""));
       ("Destination Type", or (get webhookData "destinationType") (Str ""));
       ("Destination Name", or (get webhookData "destinationName") (Str ""));
       ("Destination Number", or (get webhookData "destinationNumber") (Str ""));
       ("Called Type", or (get webhookData "calledType") (Str ""));
       ("Called Number", or (get webhookData "calledNumber") (Str ""));
       ("Caller ID Internal", or (get webhookData "callerIdInternal") (Str ""));
       ("Caller ID External", or (get webhookData "callerIdExternal") (Str ""));
       ("Caller Name Internal", or (get webhookData "callerNameInternal") (Str ""));
       ("Caller Name External", or (get webhookData "callerNameExternal") (Str ""));
       ("Start Time", or (get webhookData "startTime") (Str ""));
       ("Call Start Time", or (get webhookData "callStartTime") (Str ""));
       ("Raw JSON", Str (JSON_stringify (JObject webhookData)));
       ("Processed", Bool false) ]);
     mret (as_object record)).

Definition getEventsByCallId (callId : string) : M (list (gmap string value)) :=
  rethrow (String.append "Failed to fetch events for callId " (String.append callId ": "))
    (records ← firstPage WEBHOOK_EVENTS_TABLE (formula_eq "Call ID" callId)
                 (Some ("Received At", asc));
     mret (map as_object records)).

Definition getUnprocessedEvents : M (list (gmap string value)) :=
  rethrow "Failed to fetch unprocessed events: "
    (records ← firstPage WEBHOOK_EVENTS_TABLE (formula_false "Processed")
                 (Some ("Received At", asc));
     mret (map as_object records)).

Definition getEventsGroupedByCallId : M (dict (list (gmap string value))) :=
  rethrow "Failed to group events: "
    (events ← getUnprocessedEvents;
     lift_pure (group_events [] events)).

End Service.

Definition processed_fields (mergedCallRecordId : value) : gmap string value :=
  list_to_map [ ("Processed", Bool true);
                ("Merged Call Record", Arr [ToString mergedCallRecordId]) ].

Definition markAsProcessed (eventRecordId mergedCallRecordId : value) : M (gmap string value) :=
  rethrow "Failed to mark event as processed: "
    (record ← update WEBHOOK_EVENTS_TABLE eventRecordId (processed_fields mergedCallRecordId);
     mret (as_object record)).

Fixpoint update_batches (batches : list (list (value * gmap string value)))
    (results : list record) : M (list record) :=
  match batches with
  | [] => mret results
  | batch :: batches' =>
      updated ← update_many WEBHOOK_EVENTS_TABLE batch;
      update_batches batches' (results ++ updated)
  end.

Definition markMultipleAsProcessed (eventRecordIds : list value)
    (mergedCallRecordId : value) : M (list (gmap string value)) :=
  rethrow "Failed to mark events as processed: "
    (let updates := map (λ i, (i, processed_fields mergedCallRecordId)) eventRecordIds in
     results ← update_batches (slices updates) [];
     mret (map as_object results)).

End webhookEventService.

(** ** [services/calls.js] *)

Module F.
(** [fields.calls] of [config/airtable.js]. *)
Definition CALL_ID : string := "Call ID".
Definition DATE_TIME : string := "Date/Time".
Definition CALLER : string := "Caller".
Definition RECEIVED_BY : string := "Received By".
Definition DIRECTION : string := "Direction".
Definition CALL_TYPE : string := "Call Type".
Definition DURATION : string := "Duration".
Definition ISSUE_CATEGORY : string := "Issue Category".
Definition SUMMARY : string := "Summary".
Definition OUTCOME : string := "Outcome".
Definition MENTOR_FOR_FOLLOWUP : string := "Mentor for Follow-up".
Definition URGENCY : string := "Urgency".
Definition FOLLOWUP_CREATED : string := "Follow-up Created".
Definition TELEBROAD_CALL_ID : string := "Telebroad Call ID".
Definition TB_CALL_ID : string := "TB Call ID".
Definition TELEBROAD_UNIQUE_ID : string := "Telebroad Unique ID".
Definition RECORDING_URL : string := "Recording URL".
Definition RING_STATUS : string := "Ring Status".
Definition CALLER_NUMBER : string := "Caller Number".
Definition CALLED_NUMBER : string := "Called Number".
Definition IVR_PATH : string := "IVR Path".
Definition HUNT_GROUP : string := "Hunt Group".
Definition PICKED_UP_BY_NAME : string := "Picked Up By Name".
Definition PICKED_UP_BY_EXTENSION : string := "Picked Up By Extension".
Definition FINAL_STATUS : string := "Final Status".
Definition CALL_START_TIME : string := "Call Start Time".
Definition ANSWER_TIME : string := "Answer Time".
Definition END_TIME : string := "End Time".
Definition CALLER_NAME : string := "Caller Name".
Definition WEBHOOK_EVENTS : string := "Webhook Events".
Definition RAW_WEBHOOK_DATA : string := "Raw Webhook Data".
End F.

Module callService.

Import JS Airtable.

(** One line of [createCall] or [updateCall]:
    - [IfTruthy p f]:     [if (data.p) fields[f] = data.p]
    - [IfDefined p f]:    [if (data.p !== undefined) fields[f] = data.p]
    - [LinkIfTruthy p f]: [if (data.p) fields[f] = [data.p]]
    - [LinkIfDefined p f]:
        [if (data.p !== undefined) fields[f] = data.p ? [data.p] : []] *)
Inductive line : Type :=
| IfTruthy (p f : string)
| IfDefined (p f : string)
| LinkIfTruthy (p f : string)
| LinkIfDefined (p f : string).

Definition target (l : line) : string :=
  match l with
  | IfTruthy _ f | IfDefined _ f | LinkIfTruthy _ f | LinkIfDefined _ f => f
  end.

Definition run_line (data : gmap string value) (fs : gmap string value) (l : line)
    : gmap string value :=
  match l with
  | IfTruthy p f => if truthy (get data p) then <[f := get data p]> fs else fs
  | IfDefined p f => if defined (get data p) then <[f := get data p]> fs else fs
  | LinkIfTruthy p f =>
      if truthy (get data p) then <[f := Arr [ToString (get data p)]]> fs else fs
  | LinkIfDefined p f =>
      if defined (get data p)
      then <[f := if truthy (get data p) then Arr [ToString (get data p)] else Arr []]> fs
      else fs
  end.

Definition createCall_lines : list line :=
  [ LinkIfTruthy "caller" F.CALLER;
    LinkIfTruthy "receivedBy" F.RECEIVED_BY;
    LinkIfTruthy "mentorForFollowup" F.MENTOR_FOR_FOLLOWUP;
    IfTruthy "callType" F.CALL_TYPE;
    IfDefined "duration" F.DURATION;
    IfTruthy "issueCategory" F.ISSUE_CATEGORY;
    IfTruthy "summary" F.SUMMARY;
    IfTruthy "outcome" F.OUTCOME;
    IfTruthy "urgency" F.URGENCY;
    IfTruthy "telebroadCallId" F.TB_CALL_ID;
    IfTruthy "telebroadUniqueId" F.TELEBROAD_UNIQUE_ID;
    IfTruthy "recordingUrl" F.RECORDING_URL;
    IfTruthy "ringStatus" F.RING_STATUS;
    IfDefined "followupCreated" F.FOLLOWUP_CREATED;
    IfTruthy "callerNumber" F.CALLER_NUMBER;
    IfTruthy "calledNumber" F.CALLED_NUMBER;
    IfTruthy "ivrPath" F.IVR_PATH;
    IfTruthy "huntGroup" F.HUNT_GROUP;
    IfTruthy "pickedUpByName" F.PICKED_UP_BY_NAME;
    IfTruthy "pickedUpByExtension" F.PICKED_UP_BY_EXTENSION;
    IfTruthy "finalStatus" F.FINAL_STATUS;
    IfTruthy "callStartTime" F.CALL_START_TIME;
    IfTruthy "answerTime" F.ANSWER_TIME;
    IfTruthy "endTime" F.END_TIME;
    IfTruthy "callerName" F.CALLER_NAME;
    IfDefined "webhookEvents" F.WEBHOOK_EVENTS;
    IfTruthy "rawWebhookData" F.RAW_WEBHOOK_DATA ].

Definition updateCall_lines : list line :=
  [ IfDefined "dateTime" F.DATE_TIME;
    LinkIfDefined "caller" F.CALLER;
    LinkIfDefined "receivedBy" F.RECEIVED_BY;
    IfDefined "direction" F.DIRECTION;
    IfDefined "callType" F.CALL_TYPE;
    IfDefined "duration" F.DURATION;
    IfDefined "issueCategory" F.ISSUE_CATEGORY;
    IfDefined "summary" F.SUMMARY;
    IfDefined "outcome" F.OUTCOME;
    LinkIfDefined "mentorForFollowup" F.MENTOR_FOR_FOLLOWUP;
    IfDefined "urgency" F.URGENCY;
    IfDefined "followupCreated" F.FOLLOWUP_CREATED;
    IfDefined "telebroadCallId" F.TELEBROAD_CALL_ID;
    IfDefined "callerNumber" F.CALLER_NUMBER;
    IfDefined "calledNumber" F.CALLED_NUMBER;
    IfDefined "ivrPath" F.IVR_PATH;
    IfDefined "huntGroup" F.HUNT_GROUP;
    IfDefined "pickedUpByName" F.PICKED_UP_BY_NAME;
    IfDefined "pickedUpByExtension" F.PICKED_UP_BY_EXTENSION;
    IfDefined "finalStatus" F.FINAL_STATUS;
    IfDefined "callStartTime" F.CALL_START_TIME;
    IfDefined "answerTime" F.ANSWER_TIME;
    IfDefined "endTime" F.END_TIME;
    IfDefined "callerName" F.CALLER_NAME;
    IfDefined "webhookEvents" F.WEBHOOK_EVENTS;
    IfDefined "rawWebhookData" F.RAW_WEBHOOK_DATA ].

Definition fieldsToCreate (now : string) (callData : gmap string value) : gmap string value :=
  foldl (run_line callData)
    (list_to_map [ (F.DATE_TIME, or (get callData "dateTime") (Str now));
                   (F.DIRECTION, or (get callData "direction") (Str "Inbound")) ])
    createCall_lines.

Definition fieldsToUpdate (updateData : gmap string value) : gmap string value :=
  foldl (run_line updateData) ∅ updateCall_lines.

Definition createCall (callData : gmap string value) : M (gmap string value) :=
  rethrow "Failed to create call: "
    (now ← clock;
     record ← create Calls (fieldsToCreate now callData);
     mret (as_object record)).

Definition updateCall (recordId : value) (updateData : gmap string value)
    : M (gmap string value) :=
  rethrow (String.append "Failed to update call " (String.append (ToString recordId) ": "))
    (record ← update Calls recordId (fieldsToUpdate updateData);
     mret (as_object record)).

(** The options of [getAllCalls]; [None] is a property left out. The
    view ([options.view || 'Grid view']) is taken to show every row. *)
Record options : Type := Options {
  maxRecords : option nat;
  sort : option (string * direction);
  filterByFormula : option (record → bool)
}.

Section Service.
Context `{Host}.

Definition getAllCalls (o : options) : M (list (gmap string value)) :=
  rethrow "Failed to fetch calls: "
    (records ← select Calls
                 (default (λ _, true) (filterByFormula o))
                 (Some (default (F.DATE_TIME, desc) (sort o)))
                 (match maxRecords o with
                  | Some (S n) => S n
                  | _ => 100%nat
                  end);
     mret (map as_object records)).

(** [calls[0] || null]; [None] is [null]. *)
Definition findByTelebroadId (telebroadCallId : string) : M (option (gmap string value)) :=
  calls ← getAllCalls (Options None None (Some (formula_eq F.TB_CALL_ID telebroadCallId)));
  mret (head calls).

Definition findByTelebroadCallId (telebroadCallId : string)
  : M (option (gmap string value)) :=
  findByTelebroadId telebroadCallId.

End Service.

End callService.

(** ** [services/webhookMerger.js] *)

Module webhookMerger.

Import JS Airtable.

(** [{ action, callRecordId, callData }] *)
Record MergeResult : Type := Result {
  action : string;
  callRecordId : value;
  callData : gmap string value
}.

(** *** [extractCallData] *)

Definition is_answered (e : gmap string value) : bool :=
  is_str (get e "Status") "answered" && is_str (get e "Destination Type") "phone".

Definition is_ended (e : gmap string value) : bool :=
  is_str (get e "Status") "ended" && is_str (get e "Send Type") "external".

Definition is_huntgroup (e : gmap string value) : bool :=
  is_str (get e "Destination Type") "huntgroup" || is_str (get e "Send Type") "huntgroup".

Definition answeredEvent (events : list (gmap string value)) : option (gmap string value) :=
  List.find is_answered events.

Definition endedEvent (events : list (gmap string value)) : option (gmap string value) :=
  List.find is_ended events.

(** The body of the [forEach] that builds [ivrPath]. *)
Definition visit (ivrPath : list value) (event : gmap string value) : list value :=
  if is_str (get event "Destination Type") "ivr" && truthy (get event "Destination Name")
  then if includes ivrPath (get event "Destination Name")
       then ivrPath
       else ivrPath ++ [get event "Destination Name"]
  else ivrPath.

Definition ivrPath (events : list (gmap string value)) : list value :=
  foldl visit [] events.

Definition huntGroupEvent (events : list (gmap string value)) : option (gmap string value) :=
  List.find is_huntgroup events.

Definition huntGroup (events : list (gmap string value)) : value :=
  match huntGroupEvent events with
  | Some e => or (get e "Destination Name") (get e "Send Name")
  | None => null
  end.

Definition wasAnswered (events : list (gmap string value)) : bool :=
  bool_decide (is_Some (answeredEvent events)).

Definition direction_of (firstEvent : gmap string value) : string :=
  if is_str (get firstEvent "Direction") "incoming" then "Inbound" else "Outbound".

(** [finalStatus] and [callDirection] after the [if] chain. *)
Definition classify (events : list (gmap string value)) (direction : string)
    : string * string :=
  if wasAnswered events then ("Answered", direction)
  else if truthy (huntGroup events) then ("Missed", "Missed")
  else if (0 <? List.length (ivrPath events))%nat then ("IVR Only", "Missed")
  else ("Abandoned", "Missed").

Definition join_path (path : list value) : string :=
  join " → " (map ToString path).

(** [`${mins}m ${secs}s`] *)
Definition minutes_seconds (duration : Z) : string :=
  String.append (pretty (duration / 60))
    (String.append "m " (String.append (pretty (duration mod 60)) "s")).

Definition summaryParts (callerName callerNumber : value) (path : list value)
    (hunt : value) (answered : option (gmap string value)) (duration : value)
    (finalStatus : string) : list string :=
  [ if truthy callerName
    then String.append "From: " (String.append (ToString callerName)
           (String.append " (" (String.append (ToString callerNumber) ")")))
    else String.append "From: " (ToString callerNumber) ]
  ++ (if (0 <? List.length path)%nat
      then [String.append "IVR: " (join_path path)] else [])
  ++ (if truthy hunt then [String.append "Hunt Group: " (ToString hunt)] else [])
  ++ match answered with
     | Some a =>
         String.append "Answered by: " (ToString (get a "Destination Name"))
         :: match duration with
            | Num d => if 0 <? d then [String.append "Duration: " (minutes_seconds d)] else []
            | _ => []
            end
     | None => [String.append "Status: " finalStatus]
     end.

Section Merger.
Context `{Host}.

(** [duration]: 0 unless both events were found. *)
Definition duration_of (events : list (gmap string value)) : value :=
  match answeredEvent events, endedEvent events with
  | Some a, Some e =>
      let answerTime := Date_new (get a "Start Time") in
      let endTime := Date_new (get e "Start Time") in
      match Date_sub endTime answerTime with
      | Num d => Num (Math_round_div d 1000)
      | _ => NaN
      end
  | _, _ => Num 0
  end.

Definition extractCallData (events : list (gmap string value))
    : error + gmap string value :=
  match events with
  | [] => inl (TypeError "Cannot read properties of undefined (reading 'Direction')")
  | firstEvent :: _ =>
      let answered := answeredEvent events in
      let ended := endedEvent events in
      let path := ivrPath events in
      let hunt := huntGroup events in
      let '(finalStatus, callDirection) := classify events (direction_of firstEvent) in
      let duration := duration_of events in
      let callerNumber := or (get firstEvent "Caller ID External") (get firstEvent "Send Number") in
      let callerName := or (get firstEvent "Caller Name External") (Str "") in
      let callData : gmap string value := list_to_map [
        ("telebroadCallId", get firstEvent "Call ID");
        ("direction", Str callDirection);
        ("dateTime", or (get firstEvent "Call Start Time") (get firstEvent "Start Time"));
        ("callerNumber", callerNumber);
        ("callerName", callerName);
        ("calledNumber", get firstEvent "Called Number");
        ("ivrPath", Str (join_path path));
        ("huntGroup", hunt);
        ("finalStatus", Str finalStatus);
        ("callStartTime", get firstEvent "Call Start Time");
        ("endTime", match ended with Some e => get e "Start Time" | None => null end);
        ("duration", duration);
        ("webhookEvents", Num (Z.of_nat (List.length events)));
        ("rawWebhookData", Str (JSON_stringify (JArray events))) ] in
      let callData :=
        match answered with
        | Some a =>
            <["answerTime" := get a "Start Time"]>
              (<["pickedUpByExtension" := get a "Destination Number"]>
                 (<["pickedUpByName" := get a "Destination Name"]> callData))
        | None => callData
        end in
      inr (<["summary" :=
              Str (join " | " (summaryParts callerName callerNumber path hunt
                                 answered duration finalStatus))]> callData)
  end.

(** *** [mergeCallEvents] *)

(** [timeA] and [timeB] of the comparator of [events.sort]. *)
Definition timeOf (a : gmap string value) : date :=
  Date_new (or (get a "Start Time") (get a "Received At")).

Definition byTime (a b : gmap string value) : value :=
  Date_sub (timeOf a) (timeOf b).

(** [events.sort] sorts the caller's array in place; [sorted events]
    is that array afterwards. *)
Definition sorted (events : list (gmap string value)) : list (gmap string value) :=
  Array_sort byTime events.

Definition mergeCallEvents (callId : string) (events : list (gmap string value))
    : M MergeResult :=
  callData ← lift_pure (extractCallData (sorted events));
  existingCall ← callService.findByTelebroadCallId callId;
  match existingCall with
  | Some existing =>
      callRecord ← callService.updateCall (get existing "id") callData;
      mret (Result "updated" (get existing "id") callData)
  | None =>
      callRecord ← callService.createCall callData;
      mret (Result "created" (get callRecord "id") callData)
  end.

(** *** [processUnprocessedEvents] *)

(** The local variables [created] and [updated] live next to the
    world: an increment is kept when a later statement throws. *)
Definition Pass : Type := (nat * nat) * World.

Definition run {A} (m : M A) : ST Pass A := λ s,
  let '(r, w') := m s.2 in (r, (s.1, w')).

(** Runs a block with [let created = 0; let updated = 0] in scope. *)
Definition locals {A} (init : nat * nat) (m : ST Pass A) : M (A * (nat * nat)) := λ w,
  let '(r, (cu, w')) := m (init, w) in
  (match r with
   | Return a => Return (a, cu)
   | Throw e => Throw e
   end, w').

Definition created_incr : ST Pass () := λ s, (Return (), ((S s.1.1, s.1.2), s.2)).
Definition updated_incr : ST Pass () := λ s, (Return (), ((s.1.1, S s.1.2), s.2)).
(** The body of [for (const callId of callIds)]. *)
Definition process_call (groupedEvents : dict (list (gmap string value)))
    (callId : string) : ST Pass () :=
  let events := default [] (own callId groupedEvents) in
  run (log (Processing callId (List.length events)));;
  try_catch
    (result ← run (mergeCallEvents callId events);
     (if String.eqb (action result) "created"
      then created_incr;; run (log (CreatedRecord (callRecordId result)))
      else if String.eqb (action result) "updated"
      then updated_incr;; run (log (UpdatedRecord (callRecordId result)))
      else mret ());;
     let eventIds := map (λ e, get e "id") (sorted events) in
     run (webhookEventService.markMultipleAsProcessed eventIds (callRecordId result));;
     run (log (MarkedProcessed (List.length eventIds))))
    (λ error, run (log (ErrorProcessing callId (message error)))).

Definition summary (processed created updated : nat) : gmap string value :=
  list_to_map [ ("processed", Num (Z.of_nat processed));
                ("created", Num (Z.of_nat created));
                ("updated", Num (Z.of_nat updated)) ].

Definition processUnprocessedEvents : M (gmap string value) :=
  log Merging;;
  try_catch
    (groupedEvents ← webhookEventService.getEventsGroupedByCallId;
     let callIds := Object_keys groupedEvents in
     if Nat.eqb (List.length callIds) 0
     then log NothingToMerge;; mret (summary 0 0 0)
     else
       log (FoundCalls (List.length callIds));;
       '(_, (created, updated)) ←
         locals (0, 0)%nat (for_of callIds (process_call groupedEvents));
       log (MergeComplete created updated);;
       mret (summary (List.length callIds) created updated))
    (λ error, log (ErrorInPass (message error));; throw error).

(** *** [processSingleCall]; [None] is [null]. *)
Definition processSingleCall (callId : string) : M (option MergeResult) :=
  log (ProcessingSingle callId);;
  events ← webhookEventService.getEventsByCallId callId;
  if Nat.eqb (List.length events) 0
  then log NoEventsFound;; mret None
  else
    log (FoundEvents (List.length events));;
    result ← mergeCallEvents callId events;
    let eventIds := map (λ e, get e "id") (sorted events) in
    webhookEventService.markMultipleAsProcessed eventIds (callRecordId result);;
    log (SingleDone (action result) (callRecordId result));;
    mret (Some result).

End Merger.

End webhookMerger.

(** ** The sibling merge scripts, where they differ from the service *)

Module airtableScript.
(** [airtable-scripts/merge-webhook-to-calls.js] *)

Import JS.

(** [record.getCellValue(name)]: an empty cell reads as [null]. *)
Definition getCellValue (r : gmap string value) (name : string) : value :=
  default null (r !! name).

Section Script.
Context `{Host}.

(** [timeA] and [timeB] of the comparator of [allEvents.sort]. *)
Definition timeOf (a : gmap string value) : date :=
  Date_new (or (getCellValue a "Start Time") (getCellValue a "Call Start Time")).

Definition byTime (a b : gmap string value) : value :=
  Date_sub (timeOf a) (timeOf b).

(** [allEvents] after [allEvents.sort]. *)
Definition sorted (allEvents : list (gmap string value)) : list (gmap string value) :=
  Array_sort byTime allEvents.

(** The predicate of [allEvents.find] for [answeredEvent]. *)
Definition is_answered (e : gmap string value) : bool :=
  is_str (getCellValue e "Status") "answered"
  && is_str (getCellValue e "Destination Type") "phone".

Definition answeredEvent (allEvents : list (gmap string value))
    : option (gmap string value) :=
  List.find is_answered allEvents.

(** [allEvents[allEvents.length - 1]]; [None] is [undefined]. *)
Definition lastEvent (allEvents : list (gmap string value))
    : option (gmap string value) :=
  last allEvents.

(** [duration], computed on the sorted events: 0 unless an answered
    event and a last event were found. *)
Definition duration (allEvents : list (gmap string value)) : value :=
  match answeredEvent allEvents, lastEvent allEvents with
  | Some a, Some l =>
      let answerTime := Date_new (getCellValue a "Start Time") in
      let endTime := Date_new (getCellValue l "Start Time") in
      match Date_sub endTime answerTime with
      | Num d => Num (Math_round_div d 1000)
      | _ => NaN
      end
  | _, _ => Num 0
  end.

End Script.

End airtableScript.

Module appsScript.
(** [google-apps-script/LevLehazin.gs] *)

Import JS.

(** [tA] and [tB] of the comparator of [events.sort] in
    [processCallEvents], on the [fields] of a record. *)
Definition timeOf `{Host} (a : gmap string value) : date :=
  Date_new (or (or (get a "Start Time") (get a "Call Start Time")) (Num 0)).

Definition byTime `{Host} (a b : gmap string value) : value :=
  Date_sub (timeOf a) (timeOf b).

(** [groupByCallId]: [if (callId) { ... }] in the [forEach]. *)
Definition push_event (grouped : dict (list (gmap string value)))
    (event : gmap string value) : Airtable.error + dict (list (gmap string value)) :=
  if truthy (get event "Call ID")
  then webhookEventService.push_event grouped event
  else inr grouped.

Fixpoint groupByCallId (grouped : dict (list (gmap string value)))
    (events : list (gmap string value))
    : Airtable.error + dict (list (gmap string value)) :=
  match events with
  | [] => inr grouped
  | event :: events' =>
      match push_event grouped event with
      | inl e => inl e
      | inr grouped' => groupByCallId grouped' events'
      end
  end.

End appsScript.

(** ** The finalStatus table as the specification words it

    Row 2 of the table asks only whether some event has a hunt-group
    destination or source. *)

Module Specified.

Import JS.

Definition finalStatus (events : list (gmap string value)) : string :=
  if existsb webhookMerger.is_answered events then "Answered"
  else if existsb webhookMerger.is_huntgroup events then "Missed"
  else if (0 <? List.length (webhookMerger.ivrPath events))%nat then "IVR Only"
  else "Abandoned".

(** The sort key: [eventTime], else [callStartTime]. *)
Definition timeOf `{Host} (e : gmap string value) : date :=
  Date_new (or (get e "Start Time") (get e "Call Start Time")).

(** The last event, in order, whose status is [ended]. *)
Definition endTime (events : list (gmap string value)) : value :=
  match List.find (λ e, is_str (get e "Status") "ended") (rev events) with
  | Some e => get e "Start Time"
  | None => null
  end.

End Specified.

(** ** Vocabulary of the statements *)

Module Spec.

Import JS.

(** [a] may stand before [b] in an ascending order by [key]: both dates
    are valid and [a] is not later than [b]. *)
Definition not_later {A} (key : A → date) (a b : A) : Prop :=
  ∃ x y, key a = Some x ∧ key b = Some y ∧ x ≤ y.

(** The destination names of the events whose destination is an IVR, in
    the order of the events. *)
Definition ivr_destinations (events : list (gmap string value)) : list value :=
  omap (λ e, if is_str (get e "Destination Type") "ivr"
             then Some (get e "Destination Name") else None) events.

(** A text cell: absent, or a string. *)
Definition text (v : value) : bool :=
  match v with
  | undefined | Str _ => true
  | _ => false
  end.

(** The records a lookup by call id selects from: those whose
    [TB Call ID] cell is the call id. *)
Definition matching (callId : string) (w : Airtable.World) : list record :=
  List.filter (Airtable.formula_eq F.TB_CALL_ID callId) (Airtable.calls w).

(** [keeps proj m]: whatever [m] does, also when it throws, the part
    [proj] of the world is as before. *)
Definition keeps {X A} (proj : Airtable.World → X)
    (m : Airtable.ST Airtable.World A) : Prop :=
  ∀ w, proj (m w).2 = proj w.

(** What [m] throws leaves the Calls table as it was. *)
Definition throws_keep_calls {A} (m : Airtable.ST Airtable.World A) : Prop :=
  ∀ w e w2, m w = (Airtable.Throw e, w2) → Airtable.calls w2 = Airtable.calls w.

(** The call ids of the groups a console shows as attempted, and of
    those it shows as failed. *)
Definition attempted (c : list Airtable.line) : list string :=
  omap (λ l, match l with Airtable.Processing k _ => Some k | _ => None end) c.

Definition failed (c : list Airtable.line) : list string :=
  omap (λ l, match l with Airtable.ErrorProcessing k _ => Some k | _ => None end) c.

End Spec.

(** ** A host and sample data for concrete runs *)

#[export] Program Instance iso_host : Host := {|
  Date_parse := Iso.iso_parse;
  JSON_stringify := Iso.stringify;
  airtable_sort := Iso.sort_rows
|}.
Next Obligation.
  intros f d l. unfold Iso.sort_rows.
  assert (Hins : ∀ x (k : list record),
             JS.sort_insert (Iso.cell_cmp f d) x k ≡ₚ x :: k).
  { intros x k. induction k as [|y k IH]; simpl; [done|].
    destruct (JS.gt0 _); [|done].
    rewrite IH. apply Permutation_swap. }
  induction l as [|x l IH]; simpl; [done|].
  rewrite Hins. by rewrite IH.
Qed.

Module Sample.

Import JS Airtable.

(** The legs of the call of [telebroad-handler.js]'s header comment. *)
Definition leg (rid callId status sendType sendName destType destName destNumber
    start : string) : record :=
  Row rid (list_to_map [
    ("Received At", Str start);
    ("Call ID", Str callId);
    ("Status", Str status);
    ("Direction", Str "incoming");
    ("Send Type", Str sendType);
    ("Send Name", Str sendName);
    ("Send Number", Str "18455021115");
    ("Destination Type", Str destType);
    ("Destination Name", Str destName);
    ("Destination Number", Str destNumber);
    ("Called Number", Str "17186732999");
    ("Caller ID External", Str "18455021115");
    ("Caller Name External", Str "WIRELESS CALLER");
    ("Start Time", Str start);
    ("Call Start Time", Str "2025-12-15T15:10:43-05:00") ]).

Definition ringing_ivr : record :=
  leg "recE1" "1765829443.779816" "ringing" "external" "18455021115" "ivr" "Day" "57880"
      "2025-12-15T15:10:43-05:00".
Definition ringing_ivr2 : record :=
  leg "recE2" "1765829443.779816" "ringing" "ivr" "Day" "ivr" "discuss something" "57881"
      "2025-12-15T15:10:50-05:00".
Definition ringing_hunt : record :=
  leg "recE3" "1765829443.779816" "ringing" "ivr" "discuss something" "huntgroup" "talk to Madrech" "600"
      "2025-12-15T15:11:02-05:00".
Definition answered_phone : record :=
  leg "recE4" "1765829443.779816" "answered" "huntgroup" "talk to Madrech" "phone" "Chaim David Klein" "101"
      "2025-12-15T15:11:10-05:00".
Definition ended_external : record :=
  leg "recE5" "1765829443.779816" "ended" "external" "18455021115" "ivr" "Day" "57880"
      "2025-12-15T15:13:25-05:00".

(** A leg that rings a hunt group while neither side carries a name. *)
Definition unnamed_hunt : record :=
  Row "recH1" (list_to_map [
    ("Received At", Str "2025-12-15T15:11:02-05:00");
    ("Call ID", Str "1765829443.779816");
    ("Status", Str "ringing");
    ("Direction", Str "incoming");
    ("Send Type", Str "external");
    ("Send Number", Str "18455021115");
    ("Destination Type", Str "huntgroup");
    ("Destination Number", Str "600");
    ("Start Time", Str "2025-12-15T15:11:02-05:00");
    ("Call Start Time", Str "2025-12-15T15:10:43-05:00") ]).




(** Two legs of the caller end, and a leg of an extension ends. *)
Definition ended_external_later : record :=
  leg "recK2" "1765829443.779816" "ended" "external" "18455021115" "ivr" "Day" "57880"
      "2025-12-15T15:13:40-05:00".

Definition ended_phone : record :=
  leg "recK3" "1765829443.779816" "ended" "huntgroup" "talk to Madrech" "phone"
      "Chaim David Klein" "101" "2025-12-15T15:13:25-05:00".

(** IVR legs named A, A, B, A. *)
Definition ivr_leg (rid name start : string) : record :=
  leg rid "1765829443.779816" "ringing" "ivr" "Day" "ivr" name "57880" start.

Definition ivr_A_A_B_A : list record :=
  [ ivr_leg "recI1" "A" "2025-12-15T15:10:43-05:00";
    ivr_leg "recI2" "A" "2025-12-15T15:10:44-05:00";
    ivr_leg "recI3" "B" "2025-12-15T15:10:45-05:00";
    ivr_leg "recI4" "A" "2025-12-15T15:10:46-05:00" ].

(** A webhook that carries no [callId]. *)
Definition payload_without_callId : gmap string value :=
  list_to_map [
    ("UniqueId", Str "1765829481.321338");
    ("direction", Str "incoming");
    ("status", Str "ringing");
    ("sendType", Str "external");
    ("sendName", Str "18455021115");
    ("sendNumber", Str "18455021115");
    ("destinationType", Str "ivr");
    ("destinationName", Str "Day");
    ("destinationNumber", Str "57880");
    ("calledNumber", Str "17186732999");
    ("startTime", Str "2025-12-15T15:10:43-05:00");
    ("callStartTime", Str "2025-12-15T15:10:43-05:00") ].

(** Two calls in the staging table: four legs of the sample call and
  one leg of a later call. *)
Definition other_call_leg : record :=
  leg "recO1" "1765829500.123456" "ringing" "external" "18455550000" "ivr" "Day" "57880"
      "2025-12-15T15:11:40-05:00".

Definition two_calls : list record :=
  [ringing_ivr; ringing_ivr2; ringing_hunt; answered_phone; other_call_leg].

(** Eleven legs of one call: one more than a batch of marks holds. *)
Definition eleven_legs : list record :=
  map (λ i : nat, ivr_leg (String.append "recM" (pretty i)) "Day"
                    "2025-12-15T15:10:43-05:00")
      (seq 1 11).

(** An event that carries no [Start Time] and reached the staging table
  late, and one that carries it. *)
Definition no_start_time : record :=
  Row "recL1" (list_to_map [
    ("Received At", Str "2025-12-15T15:12:00-05:00");
    ("Call ID", Str "1765829443.779816");
    ("Status", Str "ringing");
    ("Call Start Time", Str "2025-12-15T15:10:43-05:00") ]).

Definition with_start_time : record :=
  Row "recL2" (list_to_map [
    ("Received At", Str "2025-12-15T15:11:01-05:00");
    ("Call ID", Str "1765829443.779816");
    ("Status", Str "ringing");
    ("Start Time", Str "2025-12-15T15:11:00-05:00");
    ("Call Start Time", Str "2025-12-15T15:10:43-05:00") ]).

Definition world (events : list record) (faults : list bool) : World :=
  MkWorld [] events 1 "2025-12-15T15:15:00-05:00" faults [].

Definition first_pass : list record :=
  [ringing_ivr; ringing_ivr2; ringing_hunt; answered_phone].

Definition full_call : list record :=
  [ringing_ivr; ringing_ivr2; ringing_hunt; answered_phone; ended_external].

End Sample.

(** ** The remaining requests of the Airtable client *)

Module Base.

Import JS Airtable.

(** [base(t).find(recordId)] *)
Definition find (t : table) (rid : value) : M record :=
  request (λ w,
    match List.find (has_id rid) (rows t w) with
    | Some r => (Return r, w)
    | None => (Throw (Error "NOT_FOUND"), w)
    end).

(** [base(t).destroy(recordId)] *)
Definition destroy (t : table) (rid : value) : M record :=
  request (λ w,
    match List.find (has_id rid) (rows t w) with
    | Some r =>
        (Return r, set_rows t (List.filter (λ x, negb (has_id rid x)) (rows t w)) w)
    | None => (Throw (Error "NOT_FOUND"), w)
    end).

End Base.

(** ** [services/calls.js], the other methods of [CallService] *)

Module CallService.

Import JS Airtable.

Definition getCallById (recordId : value) : M (gmap string value) :=
  rethrow (String.append "Failed to fetch call " (String.append (ToString recordId) ": "))
    (record ← Base.find Calls recordId;
     mret (as_object record)).

(** [v === 0] *)
Definition is_zero (v : value) : bool :=
  match v with
  | Num z => z =? 0
  | _ => false
  end.

(** The [callData] literal of [createFromWebhook] and the two
    properties added to it. *)
Definition webhook_callData (now : string) (telebroadData : gmap string value)
    : gmap string value :=
  let callData : gmap string value := list_to_map [
    ("dateTime", or (or (get telebroadData "timestamp") (get telebroadData "callTime"))
                    (Str now));
    ("direction", if is_zero (get telebroadData "duration")
                     || truthy (get telebroadData "missed")
                  then Str "Missed"
                  else or (get telebroadData "direction") (Str "Inbound"));
    ("duration", or (get telebroadData "duration") (Num 0));
    ("telebroadCallId", or (get telebroadData "callId") (get telebroadData "uniqueId")) ] in
  let callData :=
    if truthy (get telebroadData "extension")
    then <["_extension" := get telebroadData "extension"]> callData
    else callData in
  if truthy (or (get telebroadData "callerNumber") (get telebroadData "phoneNumber"))
  then <["_callerPhone" :=
          or (get telebroadData "callerNumber") (get telebroadData "phoneNumber")]> callData
  else callData.

Definition createFromWebhook (telebroadData : gmap string value) : M (gmap string value) :=
  now ← clock;
  callService.createCall (webhook_callData now telebroadData).

Definition markFollowupCreated (recordId : value) : M (gmap string value) :=
  callService.updateCall recordId (list_to_map [ ("followupCreated", Bool true) ]).

Definition linkCaller (callRecordId callerRecordId : value) : M (gmap string value) :=
  callService.updateCall callRecordId (list_to_map [ ("caller", callerRecordId) ]).

Definition completeCallDetails (recordId : value) (details : gmap string value)
    : M (gmap string value) :=
  callService.updateCall recordId (list_to_map [
    ("caller", get details "caller");
    ("callType", get details "callType");
    ("issueCategory", get details "issueCategory");
    ("summary", get details "summary");
    ("outcome", get details "outcome");
    ("mentorForFollowup", get details "mentorForFollowup");
    ("urgency", get details "urgency") ]).

Definition deleteCall (recordId : value) : M (gmap string value) :=
  rethrow (String.append "Failed to delete call " (String.append (ToString recordId) ": "))
    (Base.destroy Calls recordId;;
     mret (list_to_map [ ("success", Bool true); ("id", recordId) ])).

End CallService.

(** ** [services/webhookMerger.js], the dry run *)

Module WebhookMergerService.

Import JS Airtable.

Record Preview : Type := MkPreview {
  totalCalls : nat;
  calls : list (gmap string value)
}.

Section Preview.
Context `{Host}.

(** The object pushed for one call id. *)
Definition preview_of (callId : string) (events : list (gmap string value))
    (callData : gmap string value) : gmap string value :=
  list_to_map [
    ("callId", Str callId);
    ("eventCount", Num (Z.of_nat (List.length events)));
    ("direction", get callData "direction");
    ("finalStatus", get callData "finalStatus");
    ("callerNumber", get callData "callerNumber");
    ("answeredBy", or (get callData "pickedUpByName") (Str "N/A"));
    ("duration", get callData "duration");
    ("ivrPath", or (get callData "ivrPath") (Str "None")) ].

(** [for (const callId of callIds) { ... preview.push({...}) }]; the
    body reads the grouped events and nothing else. *)
Fixpoint preview_calls (groupedEvents : dict (list (gmap string value)))
    (callIds : list string) (preview : list (gmap string value))
    : error + list (gmap string value) :=
  match callIds with
  | [] => inr preview
  | callId :: callIds' =>
      let events := default [] (own callId groupedEvents) in
      match webhookMerger.extractCallData events with
      | inl e => inl e
      | inr callData =>
          preview_calls groupedEvents callIds'
            (preview ++ [preview_of callId events callData])
      end
  end.

Definition previewMerge : M Preview :=
  groupedEvents ← webhookEventService.getEventsGroupedByCallId;
  let callIds := Object_keys groupedEvents in
  preview ← lift_pure (preview_calls groupedEvents callIds []);
  mret (MkPreview (List.length preview) preview).

End Preview.

End WebhookMergerService.

(** ** [webhooks/telebroad-webhook-receiver.js] *)

Module webhookReceiver.

Import JS Airtable.

(** The lines the receiver writes to the console. *)
Inductive line : Type :=
| Received
| CallIdLine (callId : value)
| StatusLine (status : value)
| RouteLine (sendType sendName destinationType destinationName : value)
| Saved (eventId : value)
| ErrorSaving (msg : string)
| InvalidData (errors : list string).

(** The receiver's console next to the world. *)
Definition Receiver : Type := list line * World.

Definition say (l : line) : ST Receiver () := λ s,
  (Return (), (s.1 ++ [l], s.2)).

Definition run {A} (m : M A) : ST Receiver A := λ s,
  let '(r, w') := m s.2 in (r, (s.1, w')).

(** [errors] after the three checks. *)
Definition errors_of (webhookData : gmap string value) : list string :=
  (if truthy (get webhookData "callId") then [] else ["Missing callId"])
  ++ (if truthy (get webhookData "status") then [] else ["Missing status"])
  ++ (if truthy (get webhookData "direction") then [] else ["Missing direction"]).

Definition validateWebhookData (webhookData : gmap string value) : gmap string value :=
  let errors := errors_of webhookData in
  if (0 <? List.length errors)%nat
  then list_to_map [ ("valid", Bool false); ("errors", Arr errors) ]
  else list_to_map [ ("valid", Bool true) ].

Section Receiver.
Context `{Host}.

Definition handleTelebroadWebhook (webhookData : gmap string value)
    : ST Receiver (gmap string value) :=
  try_catch
    (say Received;;
     say (CallIdLine (get webhookData "callId"));;
     say (StatusLine (get webhookData "status"));;
     say (RouteLine (get webhookData "sendType") (get webhookData "sendName")
            (get webhookData "destinationType") (get webhookData "destinationName"));;
     savedEvent ← run (webhookEventService.createEvent webhookData);
     say (Saved (get savedEvent "id"));;
     mret (list_to_map [
       ("success", Bool true);
       ("eventId", get savedEvent "id");
       ("callId", get webhookData "callId");
       ("status", get webhookData "status");
       ("message", Str "Webhook received and saved to staging table") ]))
    (λ error,
       say (ErrorSaving (message error));;
       mret (list_to_map [
         ("success", Bool false);
         ("error", Str (message error));
         ("callId", or (get webhookData "callId") (Str "unknown")) ])).

Definition handleWebhookWithValidation (webhookData : gmap string value)
    : ST Receiver (gmap string value) :=
  let validation := validateWebhookData webhookData in
  if negb (truthy (get validation "valid"))
  then
    say (InvalidData (errors_of webhookData));;
    mret (list_to_map [ ("success", Bool false); ("errors", get validation "errors") ])
  else handleTelebroadWebhook webhookData.

End Receiver.

End webhookReceiver.

(** ** [webhooks/telebroad-handler.js], the aggregation of one call *)

Module telebroadHandler.

Import JS Airtable.

(** The cache entry of a call. [uniqueIds] is a [Set]: its elements in
    insertion order. *)
Record CallData : Type := MkCallData {
  callId : value;
  direction : string;
  callerNumber : value;
  callerName : value;
  calledNumber : value;
  callStartTime : value;
  ivrPath : list value;
  huntGroup : value;
  answeredBy : value;
  answeredByExtension : value;
  answerTime : value;
  endTime : value;
  finalStatus : string;
  wasAnswered : bool;
  webhookEvents : nat;
  uniqueIds : list value;
  lastWebhook : value
}.

Definition createInitialCallData (webhookData : gmap string value) : CallData := {|
  callId := get webhookData "callId";
  direction := if is_str (get webhookData "direction") "incoming"
               then "Inbound" else "Outbound";
  callerNumber := or (get webhookData "callerIdExternal") (get webhookData "sendNumber");
  callerName := or (get webhookData "callerNameExternal") (Str "");
  calledNumber := get webhookData "calledNumber";
  callStartTime := or (get webhookData "callStartTime") (get webhookData "startTime");
  ivrPath := [];
  huntGroup := null;
  answeredBy := null;
  answeredByExtension := null;
  answerTime := null;
  endTime := null;
  finalStatus := "IVR Only";
  wasAnswered := false;
  webhookEvents := 0;
  uniqueIds := [];
  lastWebhook := null
|}.

(** [Set.prototype.add] *)
Definition Set_add (v : value) (s : list value) : list value :=
  if bool_decide (v ∈ s) then s else s ++ [v].

(** [a > b] on two dates: false when either is invalid. *)
Definition Date_gt (a b : date) : bool :=
  match a, b with
  | Some x, Some y => y <? x
  | _, _ => false
  end.

Section Handler.
Context `{Host}.

(** [JSON.stringify(webhookData)], without indentation. *)
Variable stringify : gmap string value → string.

(** [updateCallData] changes the cache entry in place; the entry
    afterwards is returned. The fields are listed in the order in
    which the function assigns them. *)
Definition updateCallData (callData : CallData) (webhookData : gmap string value)
    : CallData :=
  let destinationType := get webhookData "destinationType" in
  let destinationName := get webhookData "destinationName" in
  let status := get webhookData "status" in
  let startTime := get webhookData "startTime" in
  let webhookEvents' := S (webhookEvents callData) in
  let uniqueIds' := Set_add (get webhookData "UniqueId") (uniqueIds callData) in
  let lastWebhook' := Str (stringify webhookData) in
  let ivrPath' :=
    if is_str destinationType "ivr" && truthy destinationName
    then if includes (ivrPath callData) destinationName
         then ivrPath callData
         else ivrPath callData ++ [destinationName]
    else ivrPath callData in
  let huntGroup' :=
    if is_str destinationType "huntgroup" || is_str (get webhookData "sendType") "huntgroup"
    then or destinationName (get webhookData "sendName")
    else huntGroup callData in
  let answered := is_str status "answered" && is_str destinationType "phone" in
  let wasAnswered' := if answered then true else wasAnswered callData in
  let answeredBy' := if answered then destinationName else answeredBy callData in
  let answeredByExtension' :=
    if answered then get webhookData "destinationNumber"
    else answeredByExtension callData in
  let answerTime' := if answered then startTime else answerTime callData in
  let finalStatus' := if answered then "Answered" else finalStatus callData in
  let ended := is_str status "ended" in
  let endTime' :=
    if ended
    then if negb (truthy (endTime callData))
            || Date_gt (Date_new startTime) (Date_new (endTime callData))
         then startTime
         else endTime callData
    else endTime callData in
  let finalStatus'' :=
    if ended && negb wasAnswered'
    then if truthy huntGroup' && negb (truthy answeredBy') then "Missed"
         else if (0 <? List.length ivrPath')%nat && negb (truthy huntGroup') then "IVR Only"
         else "Abandoned"
    else finalStatus' in
  {| callId := callId callData;
     direction := direction callData;
     callerNumber := callerNumber callData;
     callerName := callerName callData;
     calledNumber := calledNumber callData;
     callStartTime := callStartTime callData;
     ivrPath := ivrPath';
     huntGroup := huntGroup';
     answeredBy := answeredBy';
     answeredByExtension := answeredByExtension';
     answerTime := answerTime';
     endTime := endTime';
     finalStatus := finalStatus'';
     wasAnswered := wasAnswered';
     webhookEvents := webhookEvents';
     uniqueIds := uniqueIds';
     lastWebhook := lastWebhook' |}.

(** The cache entry of a call after its webhooks, the first of which
    creates the entry (the handler drops the entry once it has saved
    the call). *)
Definition aggregate (first : gmap string value) (later : list (gmap string value))
    : CallData :=
  foldl updateCallData (createInitialCallData first) (first :: later).

End Handler.

End telebroadHandler.

(** ** Vocabulary of the further statements *)

Module Notions.

Import JS Airtable.

(** The key under which an event is grouped. *)
Definition key (e : gmap string value) : string := ToString (get e "Call ID").

(** The events of a list that are grouped under [k], in their order. *)
Definition of_call (k : string) (events : list (gmap string value))
    : list (gmap string value) :=
  List.filter (λ e, String.eqb (key e) k) events.

(** A staged event after it was marked as merged into [rid], and a
    table after the events with one of the [ids] were. *)
Definition marked (rid : value) (r : record) : record :=
  Row (id r) (write (webhookEventService.processed_fields rid) (fields r)).

Definition mark (ids : list value) (rid : value) (r : record) : record :=
  if existsb (λ i, has_id i r) ids then marked rid r else r.

(** The cell shows the event as processed. *)
Definition processed (r : record) : bool := truthy (get (fields r) "Processed").

(** [r'] is [r], or [r] marked as merged into [rid] when its id is one
    of [ids]. *)
Definition untouched_or_marked (ids : list value) (rid : value) (r r' : record) : Prop :=
  r' = r ∨ (existsb (λ i, has_id i r) ids = true ∧ r' = marked rid r).

(** A table whose rows have no column called [id], and whose call ids
    are not names of members of [Object.prototype]. *)
Definition plain (r : record) : Prop := fields r !! "id" = None.

Definition groupable (r : record) : Prop :=
  inherited (ToString (get (fields r) "Call ID")) = false.

Section Pages.
Context `{Host}.

(** What [getUnprocessedEvents] and [getEventsByCallId] return when the
    request succeeds: the first page of the selected rows. *)
Definition unprocessed_page (w : World) : list (gmap string value) :=
  map as_object
    (take 100 (airtable_sort "Received At" asc
                 (List.filter (formula_false "Processed") (webhookEvents w)))).

Definition call_page (callId : string) (w : World) : list (gmap string value) :=
  map as_object
    (take 100 (airtable_sort "Received At" asc
                 (List.filter (formula_eq "Call ID" callId) (webhookEvents w)))).

End Pages.

(** The columns of a staged event that hold a property of the webhook,
    each with the name of the property. *)
Definition columns : list (string * string) :=
  [ ("Call ID", "callId"); ("Unique ID", "UniqueId"); ("Status", "status");
    ("Direction", "direction"); ("Send Type", "sendType"); ("Send Name", "sendName");
    ("Send Number", "sendNumber"); ("Destination Type", "destinationType");
    ("Destination Name", "destinationName");
    ("Destination Number", "destinationNumber"); ("Called Type", "calledType");
    ("Called Number", "calledNumber"); ("Caller ID Internal", "callerIdInternal");
    ("Caller ID External", "callerIdExternal");
    ("Caller Name Internal", "callerNameInternal");
    ("Caller Name External", "callerNameExternal"); ("Start Time", "startTime");
    ("Call Start Time", "callStartTime") ]%string.

(** The row [r] holds the webhook [webhookData], received at [now]: a
    property that is truthy and not an empty list is in its column,
    the column of any other property is empty; the event is not
    processed. *)
Definition stages (webhookData : gmap string value) (now : string) (r : record) : Prop :=
  fields r !! "id" = None
  ∧ fields r !! "Processed" = None
  ∧ fields r !! "Merged Call Record" = None
  ∧ get (fields r) "Received At" = (if String.eqb now "" then undefined else Str now)
  ∧ Forall (λ cp : string * string,
              get (fields r) cp.1
              = if truthy (get webhookData cp.2) && negb (blank (get webhookData cp.2))
                then get webhookData cp.2 else undefined)
           columns.

(** What a line of [createCall] or [updateCall] assigns to its field
    for the given data, if it assigns. *)
Definition assigns (data : gmap string value) (l : callService.line) : option value :=
  match l with
  | callService.IfTruthy p _ =>
      if truthy (get data p) then Some (get data p) else None
  | callService.IfDefined p _ =>
      if defined (get data p) then Some (get data p) else None
  | callService.LinkIfTruthy p _ =>
      if truthy (get data p) then Some (Arr [ToString (get data p)]) else None
  | callService.LinkIfDefined p _ =>
      if defined (get data p)
      then Some (if truthy (get data p) then Arr [ToString (get data p)] else Arr [])
      else None
  end.

(** [r'] is [r] after [updateCall rid data]: a record with another id
    is as before; in a record with the id [rid] the field of each line
    of [updateCall] holds what the line assigns from [data] (an emptied
    cell when that is blank), or its old cell when the line assigns
    nothing, and every other field keeps its cell. *)
Definition updated_with (rid : value) (data : gmap string value) (r r' : record)
    : Prop :=
  id r' = id r
  ∧ (has_id rid r = false → r' = r)
  ∧ (has_id rid r = true →
     (∀ l, l ∈ callService.updateCall_lines →
           fields r' !! callService.target l
           = match assigns data l with
             | Some v => if blank v then None else Some v
             | None => fields r !! callService.target l
             end)
     ∧ (∀ k, k ∉ map callService.target callService.updateCall_lines →
             fields r' !! k = fields r !! k)).

(** [r] is a record as [createCall] makes it of [data]: the field of
    each line of [createCall] holds what the line assigns (no cell when
    that is blank or the line assigns nothing). *)
Definition created_from (data : gmap string value) (r : record) : Prop :=
  ∀ l, l ∈ callService.createCall_lines →
       fields r !! callService.target l
       = match assigns data l with
         | Some v => if blank v then None else Some v
         | None => None
         end.

(** The fields that [completeCallDetails] passes on, each with the
    property of the details it is taken from. *)
Definition detail_fields : list (string * string) :=
  [ (F.CALLER, "caller"); (F.CALL_TYPE, "callType");
    (F.ISSUE_CATEGORY, "issueCategory"); (F.SUMMARY, "summary");
    (F.OUTCOME, "outcome"); (F.MENTOR_FOR_FOLLOWUP, "mentorForFollowup");
    (F.URGENCY, "urgency") ].

(** The webhooks of a list that report the end of a call. *)
Definition ended (webhookData : gmap string value) : bool :=
  is_str (get webhookData "status") "ended".

Definition answered (webhookData : gmap string value) : bool :=
  is_str (get webhookData "status") "answered"
  && is_str (get webhookData "destinationType") "phone".

End Notions.

(** * Properties *)

Import JS Airtable.

Abbreviation matching := Spec.matching.

(** ** [Array.prototype.sort] *)

Section Sorting.
Context {A : Type}.

Lemma sort_insert_Permutation (cmp : A → A → value) x l :
  sort_insert cmp x l ≡ₚ x :: l.
Proof.
  induction l as [|y l IH]; simpl; [done|].
  destruct (gt0 (cmp x y)); [|done].
  rewrite IH. apply Permutation_swap.
Qed.

Lemma Array_sort_Permutation (cmp : A → A → value) l :
  Array_sort cmp l ≡ₚ l.
Proof.
  induction l as [|x l IH]; simpl; [done|].
  by rewrite sort_insert_Permutation, IH.
Qed.

Lemma Array_sort_nil (cmp : A → A → value) l :
  Array_sort cmp l = [] → l = [].
Proof.
  intros E. apply Permutation_nil_r. rewrite <- E.
  symmetry. apply Array_sort_Permutation.
Qed.

Variable key : A → date.

Abbreviation by_key := (by_date key).
Abbreviation not_later := (Spec.not_later key).

Lemma gt0_by_key_true x y :
  gt0 (by_key x y) = true →
  ∃ kx ky, key x = Some kx ∧ key y = Some ky ∧ ky < kx.
Proof.
  unfold by_date, Date_sub.
  destruct (key x) as [kx|], (key y) as [ky|]; simpl; try done.
  intros E. exists kx, ky. repeat split. apply Z.ltb_lt in E. lia.
Qed.

Lemma gt0_by_key_false x y kx ky :
  key x = Some kx → key y = Some ky → gt0 (by_key x y) = false → kx ≤ ky.
Proof.
  unfold by_date, Date_sub. intros -> ->. simpl.
  intros E. apply Z.ltb_ge in E. lia.
Qed.

Lemma sort_insert_sorted x l :
  is_Some (key x) → Forall (λ e, is_Some (key e)) l →
  StronglySorted not_later l →
  StronglySorted not_later (sort_insert by_key x l).
Proof.
  intros [kx Hx] Hvalid. induction 1 as [|y l Hs IH Hy]; simpl.
  { repeat constructor. }
  apply Forall_cons in Hvalid as [[ky Hky] Hvalid].
  destruct (gt0 (by_key x y)) eqn:E.
  - constructor; [by apply IH|].
    rewrite sort_insert_Permutation. constructor; [|done].
    apply gt0_by_key_true in E as (kx' & ky' & ? & ? & ?).
    exists ky', kx'. repeat split; try done. lia.
  - pose proof (gt0_by_key_false _ _ _ _ Hx Hky E) as Hle.
    constructor; [by constructor|].
    constructor; [by exists kx, ky|].
    eapply Forall_impl; [exact Hy|].
    intros z (ky' & kz & ? & ? & ?). exists kx, kz.
    repeat split; try done. simplify_eq. lia.
Qed.

Lemma Array_sort_sorted l :
  Forall (λ e, is_Some (key e)) l →
  StronglySorted not_later (Array_sort by_key l).
Proof.
  induction 1 as [|x l Hx Hl IH]; simpl; [constructor|].
  apply sort_insert_sorted; [done| |done].
  by rewrite Array_sort_Permutation.
Qed.

(** Events with one and the same timestamp keep their relative order. *)
Lemma sort_insert_stable t x l :
  filter (λ e, key e = Some t) (sort_insert by_key x l)
  = filter (λ e, key e = Some t) (x :: l).
Proof.
  induction l as [|y l IH]; simpl; [done|].
  destruct (gt0 (by_key x y)) eqn:E; [|done].
  apply gt0_by_key_true in E as (kx & ky & Hx & Hy & Hlt).
  rewrite (filter_cons _ y), IH, !filter_cons.
  repeat case_decide; simplify_eq; try done; lia.
Qed.

Lemma Array_sort_stable t l :
  filter (λ e, key e = Some t) (Array_sort by_key l)
  = filter (λ e, key e = Some t) l.
Proof.
  induction l as [|x l IH]; simpl; [done|].
  by rewrite sort_insert_stable, !filter_cons, IH.
Qed.

End Sorting.

(** ** Ordering of a call group *)

Section Ordering.
Context `{Host}.

Lemma timeOf_fallback (e : gmap string value) :
  webhookMerger.timeOf e
  = if truthy (get e "Start Time")
    then Date_new (get e "Start Time")
    else Date_new (get e "Received At").
Proof. unfold webhookMerger.timeOf, or. by destruct (truthy _). Qed.

(** The merger service sorts a call group ascending by its own key:
    [Start Time], and for an event without it that event's
    [Received At]. The result has the same events; when every key is a
    valid date it is in ascending order of the keys; events with one and
    the same key keep their arrival order. *)
Lemma sorted_by_eventTime_else_receivedAt (events : list (gmap string value)) :
  Forall (λ e, is_Some (webhookMerger.timeOf e)) events →
  webhookMerger.sorted events ≡ₚ events
  ∧ StronglySorted (Spec.not_later webhookMerger.timeOf) (webhookMerger.sorted events)
  ∧ (∀ t, filter (λ e, webhookMerger.timeOf e = Some t) (webhookMerger.sorted events)
          = filter (λ e, webhookMerger.timeOf e = Some t) events).
Proof.
  intros Hvalid. unfold webhookMerger.sorted.
  change webhookMerger.byTime with (by_date webhookMerger.timeOf).
  split; [apply Array_sort_Permutation|].
  split; [by apply Array_sort_sorted|].
  intros t; apply Array_sort_stable.
Qed.

(** The automation script sorts by [Start Time], else [Call Start Time]. *)
Lemma airtableScript_sort (events : list (gmap string value)) :
  Forall (λ e, is_Some (airtableScript.timeOf e)) events →
  StronglySorted (Spec.not_later airtableScript.timeOf)
    (Array_sort airtableScript.byTime events)
  ∧ (∀ t, filter (λ e, airtableScript.timeOf e = Some t)
            (Array_sort airtableScript.byTime events)
          = filter (λ e, airtableScript.timeOf e = Some t) events).
Proof.
  intros Hvalid.
  change airtableScript.byTime with (by_date airtableScript.timeOf).
  split; [by apply Array_sort_sorted|]. intros t. apply Array_sort_stable.
Qed.

End Ordering.

(** C6. The merger service does not order a call group as stated, and
    not as its two sibling merge paths do. For an event without
    [Start Time] the comparator of [mergeCallEvents] takes that event's
    [Received At] as the sort key, where the Airtable script and the
    Apps Script take its [Call Start Time]. On a group of two staged
    events, the first without [Start Time] (call started 15:10:43,
    staged 15:12:00) and the second with [Start Time] 15:11:00, the
    service moves the first event behind the second, so the group it
    extracts from is not in ascending order of the key "event time, else
    call start time"; both scripts leave the two events in place, in
    ascending order of that key. *)
Theorem receivedAt_fallback_misorders_the_group :
  (∀ (host : Host) (e : gmap string value),
     webhookMerger.timeOf e
     = if truthy (get e "Start Time")
       then Date_new (get e "Start Time")
       else Date_new (get e "Received At"))
  ∧ (∀ (host : Host) (e : gmap string value),
       airtableScript.timeOf e
       = if truthy (airtableScript.getCellValue e "Start Time")
         then Date_new (airtableScript.getCellValue e "Start Time")
         else Date_new (airtableScript.getCellValue e "Call Start Time"))
  ∧ (∀ (host : Host) (e : gmap string value),
       appsScript.timeOf e
       = if truthy (get e "Start Time")
         then Date_new (get e "Start Time")
         else if truthy (get e "Call Start Time")
              then Date_new (get e "Call Start Time")
              else Some 0)
  ∧ (let rows := [Sample.no_start_time; Sample.with_start_time] in
     webhookMerger.sorted (map as_object rows)
     = map as_object [Sample.with_start_time; Sample.no_start_time]
     ∧ ¬ StronglySorted (Spec.not_later Specified.timeOf)
           (webhookMerger.sorted (map as_object rows))
     ∧ airtableScript.sorted (map fields rows) = map fields rows
     ∧ Array_sort appsScript.byTime (map fields rows) = map fields rows
     ∧ StronglySorted (Spec.not_later Specified.timeOf) (map fields rows)).
Proof.
  split; [|split; [|split]].
  - intros host e. apply timeOf_fallback.
  - intros host e. unfold airtableScript.timeOf, or. by destruct (truthy _).
  - intros host e. unfold appsScript.timeOf, or.
    destruct (truthy (get e "Start Time")) eqn:E1; rewrite ?E1; [done|].
    by destruct (truthy (get e "Call Start Time")) eqn:E2; rewrite ?E2.
  - assert (E : webhookMerger.sorted
                  [as_object Sample.no_start_time; as_object Sample.with_start_time]
                = [as_object Sample.with_start_time; as_object Sample.no_start_time]).
    { unfold webhookMerger.sorted. cbn [Array_sort sort_insert].
      replace (gt0 _) with true by (vm_compute; reflexivity). reflexivity. }
    cbv zeta. cbn [map]. split; [exact E|]. split.
    { rewrite E. clear E. intros Hs.
      apply StronglySorted_inv in Hs as [_ Hall].
      apply Forall_cons in Hall as [(x & y & Hx & Hy & Hle) _].
      vm_compute in Hx, Hy. injection Hx as <-. injection Hy as <-. lia. }
    split.
    { unfold airtableScript.sorted. cbn [Array_sort sort_insert].
      replace (gt0 _) with false by (vm_compute; reflexivity). reflexivity. }
    split.
    { cbn [Array_sort sort_insert].
      replace (gt0 _) with false by (vm_compute; reflexivity). reflexivity. }
    repeat constructor.
    exists 1765829443000, 1765829460000.
    split; [vm_compute; reflexivity|]. split; [vm_compute; reflexivity|]. lia.
Qed.

(** ** Fact extraction *)

(** Reads a property of an object literal that was built by
    [list_to_map] and [insert]. *)
Ltac read_property :=
  unfold get;
  repeat first
    [ rewrite lookup_insert_eq
    | rewrite lookup_insert_ne by done
    | rewrite list_to_map_cons ];
  try reflexivity.

Section Extraction.
Context `{Host}.

Lemma extractCallData_returns events :
  events ≠ [] → ∃ cd, webhookMerger.extractCallData events = inr cd.
Proof.
  destruct events as [|firstEvent rest]; [done|]. intros _.
  unfold webhookMerger.extractCallData.
  destruct (webhookMerger.classify _ _). eauto.
Qed.

Lemma extractCallData_empty cd :
  webhookMerger.extractCallData [] ≠ inr cd.
Proof. done. Qed.

(** The properties of the returned [callData] that the merge facts are
    stored in. *)
Lemma extractCallData_properties events cd :
  webhookMerger.extractCallData events = inr cd →
  ∃ firstEvent rest, events = firstEvent :: rest
  ∧ get cd "telebroadCallId" = get firstEvent "Call ID"
  ∧ get cd "finalStatus"
    = Str (webhookMerger.classify events (webhookMerger.direction_of firstEvent)).1
  ∧ get cd "direction"
    = Str (webhookMerger.classify events (webhookMerger.direction_of firstEvent)).2
  ∧ get cd "ivrPath" = Str (webhookMerger.join_path (webhookMerger.ivrPath events))
  ∧ get cd "huntGroup" = webhookMerger.huntGroup events
  ∧ get cd "endTime"
    = match webhookMerger.endedEvent events with
      | Some e => get e "Start Time"
      | None => null
      end
  ∧ get cd "duration" = webhookMerger.duration_of events
  ∧ get cd "webhookEvents" = Num (Z.of_nat (List.length events)).
Proof.
  destruct events as [|firstEvent rest]; [done|].
  intros E. exists firstEvent, rest. split; [done|].
  revert E. unfold webhookMerger.extractCallData.
  destruct (webhookMerger.classify _ _) as [finalStatus callDirection].
  intros E. apply (inj inr) in E. subst cd.
  destruct (webhookMerger.answeredEvent _); repeat split; read_property.
Qed.

End Extraction.

(** ** The disposition *)

Section Disposition.
Context `{Host}.

Lemma find_Some_split {A} (f : A → bool) l x :
  List.find f l = Some x ↔
  ∃ before after, l = before ++ x :: after
    ∧ Forall (λ y, f y = false) before ∧ f x = true.
Proof.
  split.
  - induction l as [|y l IH]; simpl; [done|].
    destruct (f y) eqn:E.
    + intros [= ->]. exists [], l. by repeat split.
    + intros (before & after & -> & ? & ?)%IH.
      exists (y :: before), after. repeat split; [|done]. by constructor.
  - intros (before & after & -> & Hb & Hx).
    induction Hb as [|y before Hy _ IH]; simpl; [by rewrite Hx|by rewrite Hy].
Qed.

Lemma find_None_Forall {A} (f : A → bool) l :
  List.find f l = None ↔ Forall (λ y, f y = false) l.
Proof.
  induction l as [|y l IH]; simpl; [by split; [constructor|]|].
  destruct (f y) eqn:E.
  - split; [done|]. intros [? _]%Forall_cons. congruence.
  - rewrite IH. split; [by constructor|]. by intros [_ ?]%Forall_cons.
Qed.

Lemma find_is_Some_Exists {A} (f : A → bool) l :
  is_Some (List.find f l) ↔ Exists (λ y, f y = true) l.
Proof.
  rewrite Exists_exists. split.
  - intros [x (before & after & -> & _ & Hx)%find_Some_split].
    exists x. split; [|done]. apply elem_of_app. right. by left.
  - intros (x & Hin & Hx). destruct (List.find f l) eqn:E; [done|].
    apply find_None_Forall in E. rewrite Forall_forall in E.
    specialize (E x Hin). congruence.
Qed.

Lemma wasAnswered_Exists events :
  webhookMerger.wasAnswered events = true
  ↔ Exists (λ e, webhookMerger.is_answered e = true) events.
Proof.
  unfold webhookMerger.wasAnswered, webhookMerger.answeredEvent.
  by rewrite bool_decide_eq_true, find_is_Some_Exists.
Qed.

(** The label is set by the first hunt-group leg, and only when that
    leg carries a destination name or a source name. *)
Lemma huntGroup_label events :
  truthy (webhookMerger.huntGroup events) = true ↔
  ∃ before e after, events = before ++ e :: after
    ∧ Forall (λ x, webhookMerger.is_huntgroup x = false) before
    ∧ webhookMerger.is_huntgroup e = true
    ∧ truthy (or (get e "Destination Name") (get e "Send Name")) = true.
Proof.
  unfold webhookMerger.huntGroup, webhookMerger.huntGroupEvent.
  destruct (List.find _ events) as [e|] eqn:E.
  - apply find_Some_split in E as (before & after & -> & Hb & He). split.
    + intros Ht. by exists before, e, after.
    + intros (before' & e' & after' & Heq & Hb' & He' & Ht).
      assert (List.find webhookMerger.is_huntgroup (before ++ e :: after) = Some e)
        as E1 by (apply find_Some_split; by exists before, after).
      assert (List.find webhookMerger.is_huntgroup (before ++ e :: after) = Some e')
        as E2 by (rewrite Heq; apply find_Some_split; by exists before', after').
      by simplify_eq.
  - split; [done|]. intros (before & e & after & -> & _ & He & _).
    apply find_None_Forall in E. rewrite Forall_app, Forall_cons in E.
    destruct E as (_ & E & _). congruence.
Qed.

(** C2 (as amended). For every non-empty group [finalStatus] follows the
    table, first match wins: Answered when some event is answered by a
    phone; otherwise Missed when the first hunt-group leg (destination
    or source of type huntgroup) carries a non-blank label, its
    destination name or else its source name; otherwise IVR Only when
    the IVR path is non-empty; otherwise Abandoned. A group with a
    hunt-group leg and an answered-by-phone leg is Answered. *)
Theorem finalStatus_decision_table (events : list (gmap string value)) :
  events ≠ [] →
  ∃ cd, webhookMerger.extractCallData events = inr cd
  ∧ (Exists (λ e, webhookMerger.is_answered e = true) events →
       get cd "finalStatus" = Str "Answered")
  ∧ (¬ Exists (λ e, webhookMerger.is_answered e = true) events →
     truthy (webhookMerger.huntGroup events) = true →
       get cd "finalStatus" = Str "Missed")
  ∧ (¬ Exists (λ e, webhookMerger.is_answered e = true) events →
     truthy (webhookMerger.huntGroup events) = false →
     webhookMerger.ivrPath events ≠ [] →
       get cd "finalStatus" = Str "IVR Only")
  ∧ (¬ Exists (λ e, webhookMerger.is_answered e = true) events →
     truthy (webhookMerger.huntGroup events) = false →
     webhookMerger.ivrPath events = [] →
       get cd "finalStatus" = Str "Abandoned")
  ∧ (truthy (webhookMerger.huntGroup events) = true ↔
     ∃ before e after, events = before ++ e :: after
       ∧ Forall (λ x, webhookMerger.is_huntgroup x = false) before
       ∧ webhookMerger.is_huntgroup e = true
       ∧ truthy (or (get e "Destination Name") (get e "Send Name")) = true).
Proof.
  intros Hne. destruct (extractCallData_returns events Hne) as [cd Hcd].
  exists cd. split; [done|].
  destruct (extractCallData_properties _ _ Hcd)
    as (firstEvent & rest & -> & _ & Hfs & _).
  rewrite Hfs. unfold webhookMerger.classify.
  rewrite <- wasAnswered_Exists.
  generalize (huntGroup_label (firstEvent :: rest)).
  destruct (webhookMerger.wasAnswered _); simpl.
  { intros Hlabel. repeat split; try done; apply Hlabel. }
  destruct (truthy (webhookMerger.huntGroup _)); simpl.
  { intros Hlabel. repeat split; try done; apply Hlabel. }
  destruct (webhookMerger.ivrPath _); simpl; intros Hlabel;
    repeat split; try done; apply Hlabel.
Qed.

(** Where every hunt-group leg carries a name, the table is the one of
    the specification. *)
Lemma finalStatus_as_specified (events : list (gmap string value)) cd :
  Forall (λ e, webhookMerger.is_huntgroup e = true →
               truthy (or (get e "Destination Name") (get e "Send Name")) = true) events →
  webhookMerger.extractCallData events = inr cd →
  get cd "finalStatus" = Str (Specified.finalStatus events).
Proof.
  intros Hnamed Hcd.
  destruct (extractCallData_properties _ _ Hcd)
    as (firstEvent & rest & -> & _ & Hfs & _).
  rewrite Hfs. unfold webhookMerger.classify, Specified.finalStatus.
  assert (webhookMerger.wasAnswered (firstEvent :: rest)
          = existsb webhookMerger.is_answered (firstEvent :: rest)) as ->.
  { apply eq_true_iff_eq. rewrite wasAnswered_Exists, existsb_exists, Exists_exists.
    split; intros (x & Hin & Hx); exists x; (split; [|done]);
      by apply list_elem_of_In. }
  destruct (existsb webhookMerger.is_answered _); [done|].
  assert (truthy (webhookMerger.huntGroup (firstEvent :: rest))
          = existsb webhookMerger.is_huntgroup (firstEvent :: rest)) as ->.
  2: { destruct (existsb webhookMerger.is_huntgroup _); [done|].
       by destruct (0 <? _)%nat. }
  apply eq_true_iff_eq. rewrite huntGroup_label, existsb_exists. split.
  - intros (before & e & after & -> & _ & He & _). exists e. split; [|done].
    apply in_or_app. right. by left.
  - intros (e & Hin & He).
    destruct (List.find webhookMerger.is_huntgroup (firstEvent :: rest)) as [e'|] eqn:E.
    + apply find_Some_split in E as (before & after & E & Hb & He').
      exists before, e', after. repeat split; try done.
      rewrite Forall_forall in Hnamed. apply Hnamed; [|done].
      rewrite E. apply elem_of_app. right. by left.
    + apply find_None_Forall in E. rewrite Forall_forall in E.
      apply list_elem_of_In in Hin. specialize (E e Hin). congruence.
Qed.

End Disposition.

(** C2, witness: the sample call rings a hunt group and is answered. *)
Lemma finalStatus_decision_table_witness :
  ∃ cd, webhookMerger.extractCallData (map as_object Sample.full_call) = inr cd
  ∧ get cd "finalStatus" = Str "Answered".
Proof.
  destruct (finalStatus_decision_table (map as_object Sample.full_call))
    as (cd & Hcd & Hanswered & _).
  - discriminate.
  - exists cd. split; [exact Hcd|]. apply Hanswered.
    apply (bool_decide_unpack _). vm_compute. reflexivity.
Defined.

(** C2, counterexample: a group whose only leg rings a hunt group, with
    neither a destination name nor a source name, has an event with a
    hunt-group destination and no answered event, which the table of the
    specification classifies as Missed; the code classifies it as Abandoned. *)
Lemma unnamed_hunt_group_is_Abandoned :
  let events := [as_object Sample.unnamed_hunt] in
  existsb webhookMerger.is_answered events = false
  ∧ existsb webhookMerger.is_huntgroup events = true
  ∧ Specified.finalStatus events = "Missed"
  ∧ ∃ cd, webhookMerger.extractCallData events = inr cd
          ∧ get cd "finalStatus" = Str "Abandoned".
Proof.
  cbv zeta. repeat split; try (vm_compute; reflexivity).
  destruct (extractCallData_returns [as_object Sample.unnamed_hunt]) as [cd Hcd];
    [done|].
  exists cd. split; [done|].
  destruct (extractCallData_properties _ _ Hcd) as (f & r & _ & _ & Hfs & _).
  rewrite Hfs. vm_compute. reflexivity.
Qed.

(** ** Duration and end time *)


Section Times.
Context `{Host}.


(** C5 (as amended). [endTime] is the [Start Time] of an event of the
    group whose status is [ended] and whose source type is [external];
    when the group has no such event, [endTime] is [null]. *)
Theorem endTime_is_of_an_external_ended_event (events : list (gmap string value)) :
  events ≠ [] →
  ∃ cd, webhookMerger.extractCallData events = inr cd
  ∧ (Forall (λ e, webhookMerger.is_ended e = false) events →
       get cd "endTime" = null)
  ∧ (Exists (λ e, webhookMerger.is_ended e = true) events →
       ∃ e, e ∈ events ∧ webhookMerger.is_ended e = true
            ∧ get cd "endTime" = get e "Start Time").
Proof.
  intros Hne. destruct (extractCallData_returns events Hne) as [cd Hcd].
  exists cd. split; [done|].
  destruct (extractCallData_properties _ _ Hcd)
    as (firstEvent & rest & -> & _ & _ & _ & _ & _ & He & _).
  rewrite He. unfold webhookMerger.endedEvent. split.
  - intros Hnone. apply find_None_Forall in Hnone. by rewrite Hnone.
  - intros [e E]%find_is_Some_Exists. rewrite E.
    apply find_Some_split in E as (before & after & E & _ & Hended).
    exists e. repeat split; [|done]. rewrite E.
    apply elem_of_app. right. by left.
Qed.

End Times.



(** C5, witness: the sample call ends with the caller's leg at
    15:13:25. *)
Lemma endTime_is_of_an_external_ended_event_witness :
  ∃ cd, webhookMerger.extractCallData (map as_object Sample.full_call) = inr cd
  ∧ ∃ e, e ∈ map as_object Sample.full_call ∧ webhookMerger.is_ended e = true
         ∧ get cd "endTime" = get e "Start Time".
Proof.
  destruct (endTime_is_of_an_external_ended_event (map as_object Sample.full_call))
    as (cd & Hcd & _ & Hsome).
  - discriminate.
  - exists cd. split; [exact Hcd|]. apply Hsome.
    apply (bool_decide_unpack _). vm_compute. reflexivity.
Defined.

(** C5, counterexample: when the caller's leg ends twice, at 15:13:25
    and at 15:13:40, [endTime] is the first of the two and not the
    latest; and when the only ended event is the leg of an extension,
    [endTime] is [null] although the last ended event has a time. *)
Lemma endTime_is_not_the_last_ended_event :
  (let events := map as_object [Sample.ended_external; Sample.ended_external_later] in
   Specified.endTime events = Str "2025-12-15T15:13:40-05:00"
   ∧ ∃ cd, webhookMerger.extractCallData events = inr cd
           ∧ get cd "endTime" = Str "2025-12-15T15:13:25-05:00")
  ∧ (let events := map as_object [Sample.ringing_ivr; Sample.ended_phone] in
     Specified.endTime events = Str "2025-12-15T15:13:25-05:00"
     ∧ ∃ cd, webhookMerger.extractCallData events = inr cd
             ∧ get cd "endTime" = null).
Proof.
  cbv zeta. split; (split; [vm_compute; reflexivity|]).
  - destruct (extractCallData_returns
                (map as_object [Sample.ended_external; Sample.ended_external_later]))
      as [cd Hcd]; [discriminate|].
    exists cd. split; [done|].
    destruct (extractCallData_properties _ _ Hcd)
      as (f & r & _ & _ & _ & _ & _ & _ & He & _).
    rewrite He. vm_compute. reflexivity.
  - destruct (extractCallData_returns
                (map as_object [Sample.ringing_ivr; Sample.ended_phone]))
      as [cd Hcd]; [discriminate|].
    exists cd. split; [done|].
    destruct (extractCallData_properties _ _ Hcd)
      as (f & r & _ & _ & _ & _ & _ & _ & He & _).
    rewrite He. vm_compute. reflexivity.
Qed.

(** ** The IVR path *)

Section IvrPath.
Context `{Host}.

(** One step of the path over a destination name. *)
Lemma visit_ivr path e :
  is_str (get e "Destination Type") "ivr" = true →
  webhookMerger.visit path e
  = if truthy (get e "Destination Name")
    then if bool_decide (get e "Destination Name" ∈ path)
         then path else path ++ [get e "Destination Name"]
    else path.
Proof. unfold webhookMerger.visit, includes. by intros ->. Qed.

Lemma visit_other path e :
  is_str (get e "Destination Type") "ivr" = false →
  webhookMerger.visit path e = path.
Proof. unfold webhookMerger.visit. by intros ->. Qed.

Lemma visit_blank path e :
  truthy (get e "Destination Name") = false → webhookMerger.visit path e = path.
Proof. unfold webhookMerger.visit. intros ->. by rewrite andb_false_r. Qed.

(** The path depends on the events only through the destination names
    of the IVR legs. *)
Lemma foldl_visit_destinations path events :
  foldl webhookMerger.visit path events
  = foldl (λ p name, if truthy name
                     then if bool_decide (name ∈ p) then p else p ++ [name]
                     else p)
          path (Spec.ivr_destinations events).
Proof.
  revert path. induction events as [|e events IH]; intros path; simpl; [done|].
  rewrite IH. unfold Spec.ivr_destinations. simpl.
  destruct (is_str (get e "Destination Type") "ivr") eqn:E; simpl.
  - by rewrite visit_ivr.
  - by rewrite visit_other.
Qed.

(** Every entry is a name that was found non-blank on some IVR leg, and
    no name is entered twice. *)
Lemma foldl_visit_entries (P : value → Prop) path events :
  Forall P path →
  Forall (λ e, truthy (get e "Destination Name") = true → P (get e "Destination Name"))
         events →
  Forall P (foldl webhookMerger.visit path events).
Proof.
  intros Hpath Hevents. revert path Hpath.
  induction Hevents as [|e events He _ IH]; intros path Hpath; simpl; [done|].
  apply IH. unfold webhookMerger.visit, includes.
  destruct (is_str _ _); simpl; [|done].
  destruct (truthy _); simpl; [|done].
  case_bool_decide; [done|]. apply Forall_app. split; [done|].
  constructor; [by apply He|constructor].
Qed.



Lemma strings_of_values (l : list value) :
  Forall (λ v, ∃ s, v = Str s ∧ s ≠ "") l →
  ∃ names, l = map Str names ∧ Forall (λ s, s ≠ "") names.
Proof.
  induction 1 as [|v l (s & -> & Hs) _ (names & -> & Hnames)].
  - by exists [].
  - exists (s :: names). split; [done|]. by constructor.
Qed.

Lemma join_path_strings names :
  webhookMerger.join_path (map Str names) = join " → " names.
Proof.
  unfold webhookMerger.join_path. f_equal.
  induction names as [|s names IH]; simpl; [done|]. by rewrite IH.
Qed.

(** C4 (as amended). When the IVR destinations of a group are, in
    order, A, A, B, A (two different non-blank names), the extracted IVR
    path is "A → B": the adjacent duplicate is collapsed, and so is the
    later visit of A after B (a name is entered once, where it is first
    seen). *)
Theorem ivrPath_of_A_A_B_A (events : list (gmap string value)) (A B : string) :
  A ≠ "" → B ≠ "" → A ≠ B →
  Spec.ivr_destinations events = [Str A; Str A; Str B; Str A] →
  ∃ cd, webhookMerger.extractCallData events = inr cd
        ∧ get cd "ivrPath" = Str (String.append A (String.append " → " B)).
Proof.
  intros HA HB HAB Hdest.
  destruct (extractCallData_returns events) as [cd Hcd].
  { intros ->. discriminate. }
  exists cd. split; [done|].
  destruct (extractCallData_properties _ _ Hcd)
    as (firstEvent & rest & Heq & _ & _ & _ & Hpath & _).
  rewrite Hpath. f_equal. unfold webhookMerger.ivrPath.
  rewrite foldl_visit_destinations, Hdest. simpl.
  assert (String.eqb A "" = false) as -> by by apply String.eqb_neq.
  assert (String.eqb B "" = false) as -> by by apply String.eqb_neq.
  simpl.
  rewrite (bool_decide_eq_true_2 (Str A ∈ [Str A])) by (by left).
  rewrite (bool_decide_eq_false_2 (Str B ∈ [Str A])).
  2: { intros [=]%list_elem_of_singleton. congruence. }
  simpl. rewrite (bool_decide_eq_true_2 (Str A ∈ [Str A; Str B])) by (by left).
  reflexivity.
Qed.

(** C10. Every entry of the extracted IVR path is a non-empty name, and
    an event whose destination type is [ivr] while its destination name
    is blank or missing contributes no entry: the path is the same
    without that event. The stored path string is the entries joined by
    " → ". (The destination name is a text cell.) *)
Theorem ivrPath_entries_are_names (events : list (gmap string value)) :
  events ≠ [] →
  Forall (λ e, Spec.text (get e "Destination Name") = true) events →
  ∃ cd names, webhookMerger.extractCallData events = inr cd
  ∧ webhookMerger.ivrPath events = map Str names
  ∧ Forall (λ s, s ≠ "") names
  ∧ get cd "ivrPath" = Str (join " → " names)
  ∧ (∀ before e after, events = before ++ e :: after →
       is_str (get e "Destination Type") "ivr" = true →
       truthy (get e "Destination Name") = false →
       webhookMerger.ivrPath (before ++ after) = webhookMerger.ivrPath events).
Proof.
  intros Hne Htext. destruct (extractCallData_returns events Hne) as [cd Hcd].
  destruct (strings_of_values (webhookMerger.ivrPath events)) as (names & Hnames & Hnonempty).
  { apply foldl_visit_entries; [constructor|].
    eapply Forall_impl; [exact Htext|]. intros e. simpl.
    destruct (get e "Destination Name") as [| |s| | | |]; try done.
    intros _ Ht. exists s. split; [done|]. intros ->. done. }
  exists cd, names. split; [done|]. split; [done|]. split; [done|].
  destruct (extractCallData_properties _ _ Hcd)
    as (firstEvent & rest & Heq & _ & _ & _ & Hpath & _).
  split.
  - by rewrite Hpath, Hnames, join_path_strings.
  - intros before e after -> _ Hblank. unfold webhookMerger.ivrPath.
    rewrite !foldl_app. simpl. by rewrite visit_blank.
Qed.

End IvrPath.

(** C4, witness: legs named A, A, B, A. *)
Lemma ivrPath_of_A_A_B_A_witness :
  ∃ cd, webhookMerger.extractCallData (map as_object Sample.ivr_A_A_B_A) = inr cd
        ∧ get cd "ivrPath" = Str "A → B".
Proof.
  apply (ivrPath_of_A_A_B_A (map as_object Sample.ivr_A_A_B_A) "A" "B");
    try discriminate.
  vm_compute. reflexivity.
Defined.

(** C4, counterexample: for IVR legs named A, A, B, A the stored path
    is "A → B", not "A → B → A". *)
Lemma revisited_ivr_node_is_collapsed :
  let events := map as_object Sample.ivr_A_A_B_A in
  Spec.ivr_destinations events = [Str "A"; Str "A"; Str "B"; Str "A"]
  ∧ ∃ cd, webhookMerger.extractCallData events = inr cd
          ∧ get cd "ivrPath" = Str "A → B"
          ∧ get cd "ivrPath" ≠ Str "A → B → A".
Proof.
  cbv zeta. split; [vm_compute; reflexivity|].
  destruct (extractCallData_returns (map as_object Sample.ivr_A_A_B_A))
    as [cd Hcd]; [discriminate|].
  exists cd. split; [done|].
  destruct (extractCallData_properties _ _ Hcd)
    as (f & r & _ & _ & _ & _ & Hpath & _).
  rewrite Hpath. split; [vm_compute; reflexivity|].
  vm_compute. discriminate.
Qed.

(** C10, witness: the sample call. *)
Lemma ivrPath_entries_are_names_witness :
  ∃ cd names,
    webhookMerger.extractCallData (map as_object Sample.full_call) = inr cd
    ∧ webhookMerger.ivrPath (map as_object Sample.full_call) = map Str names
    ∧ Forall (λ s, s ≠ "") names
    ∧ get cd "ivrPath" = Str (join " → " names).
Proof.
  destruct (ivrPath_entries_are_names (map as_object Sample.full_call))
    as (cd & names & Hcd & Hpath & Hnames & Hjoin & _).
  - discriminate.
  - apply (bool_decide_unpack _). vm_compute. reflexivity.
  - exists cd, names. split; [exact Hcd|]. split; [exact Hpath|].
    split; [exact Hnames|exact Hjoin].
Defined.

(** ** Stepping through a computation *)

Lemma bind_Return {S A B} (m : ST S A) (f : A → ST S B) s a s' :
  m s = (Return a, s') → (m ≫= f) s = f a s'.
Proof. unfold mbind, ST_bind. by intros ->. Qed.

Lemma bind_Throw {S A B} (m : ST S A) (f : A → ST S B) s e s' :
  m s = (Throw e, s') → (m ≫= f) s = (Throw e, s').
Proof. unfold mbind, ST_bind. by intros ->. Qed.

Lemma rethrow_Return {S A} prefix (m : ST S A) s a s' :
  m s = (Return a, s') → rethrow prefix m s = (Return a, s').
Proof. unfold rethrow, try_catch. by intros ->. Qed.

Lemma rethrow_Throw {S A} prefix (m : ST S A) s e s' :
  m s = (Throw e, s') →
  rethrow prefix m s = (Throw (Error (String.append prefix (message e))), s').
Proof. unfold rethrow, try_catch. by intros ->. Qed.

Lemma request_no_faults {A} (op : M A) w :
  faults w = [] → request op w = op w.
Proof. unfold request. by intros ->. Qed.

(** ** Cells and lines *)

Lemma write_lookup new old k :
  write new old !! k = cell (new !! k) (old !! k).
Proof.
  unfold write. rewrite lookup_merge.
  by destruct (new !! k), (old !! k).
Qed.

Lemma as_object_id r :
  fields r !! "id" = None → get (as_object r) "id" = Str (id r).
Proof.
  intros Hno. unfold get, as_object.
  by rewrite lookup_union_r, lookup_singleton_eq.
Qed.

Lemma run_line_other data fs l k :
  callService.target l ≠ k → callService.run_line data fs l !! k = fs !! k.
Proof.
  intros Hne. destruct l; simpl in *;
    repeat case_match; try done; by rewrite lookup_insert_ne.
Qed.

Lemma run_lines_other data fs lines k :
  k ∉ map callService.target lines →
  foldl (callService.run_line data) fs lines !! k = fs !! k.
Proof.
  revert fs. induction lines as [|l lines IH]; intros fs Hk; simpl; [done|].
  rewrite IH, run_line_other; [done| |].
  - intros E. apply Hk. rewrite <- E. by left.
  - intros Hin. apply Hk. by right.
Qed.

(** The last line that writes a field decides it. *)
Lemma run_lines_IfTruthy data fs before p k after :
  k ∉ map callService.target after →
  truthy (get data p) = true →
  foldl (callService.run_line data) fs (before ++ callService.IfTruthy p k :: after) !! k
  = Some (get data p).
Proof.
  intros Hk Ht. rewrite foldl_app. simpl.
  rewrite run_lines_other by done. rewrite Ht. apply lookup_insert_eq.
Qed.

Lemma fieldsToUpdate_keeps_TB_CALL_ID data :
  callService.fieldsToUpdate data !! F.TB_CALL_ID = None.
Proof.
  unfold callService.fieldsToUpdate. rewrite run_lines_other; [done|].
  apply (bool_decide_unpack _). vm_compute. reflexivity.
Qed.

Lemma fieldsToCreate_no_id now data :
  callService.fieldsToCreate now data !! "id" = None.
Proof.
  unfold callService.fieldsToCreate. rewrite run_lines_other.
  - by read_property.
  - apply (bool_decide_unpack _). vm_compute. reflexivity.
Qed.

Lemma fieldsToCreate_TB_CALL_ID now data :
  truthy (get data "telebroadCallId") = true →
  callService.fieldsToCreate now data !! F.TB_CALL_ID
  = Some (get data "telebroadCallId").
Proof.
  intros Ht. unfold callService.fieldsToCreate.
  change callService.createCall_lines
    with (take 9 callService.createCall_lines
          ++ callService.IfTruthy "telebroadCallId" F.TB_CALL_ID
          :: drop 10 callService.createCall_lines).
  apply run_lines_IfTruthy; [|done].
  apply (bool_decide_unpack _). vm_compute. reflexivity.
Qed.

Lemma patch_id rid fs r : id (patch rid fs r) = id r.
Proof. unfold patch. by destruct (has_id rid r). Qed.

Lemma patch_keeps fs rid r k :
  fs !! k = None → fields (patch rid fs r) !! k = fields r !! k.
Proof.
  intros Hk. unfold patch. destruct (has_id rid r); [|done].
  simpl. by rewrite write_lookup, Hk.
Qed.

(** ** The upsert *)

Section Upsert.
Context `{Host}.

Lemma select_ok t f sort n w :
  faults w = [] →
  select t f sort n w
  = (Return (take n (sorted_by sort (List.filter f (rows t w)))), w).
Proof. intros Hf. unfold select. by rewrite request_no_faults. Qed.

Lemma findByTelebroadCallId_ok callId w :
  faults w = [] →
  callService.findByTelebroadCallId callId w
  = (Return (head (map as_object
       (take 100 (airtable_sort F.DATE_TIME desc (matching callId w))))), w).
Proof.
  intros Hf. unfold callService.findByTelebroadCallId, callService.findByTelebroadId.
  erewrite bind_Return; [reflexivity|].
  unfold callService.getAllCalls. apply rethrow_Return.
  erewrite bind_Return; [reflexivity|]. by apply select_ok.
Qed.

(** What the lookup returns is the head of a non-empty selection. *)
Lemma head_selected (l : list record) :
  match l with
  | [] => head (map as_object (take 100 (airtable_sort F.DATE_TIME desc l))) = None
  | _ :: _ => ∃ r, r ∈ l
      ∧ head (map as_object (take 100 (airtable_sort F.DATE_TIME desc l)))
        = Some (as_object r)
  end.
Proof.
  pose proof (airtable_sort_perm F.DATE_TIME desc l) as Hperm.
  destruct l as [|r0 l].
  - apply Permutation_nil_r in Hperm. by rewrite Hperm.
  - destruct (airtable_sort F.DATE_TIME desc (r0 :: l)) as [|r l'] eqn:E.
    + by apply Permutation_nil_cons in Hperm.
    + exists r. split; [|done]. rewrite <- Hperm. by left.
Qed.

Lemma updateCall_ok r data w :
  faults w = [] → r ∈ calls w →
  ∃ callRecord,
    callService.updateCall (Str (id r)) data w
    = (Return callRecord,
       set_rows Calls
         (map (patch (Str (id r)) (callService.fieldsToUpdate data)) (calls w)) w).
Proof.
  intros Hf Hin. unfold callService.updateCall.
  destruct (List.find (has_id (Str (id r))) (calls w)) as [r0|] eqn:E.
  - eexists. apply rethrow_Return. erewrite bind_Return; [reflexivity|].
    unfold update. rewrite request_no_faults by done. simpl. by rewrite E.
  - apply find_None_Forall in E. rewrite Forall_forall in E.
    specialize (E r Hin). unfold has_id in E. simpl in E.
    by rewrite String.eqb_refl in E.
Qed.

Lemma createCall_ok data w :
  faults w = [] →
  let r := Row (String.append "rec" (pretty (nextId w)))
               (write (callService.fieldsToCreate (now w) data) ∅) in
  callService.createCall data w
  = (Return (as_object r),
     set_nextId (S (nextId w)) (set_rows Calls (calls w ++ [r]) w)).
Proof.
  intros Hf. cbv zeta. unfold callService.createCall.
  apply rethrow_Return. erewrite bind_Return; [|reflexivity].
  erewrite bind_Return; [reflexivity|].
  unfold create. by rewrite request_no_faults.
Qed.

Lemma created_record_has_no_id_column now data :
  write (callService.fieldsToCreate now data) ∅ !! "id" = None.
Proof. by rewrite write_lookup, fieldsToCreate_no_id. Qed.

Lemma sorted_nonempty events : events ≠ [] → webhookMerger.sorted events ≠ [].
Proof. intros Hne E. by apply Array_sort_nil in E. Qed.

(** With the base answering every request, [mergeCallEvents] returns:
    an update of a record that carries the call id when there is one,
    and otherwise a record appended to the table. *)
Lemma mergeCallEvents_ok callId events w :
  faults w = [] → events ≠ [] →
  Forall (λ r, fields r !! "id" = None) (calls w) →
  ∃ cd, webhookMerger.extractCallData (webhookMerger.sorted events) = inr cd
  ∧ match matching callId w with
    | _ :: _ =>
        ∃ r, r ∈ matching callId w
        ∧ webhookMerger.mergeCallEvents callId events w
          = (Return (webhookMerger.Result "updated" (Str (id r)) cd),
             set_rows Calls
               (map (patch (Str (id r)) (callService.fieldsToUpdate cd)) (calls w)) w)
    | [] =>
        let r := Row (String.append "rec" (pretty (nextId w)))
                     (write (callService.fieldsToCreate (now w) cd) ∅) in
        webhookMerger.mergeCallEvents callId events w
        = (Return (webhookMerger.Result "created" (Str (id r)) cd),
           set_nextId (S (nextId w)) (set_rows Calls (calls w ++ [r]) w))
    end.
Proof.
  intros Hf Hne Hcols.
  destruct (extractCallData_returns (webhookMerger.sorted events)) as [cd Hcd];
    [by apply sorted_nonempty|].
  exists cd. split; [done|].
  unfold webhookMerger.mergeCallEvents. rewrite Hcd.
  pose proof (head_selected (matching callId w)) as Hhead.
  destruct (matching callId w) as [|r0 rs] eqn:Em.
  - cbv zeta. erewrite bind_Return; [|reflexivity].
    erewrite bind_Return; [|by apply findByTelebroadCallId_ok].
    rewrite Em, Hhead.
    erewrite bind_Return; [|by apply createCall_ok].
    unfold mret, ST_ret. do 2 f_equal. f_equal.
    apply as_object_id, created_record_has_no_id_column.
  - destruct Hhead as (r & Hr & Hhead). exists r. split; [done|].
    assert (r ∈ calls w) as Hin.
    { unfold matching in Em. rewrite <- Em in Hr.
      apply list_elem_of_In, filter_In in Hr as [Hr _]. by apply list_elem_of_In. }
    erewrite bind_Return; [|reflexivity].
    erewrite bind_Return; [|by apply findByTelebroadCallId_ok].
    rewrite Em, Hhead.
    rewrite as_object_id by (rewrite Forall_forall in Hcols; by apply Hcols).
    destruct (updateCall_ok r cd w Hf Hin) as [callRecord Hupdate].
    by erewrite bind_Return.
Qed.

End Upsert.

Section UpsertKey.
Context `{Host}.

Lemma blank_Str s : s ≠ "" → blank (Str s) = false.
Proof. by destruct s. Qed.

Lemma truthy_Str s : s ≠ "" → truthy (Str s) = true.
Proof. intros Hs. simpl. by apply negb_true_iff, String.eqb_neq. Qed.

(** The record created for a group is found again under the call id of
    the group's events. *)
Lemma created_record_matches callId events cd rid now :
  callId ≠ "" → Forall (λ e, get e "Call ID" = Str callId) events →
  webhookMerger.extractCallData (webhookMerger.sorted events) = inr cd →
  formula_eq F.TB_CALL_ID callId
    (Row rid (write (callService.fieldsToCreate now cd) ∅)) = true.
Proof.
  intros HcallId Hevents Hcd.
  destruct (extractCallData_properties _ _ Hcd) as (firstEvent & rest & E & Hid & _).
  assert (get firstEvent "Call ID" = Str callId) as Hfirst.
  { rewrite Forall_forall in Hevents. apply Hevents.
    rewrite <- (Array_sort_Permutation webhookMerger.byTime events).
    fold (webhookMerger.sorted events). rewrite E. by left. }
  unfold formula_eq, get. simpl.
  rewrite write_lookup, lookup_empty, fieldsToCreate_TB_CALL_ID.
  - rewrite Hid, Hfirst. unfold cell. rewrite blank_Str by done. simpl.
    apply String.eqb_refl.
  - rewrite Hid, Hfirst. by apply truthy_Str.
Qed.

End UpsertKey.

(** ** What a computation leaves alone *)

Section Frame.
Context {X : Type} (proj : World → X).
Hypothesis proj_faults : ∀ fs w, proj (set_faults fs w) = proj w.

Abbreviation keeps := (Spec.keeps proj).

Lemma keeps_ret {A} (a : A) : keeps (mret a).
Proof. by intros w. Qed.

Lemma keeps_throw {A} e : keeps (throw (A:=A) e).
Proof. by intros w. Qed.

Lemma keeps_bind {A B} (m : M A) (f : A → M B) :
  keeps m → (∀ a, keeps (f a)) → keeps (m ≫= f).
Proof.
  intros Hm Hf w. unfold mbind, ST_bind. specialize (Hm w).
  destruct (m w) as [[a|e] w1]; simpl in *; [|done].
  by rewrite Hf.
Qed.

Lemma keeps_try_catch {A} (m : M A) (h : error → M A) :
  keeps m → (∀ e, keeps (h e)) → keeps (try_catch m h).
Proof.
  intros Hm Hh w. unfold try_catch. specialize (Hm w).
  destruct (m w) as [[a|e] w1]; simpl in *; [done|].
  by rewrite Hh.
Qed.

Lemma keeps_rethrow {A} prefix (m : M A) : keeps m → keeps (rethrow prefix m).
Proof. intros Hm. apply keeps_try_catch; [done|]. intros e. apply keeps_throw. Qed.

Lemma keeps_lift_pure {A} (r : error + A) : keeps (lift_pure r).
Proof. destruct r; [apply keeps_throw|apply keeps_ret]. Qed.

Lemma keeps_request {A} (op : M A) : keeps op → keeps (request op).
Proof.
  intros Hop w. unfold request.
  destruct (faults w) as [|[] fs]; simpl; [done|done|].
  by rewrite Hop.
Qed.

Lemma keeps_clock : keeps clock.
Proof. by intros w. Qed.

End Frame.

Lemma calls_faults fs w : calls (set_faults fs w) = calls w.
Proof. done. Qed.

Lemma webhookEvents_faults fs w : webhookEvents (set_faults fs w) = webhookEvents w.
Proof. done. Qed.

Lemma console_faults fs w : console (set_faults fs w) = console w.
Proof. done. Qed.

(** ** The services, request by request *)

Section Services.
Context `{Host}.

Lemma select_keeps {X} (proj : World → X) t f sort n :
  (∀ fs w, proj (set_faults fs w) = proj w) →
  Spec.keeps proj (select t f sort n).
Proof. intros Hp. apply keeps_request; [done|]. by intros w. Qed.

Lemma findByTelebroadCallId_keeps {X} (proj : World → X) callId :
  (∀ fs w, proj (set_faults fs w) = proj w) →
  Spec.keeps proj (callService.findByTelebroadCallId callId).
Proof.
  intros Hp. unfold callService.findByTelebroadCallId, callService.findByTelebroadId.
  apply keeps_bind; [|intros; apply keeps_ret].
  apply keeps_rethrow, keeps_bind; [by apply select_keeps|intros; apply keeps_ret].
Qed.

Lemma update_Calls_keeps {X} (proj : World → X) rid fs :
  (∀ fs w, proj (set_faults fs w) = proj w) →
  (∀ l w, proj (set_rows Calls l w) = proj w) →
  Spec.keeps proj (update Calls rid fs).
Proof.
  intros Hp Hrows. apply keeps_request; [done|]. intros w.
  destruct (List.find _ _); cbn -[set_rows]; [apply Hrows|done].
Qed.

Lemma create_Calls_keeps {X} (proj : World → X) fs :
  (∀ fs w, proj (set_faults fs w) = proj w) →
  (∀ l w, proj (set_rows Calls l w) = proj w) →
  (∀ n w, proj (set_nextId n w) = proj w) →
  Spec.keeps proj (create Calls fs).
Proof.
  intros Hp Hrows Hnext. apply keeps_request; [done|]. intros w.
  cbn -[set_rows set_nextId]. by rewrite Hnext, Hrows.
Qed.

Lemma updateCall_keeps {X} (proj : World → X) rid data :
  (∀ fs w, proj (set_faults fs w) = proj w) →
  (∀ l w, proj (set_rows Calls l w) = proj w) →
  Spec.keeps proj (callService.updateCall rid data).
Proof.
  intros Hp Hrows. apply keeps_rethrow, keeps_bind;
    [by apply update_Calls_keeps|intros; apply keeps_ret].
Qed.

Lemma createCall_keeps {X} (proj : World → X) data :
  (∀ fs w, proj (set_faults fs w) = proj w) →
  (∀ l w, proj (set_rows Calls l w) = proj w) →
  (∀ n w, proj (set_nextId n w) = proj w) →
  Spec.keeps proj (callService.createCall data).
Proof.
  intros Hp Hrows Hnext. apply keeps_rethrow, keeps_bind; [apply keeps_clock|].
  intros now. apply keeps_bind; [by apply create_Calls_keeps|intros; apply keeps_ret].
Qed.

(** [mergeCallEvents] writes to the Calls table only. *)
Lemma mergeCallEvents_keeps {X} (proj : World → X) callId events :
  (∀ fs w, proj (set_faults fs w) = proj w) →
  (∀ l w, proj (set_rows Calls l w) = proj w) →
  (∀ n w, proj (set_nextId n w) = proj w) →
  Spec.keeps proj (webhookMerger.mergeCallEvents callId events).
Proof.
  intros Hp Hrows Hnext. unfold webhookMerger.mergeCallEvents.
  apply keeps_bind; [apply keeps_lift_pure|]. intros cd.
  apply keeps_bind; [by apply findByTelebroadCallId_keeps|]. intros [existing|].
  - apply keeps_bind; [by apply updateCall_keeps|intros; apply keeps_ret].
  - apply keeps_bind; [by apply createCall_keeps|intros; apply keeps_ret].
Qed.

(** *** A request that throws has written nothing *)

Lemma throws_keep_calls_bind {A B} (m : M A) (f : A → M B) :
  Spec.keeps calls m → (∀ a, Spec.throws_keep_calls (f a)) →
  Spec.throws_keep_calls (m ≫= f).
Proof.
  intros Hm Hf w e w2. unfold mbind, ST_bind. specialize (Hm w).
  destruct (m w) as [[a|e1] w1]; simpl in *.
  - intros Hfa. apply Hf in Hfa. congruence.
  - intros [= _ <-]. done.
Qed.

Lemma throws_keep_calls_rethrow {A} prefix (m : M A) :
  Spec.throws_keep_calls m → Spec.throws_keep_calls (rethrow prefix m).
Proof.
  intros Hm w e w2. unfold rethrow, try_catch. specialize (Hm w).
  destruct (m w) as [[a|e1] w1]; [done|].
  unfold throw. intros [= _ <-]. by eapply Hm.
Qed.

Lemma throws_keep_calls_then_ret {A B} (m : M A) (g : A → B) :
  Spec.throws_keep_calls m → Spec.throws_keep_calls (m ≫= λ a, mret (g a)).
Proof.
  intros Hm w e w2. unfold mbind, ST_bind. specialize (Hm w).
  destruct (m w) as [[a|e1] w1]; [done|].
  intros [= _ <-]. by eapply Hm.
Qed.

Lemma throws_keep_calls_request {A} (op : M A) :
  Spec.throws_keep_calls op → Spec.throws_keep_calls (request op).
Proof.
  intros Hop w e w2. unfold request.
  destruct (faults w) as [|[] fs].
  - apply Hop.
  - by intros [= _ <-].
  - intros Hthrow. by apply Hop in Hthrow.
Qed.

Lemma update_throws_keep_calls rid fs : Spec.throws_keep_calls (update Calls rid fs).
Proof.
  apply throws_keep_calls_request. intros w e w2.
  destruct (List.find _ _); [done|]. by intros [= _ <-].
Qed.

Lemma create_throws_keep_calls fs : Spec.throws_keep_calls (create Calls fs).
Proof. apply throws_keep_calls_request. by intros w e w2. Qed.

(** When [mergeCallEvents] throws, no call record was written. *)
Lemma mergeCallEvents_throws_keep_calls callId events :
  Spec.throws_keep_calls (webhookMerger.mergeCallEvents callId events).
Proof.
  unfold webhookMerger.mergeCallEvents.
  apply throws_keep_calls_bind; [by apply keeps_lift_pure|]. intros cd.
  apply throws_keep_calls_bind; [by apply findByTelebroadCallId_keeps|].
  intros [existing|].
  - apply throws_keep_calls_then_ret, throws_keep_calls_rethrow.
    apply throws_keep_calls_then_ret, update_throws_keep_calls.
  - apply throws_keep_calls_then_ret, throws_keep_calls_rethrow.
    apply throws_keep_calls_bind; [by apply keeps_clock|]. intros now.
    apply throws_keep_calls_then_ret, create_throws_keep_calls.
Qed.

End Services.

(** Marking events touches the staging table only. *)
Lemma update_many_keeps {X} (proj : World → X) us :
  (∀ fs w, proj (set_faults fs w) = proj w) →
  (∀ l w, proj (set_rows WebhookEvents l w) = proj w) →
  Spec.keeps proj (update_many WebhookEvents us).
Proof.
  intros Hp Hrows. apply keeps_request; [done|]. intros w.
  destruct (_ <? _)%nat; [done|].
  destruct (forallb _ _); cbn -[set_rows]; [apply Hrows|done].
Qed.

Lemma markMultipleAsProcessed_keeps {X} (proj : World → X) ids rid :
  (∀ fs w, proj (set_faults fs w) = proj w) →
  (∀ l w, proj (set_rows WebhookEvents l w) = proj w) →
  Spec.keeps proj (webhookEventService.markMultipleAsProcessed ids rid).
Proof.
  intros Hp Hrows. unfold webhookEventService.markMultipleAsProcessed.
  apply keeps_rethrow. cbv zeta.
  apply keeps_bind; [|intros; apply keeps_ret].
  generalize (@nil record).
  induction (webhookEventService.slices _) as [|batch batches IH]; intros results; simpl.
  - apply keeps_ret.
  - apply keeps_bind; [by apply update_many_keeps|]. intros updated. apply IH.
Qed.

(** ** One pass over the call groups *)

Section Pass.
Context `{Host}.

Lemma attempted_app c1 c2 :
  Spec.attempted (c1 ++ c2) = Spec.attempted c1 ++ Spec.attempted c2.
Proof. apply omap_app. Qed.

Lemma console_set_rows t l w : console (set_rows t l w) = console w.
Proof. by destruct t. Qed.

Lemma webhookEvents_set_rows_Calls l w :
  webhookEvents (set_rows Calls l w) = webhookEvents w.
Proof. done. Qed.

Lemma calls_set_rows_WebhookEvents l w :
  calls (set_rows WebhookEvents l w) = calls w.
Proof. done. Qed.

Lemma try_catch_Return {S A} (m : ST S A) h s a s' :
  m s = (Return a, s') → try_catch m h s = (Return a, s').
Proof. unfold try_catch. by intros ->. Qed.

Lemma try_catch_Throw {S A} (m : ST S A) h s e s' :
  m s = (Throw e, s') → try_catch m h s = h e s'.
Proof. unfold try_catch. by intros ->. Qed.

Lemma run_eq {A} (m : M A) cu w r w' :
  m w = (r, w') → webhookMerger.run m (cu, w) = (r, (cu, w')).
Proof. unfold webhookMerger.run. simpl. by intros ->. Qed.

(** One turn of the loop returns normally. It logs the group it
    attempts and nothing else that counts as an attempt, and raises the
    two counters by at most one together. When [mergeCallEvents] throws,
    neither table is written, no counter moves and the error is
    logged. *)
Lemma process_call_step g k cu w :
  let events := default [] (own k g) in
  let w1 := set_console (console w ++ [Processing k (List.length events)]) w in
  ∃ cu' w' lines,
    webhookMerger.process_call g k (cu, w) = (Return (), (cu', w'))
    ∧ console w' = console w ++ Processing k (List.length events) :: lines
    ∧ Spec.attempted lines = []
    ∧ (cu'.1 + cu'.2 ≤ cu.1 + cu.2 + 1)%nat
    ∧ (∀ e w2, webhookMerger.mergeCallEvents k events w1 = (Throw e, w2) →
         cu' = cu ∧ calls w' = calls w ∧ webhookEvents w' = webhookEvents w
         ∧ lines = [ErrorProcessing k (message e)]).
Proof.
  cbv zeta.
  set (events := default [] (own k g)).
  set (w1 := set_console (console w ++ [Processing k (List.length events)]) w).
  pose proof (mergeCallEvents_keeps console k events console_faults
                (console_set_rows Calls) (λ _ _, eq_refl) w1) as Hconsole.
  pose proof (mergeCallEvents_keeps webhookEvents k events webhookEvents_faults
                webhookEvents_set_rows_Calls (λ _ _, eq_refl) w1) as Hevents.
  pose proof (mergeCallEvents_throws_keep_calls k events w1) as Hcalls.
  unfold webhookMerger.process_call. fold events.
  erewrite bind_Return; [|reflexivity]. fold w1.
  destruct (webhookMerger.mergeCallEvents k events w1) as [[result|e] w2] eqn:Em;
    simpl in Hconsole, Hevents.
  - (* merged: count, then mark *)
    set (counting := if String.eqb (webhookMerger.action result) "created"
                     then webhookMerger.created_incr;;
                          webhookMerger.run
                            (log (CreatedRecord (webhookMerger.callRecordId result)))
                     else if String.eqb (webhookMerger.action result) "updated"
                     then webhookMerger.updated_incr;;
                          webhookMerger.run
                            (log (UpdatedRecord (webhookMerger.callRecordId result)))
                     else mret ()).
    assert (∃ cu1 w3 counted,
              counting (cu, w2) = (Return (), (cu1, w3))
              ∧ console w3 = console w2 ++ counted
              ∧ Spec.attempted counted = []
              ∧ (cu1.1 + cu1.2 ≤ cu.1 + cu.2 + 1)%nat)
      as (cu1 & w3 & counted & Hcounting & Hc3 & Hcounted & Hcu1).
    { unfold counting.
      destruct (String.eqb _ "created"); [|destruct (String.eqb _ "updated")].
      - eexists _, _, [_]. split; [reflexivity|]. simpl. repeat split. lia.
      - eexists _, _, [_]. split; [reflexivity|]. simpl. repeat split. lia.
      - exists cu, w2, []. split; [reflexivity|]. rewrite app_nil_r.
        repeat split. lia. }
    set (ids := map (λ e, get e "id") (webhookMerger.sorted events)).
    pose proof (markMultipleAsProcessed_keeps console ids
                  (webhookMerger.callRecordId result) console_faults
                  (console_set_rows WebhookEvents) w3) as Hc4.
    destruct (webhookEventService.markMultipleAsProcessed ids
                (webhookMerger.callRecordId result) w3) as [[marked|e] w4] eqn:Emark;
      simpl in Hc4.
    + exists cu1, (set_console (console w4 ++ [MarkedProcessed (List.length ids)]) w4),
        (counted ++ [MarkedProcessed (List.length ids)]).
      split.
      { apply try_catch_Return.
        erewrite bind_Return; [|by apply run_eq].
        erewrite bind_Return; [|exact Hcounting].
        cbv zeta. fold ids.
        erewrite bind_Return; [|by apply run_eq]. reflexivity. }
      simpl. rewrite Hc4, Hc3, Hconsole. simpl.
      split; [by rewrite <- !app_assoc|].
      split; [by rewrite attempted_app, Hcounted|]. split; [done|].
      intros e' w2' [=].
    + exists cu1, (set_console (console w4 ++ [ErrorProcessing k (message e)]) w4),
        (counted ++ [ErrorProcessing k (message e)]).
      split.
      { rewrite (try_catch_Throw _ _ _ e (cu1, w4)); [reflexivity|].
        erewrite bind_Return; [|by apply run_eq].
        erewrite bind_Return; [|exact Hcounting].
        cbv zeta. fold ids.
        apply bind_Throw. by apply run_eq. }
      simpl. rewrite Hc4, Hc3, Hconsole. simpl.
      split; [by rewrite <- !app_assoc|].
      split; [by rewrite attempted_app, Hcounted|]. split; [done|].
      intros e' w2' [=].
  - (* the merge threw *)
    exists cu, (set_console (console w2 ++ [ErrorProcessing k (message e)]) w2),
      [ErrorProcessing k (message e)].
    split.
    { rewrite (try_catch_Throw _ _ _ e (cu, w2)); [reflexivity|].
      apply bind_Throw. by apply run_eq. }
    simpl. rewrite Hconsole. simpl.
    split; [by rewrite <- app_assoc|].
    split; [done|]. split; [lia|].
    intros e' w2' [= <- <-]. repeat split; [|done].
    by apply (Hcalls e w2).
Qed.

(** The loop never throws; it attempts every group, in order. *)
Lemma for_of_process_call g callIds cu w :
  ∃ cu' w',
    for_of callIds (webhookMerger.process_call g) (cu, w) = (Return (), (cu', w'))
    ∧ Spec.attempted (console w') = Spec.attempted (console w) ++ callIds
    ∧ (cu'.1 + cu'.2 ≤ cu.1 + cu.2 + List.length callIds)%nat.
Proof.
  revert cu w. induction callIds as [|k callIds IH]; intros cu w; simpl.
  - exists cu, w. split; [done|]. split; [by rewrite app_nil_r|lia].
  - destruct (process_call_step g k cu w)
      as (cu1 & w1 & lines & Hstep & Hconsole & Hlines & Hcount & _).
    destruct (IH cu1 w1) as (cu' & w' & Hloop & Hattempted & Hcount').
    exists cu', w'. split; [by erewrite bind_Return|].
    split; [|lia].
    rewrite Hattempted, Hconsole, attempted_app. simpl.
    rewrite Hlines. by rewrite <- app_assoc.
Qed.

End Pass.

(** ** Grouping *)

Lemma own_assign_eq {A} k (a : A) d : own k (assign k a d) = Some a.
Proof.
  induction d as [|[k' a'] d IH]; simpl.
  - by rewrite String.eqb_refl.
  - destruct (String.eqb k k') eqn:E; simpl; by rewrite E.
Qed.

Lemma own_assign_ne {A} k k' (a : A) d :
  k ≠ k' → own k' (assign k a d) = own k' d.
Proof.
  intros Hne. induction d as [|[k'' a''] d IH]; simpl.
  - apply String.eqb_neq in Hne. rewrite String.eqb_sym in Hne. by rewrite Hne.
  - destruct (String.eqb k k'') eqn:E; simpl.
    + apply String.eqb_eq in E as <-.
      apply String.eqb_neq in Hne. rewrite String.eqb_sym in Hne. by rewrite Hne.
    + by rewrite IH.
Qed.

Lemma assign_Forall {A} (Q : A → Prop) k a (d : dict A) :
  Q a → Forall (λ kv, Q kv.2) d → Forall (λ kv, Q kv.2) (assign k a d).
Proof.
  intros Ha. induction 1 as [|[k' a'] d Hq Hd IH]; simpl.
  - by repeat constructor.
  - destruct (String.eqb k k'); by constructor.
Qed.

Lemma own_Some_elem {A} k (a : A) d : own k d = Some a → (k, a) ∈ d.
Proof.
  induction d as [|[k' a'] d IH]; simpl; [done|].
  destruct (String.eqb k k') eqn:E.
  - apply String.eqb_eq in E as <-. intros [= ->]. by left.
  - intros Hown. right. by apply IH.
Qed.

Lemma own_is_Some {A} k (d : dict A) : k ∈ map fst d → is_Some (own k d).
Proof.
  induction d as [|[k' a'] d IH]; simpl.
  - by intros ?%elem_of_nil.
  - destruct (String.eqb k k') eqn:E; [done|].
    intros [->|Hin]%elem_of_cons; [|by apply IH].
    by rewrite String.eqb_refl in E.
Qed.

Lemma Object_keys_own {A} k (d : dict A) : k ∈ Object_keys d → k ∈ map fst d.
Proof.
  unfold Object_keys. intros [Hidx|Hrest]%elem_of_app.
  - apply list_elem_of_fmap in Hidx as ([k' n] & -> & Hin).
    rewrite Array_sort_Permutation in Hin.
    apply list_elem_of_omap in Hin as (k'' & Hk'' & Hsome).
    destruct (array_index k''); simpl in Hsome; by simplify_eq.
  - apply list_elem_of_In, filter_In in Hrest as [Hin _]. by apply list_elem_of_In.
Qed.

(** A group is never empty: it is created by the push of its first
    event and only grows. *)
Lemma push_event_nonempty g event g' :
  Forall (λ kv, kv.2 ≠ []) g →
  webhookEventService.push_event g event = inr g' →
  Forall (λ kv, kv.2 ≠ []) g'.
Proof.
  intros Hg. unfold webhookEventService.push_event.
  destruct (own _ g) as [group|].
  - intros [= <-]. apply (assign_Forall (λ l, l ≠ [])); [|done].
    by destruct group.
  - destruct (inherited _); [done|]. intros [= <-].
    by apply (assign_Forall (λ l, l ≠ [])).
Qed.

Lemma group_events_nonempty g events g' :
  Forall (λ kv, kv.2 ≠ []) g →
  webhookEventService.group_events g events = inr g' →
  Forall (λ kv, kv.2 ≠ []) g'.
Proof.
  revert g. induction events as [|event events IH]; intros g Hg; simpl.
  - by intros [= <-].
  - destruct (webhookEventService.push_event g event) as [|g1] eqn:E; [done|].
    apply IH. by eapply push_event_nonempty.
Qed.

(** No event is left out: after grouping, every event is in the group
    that its [Call ID] cell names, whatever that cell holds. *)
Lemma push_event_keeps g event g' e :
  webhookEventService.push_event g event = inr g' →
  (∃ group, own (ToString (get e "Call ID")) g = Some group ∧ e ∈ group) →
  ∃ group, own (ToString (get e "Call ID")) g' = Some group ∧ e ∈ group.
Proof.
  intros Hpush (group & Hown & Hin). unfold webhookEventService.push_event in Hpush.
  destruct (decide (ToString (get event "Call ID") = ToString (get e "Call ID")))
    as [Heq|Hne].
  - rewrite Heq, Hown in Hpush. injection Hpush as <-.
    exists (group ++ [event]). rewrite own_assign_eq. split; [done|].
    apply elem_of_app. by left.
  - exists group. split; [|done].
    destruct (own _ g); [|destruct (inherited _); [done|]];
      injection Hpush as <-; by rewrite own_assign_ne.
Qed.

Lemma push_event_enters g event g' :
  webhookEventService.push_event g event = inr g' →
  ∃ group, own (ToString (get event "Call ID")) g' = Some group ∧ event ∈ group.
Proof.
  unfold webhookEventService.push_event.
  destruct (own _ g) as [group|].
  - intros [= <-]. exists (group ++ [event]). rewrite own_assign_eq.
    split; [done|]. apply elem_of_app. right. by left.
  - destruct (inherited _); [done|]. intros [= <-].
    exists [event]. rewrite own_assign_eq. split; [done|]. by left.
Qed.

Lemma group_events_keeps g events g' e :
  webhookEventService.group_events g events = inr g' →
  (∃ group, own (ToString (get e "Call ID")) g = Some group ∧ e ∈ group) ∨ e ∈ events →
  ∃ group, own (ToString (get e "Call ID")) g' = Some group ∧ e ∈ group.
Proof.
  revert g. induction events as [|event events IH]; intros g; simpl.
  - intros [= <-] [?|?%elem_of_nil]; done.
  - destruct (webhookEventService.push_event g event) as [|g1] eqn:E; [done|].
    intros Hg' [Hin|[->|Hin]%elem_of_cons]; apply (IH g1 Hg').
    + left. by eapply push_event_keeps.
    + left. by eapply push_event_enters.
    + by right.
Qed.

Lemma group_events_single e :
  inherited (ToString (get e "Call ID")) = false →
  webhookEventService.group_events [] [e] = inr [(ToString (get e "Call ID"), [e])].
Proof. simpl. unfold webhookEventService.push_event. simpl. by intros ->. Qed.

Section Malformed.
Context `{Host}.

Lemma getEventsGroupedByCallId_keeps {X} (proj : World → X) :
  (∀ fs w, proj (set_faults fs w) = proj w) →
  Spec.keeps proj webhookEventService.getEventsGroupedByCallId.
Proof.
  intros Hp. unfold webhookEventService.getEventsGroupedByCallId.
  apply keeps_rethrow, keeps_bind; [|intros; apply keeps_lift_pure].
  apply keeps_rethrow, keeps_bind; [by apply select_keeps|intros; apply keeps_ret].
Qed.

Lemma getEventsByCallId_keeps {X} (proj : World → X) callId :
  (∀ fs w, proj (set_faults fs w) = proj w) →
  Spec.keeps proj (webhookEventService.getEventsByCallId callId).
Proof.
  intros Hp. unfold webhookEventService.getEventsByCallId.
  apply keeps_rethrow, keeps_bind; [by apply select_keeps|intros; apply keeps_ret].
Qed.

(** Grouping excludes no event, also none without a call id. *)
Lemma grouping_keeps_every_event events g e :
  webhookEventService.group_events [] events = inr g → e ∈ events →
  ∃ group, own (ToString (get e "Call ID")) g = Some group ∧ e ∈ group.
Proof. intros Hg Hin. eapply group_events_keeps; [exact Hg|by right]. Qed.

(** The Apps Script's grouping leaves such an event out. *)
Lemma appsScript_skips_missing_callId g e :
  truthy (get e "Call ID") = false → appsScript.push_event g e = inr g.
Proof. unfold appsScript.push_event. by intros ->. Qed.

(** C8 (as amended). Applied to an empty group, fact extraction raises
    a TypeError: no record is returned and [mergeCallEvents] leaves the
    world as it was. An empty group does not reach it from the callers:
    every group that grouping forms, and that the pass enumerates, holds
    at least one event, and [processSingleCall] returns [null] without
    merging when no event is found for the call id. *)
Theorem empty_group_raises :
  (∀ callId w, ∃ msg,
     webhookMerger.extractCallData [] = inl (TypeError msg)
     ∧ webhookMerger.mergeCallEvents callId [] w = (Throw (TypeError msg), w))
  ∧ (∀ events g k,
       webhookEventService.group_events [] events = inr g →
       k ∈ Object_keys g →
       ∃ group, own k g = Some group ∧ group ≠ [])
  ∧ (∀ callId w w1,
       webhookEventService.getEventsByCallId callId
         (set_console (console w ++ [ProcessingSingle callId]) w) = (Return [], w1) →
       ∃ w', webhookMerger.processSingleCall callId w = (Return None, w')
             ∧ calls w' = calls w ∧ webhookEvents w' = webhookEvents w).
Proof.
  split; [|split].
  - intros callId w. eexists. split; [reflexivity|]. reflexivity.
  - intros events g k Hg Hk.
    destruct (own_is_Some k g (Object_keys_own k g Hk)) as [group Hgroup].
    exists group. split; [done|].
    pose proof (group_events_nonempty [] events g (Forall_nil_2 _) Hg) as Hne.
    rewrite Forall_forall in Hne. by apply (Hne (k, group)), own_Some_elem.
  - intros callId w w1 Hget.
    pose proof (getEventsByCallId_keeps calls callId calls_faults
                  (set_console (console w ++ [ProcessingSingle callId]) w)) as Hc.
    pose proof (getEventsByCallId_keeps webhookEvents callId webhookEvents_faults
                  (set_console (console w ++ [ProcessingSingle callId]) w)) as He.
    rewrite Hget in Hc, He. simpl in Hc, He.
    exists (set_console (console w1 ++ [NoEventsFound]) w1). split; [|done].
    unfold webhookMerger.processSingleCall.
    erewrite bind_Return; [|reflexivity].
    erewrite bind_Return; [|exact Hget]. reflexivity.
Qed.

End Malformed.

(** C8, witness: a table with one staged event, and a call id nobody
    staged. *)
Lemma empty_group_raises_witness :
  (∃ group, own "undefined"
              [("undefined", [as_object (Row "recN1" ∅)])] = Some group ∧ group ≠ [])
  ∧ ∃ w', webhookMerger.processSingleCall "1765829443.779816" (Sample.world [] [])
          = (Return None, w')
          ∧ calls w' = [] ∧ webhookEvents w' = [].
Proof.
  destruct empty_group_raises as (_ & Hgroups & Hsingle). split.
  - apply (Hgroups [as_object (Row "recN1" ∅)]); [|by left].
    apply group_events_single. vm_compute. reflexivity.
  - apply (Hsingle "1765829443.779816" (Sample.world [] [])
             (set_console [ProcessingSingle "1765829443.779816"] (Sample.world [] []))).
    vm_compute. reflexivity.
Defined.

(** C8, counterexample: extraction returns no record for the empty
    group, Abandoned or other; it raises. *)
Lemma empty_group_returns_no_record :
  ¬ ∃ cd, webhookMerger.extractCallData [] = inr cd
          ∧ get cd "finalStatus" = Str "Abandoned".
Proof. intros (cd & Hcd & _). discriminate. Qed.

(** C9. A webhook without [callId] is staged with a blank [Call ID];
    grouping files the event under the key "undefined" and the pass
    merges that group: a call record without [TB Call ID] is created and
    the event is marked processed. Nothing on the console tells it from
    any other call. The Apps Script's grouping leaves the event out. *)
Theorem event_without_callId_is_grouped_and_merged :
  let staged := (webhookEventService.createEvent Sample.payload_without_callId
                   (Sample.world [] [])).2 in
  let events := map as_object (webhookEvents staged) in
  map (λ e, get e "Call ID") events = [undefined]
  ∧ match webhookEventService.group_events [] events with
    | inr g => map (λ kv, (kv.1, List.length kv.2)) g
    | inl _ => []
    end = [("undefined", 1%nat)]
  ∧ match appsScript.groupByCallId [] events with
    | inr g => map (λ kv, (kv.1, List.length kv.2)) g
    | inl _ => [("", 0%nat)]
    end = []
  ∧ (let merged := (webhookMerger.processUnprocessedEvents staged).2 in
     map (λ r, (id r, get (fields r) F.TB_CALL_ID, get (fields r) F.WEBHOOK_EVENTS))
         (calls merged)
     = [("rec2", undefined, Num 1)]
     ∧ map (λ r, get (fields r) "Processed") (webhookEvents merged) = [Bool true]
     ∧ console merged
       = [ Merging; FoundCalls 1; Processing "undefined" 1;
           CreatedRecord (Str "rec2"); MarkedProcessed 1; MergeComplete 1 0 ]).
Proof. cbv zeta. repeat split; vm_compute; reflexivity. Qed.

(** ** The pass and its summary *)

Section Summary.
Context `{Host}.

Lemma summary_has_no_failed_count processed created updated :
  webhookMerger.summary processed created updated !! "failed" = None.
Proof.
  unfold webhookMerger.summary.
  by rewrite !list_to_map_cons, !lookup_insert_ne, list_to_map_nil, lookup_empty.
Qed.

Lemma locals_for_of g callIds w :
  ∃ created updated w',
    webhookMerger.locals (0, 0)%nat (for_of callIds (webhookMerger.process_call g)) w
    = (Return ((), (created, updated)), w')
    ∧ Spec.attempted (console w') = Spec.attempted (console w) ++ callIds
    ∧ (created + updated ≤ List.length callIds)%nat.
Proof.
  destruct (for_of_process_call g callIds (0, 0)%nat w)
    as ([created updated] & w' & Hloop & Hattempted & Hcount).
  exists created, updated, w'. unfold webhookMerger.locals. rewrite Hloop.
  simpl in *. repeat split; [done|lia].
Qed.

(** What a pass returns once the unprocessed events were fetched and
    grouped. *)
Lemma processUnprocessedEvents_grouped w g w1 :
  webhookEventService.getEventsGroupedByCallId
    (set_console (console w ++ [Merging]) w) = (Return g, w1) →
  ∃ created updated w',
    webhookMerger.processUnprocessedEvents w
    = (Return (webhookMerger.summary (List.length (Object_keys g)) created updated), w')
    ∧ (created + updated ≤ List.length (Object_keys g))%nat
    ∧ Spec.attempted (console w') = Spec.attempted (console w) ++ Object_keys g.
Proof.
  intros Hgroup.
  pose proof (getEventsGroupedByCallId_keeps console console_faults
                (set_console (console w ++ [Merging]) w)) as Hconsole.
  rewrite Hgroup in Hconsole. simpl in Hconsole.
  assert (Spec.attempted (console w1) = Spec.attempted (console w)) as Hbefore.
  { rewrite Hconsole, attempted_app. simpl. apply app_nil_r. }
  unfold webhookMerger.processUnprocessedEvents.
  erewrite bind_Return; [|reflexivity].
  destruct (Nat.eqb (List.length (Object_keys g)) 0) eqn:Eempty.
  - apply Nat.eqb_eq in Eempty.
    exists 0%nat, 0%nat, (set_console (console w1 ++ [NothingToMerge]) w1).
    split; [|split; [lia|]].
    + apply try_catch_Return. erewrite bind_Return; [|exact Hgroup].
      cbv zeta. rewrite Eempty. simpl. reflexivity.
    + simpl. rewrite attempted_app, Hbefore. simpl.
      destruct (Object_keys g); [done|discriminate].
  - destruct (locals_for_of g (Object_keys g)
                (set_console
                   (console w1 ++ [FoundCalls (List.length (Object_keys g))]) w1))
      as (created & updated & w2 & Hloop & Hattempted & Hcount).
    exists created, updated,
      (set_console (console w2 ++ [MergeComplete created updated]) w2).
    split; [|split; [done|]].
    + apply try_catch_Return. erewrite bind_Return; [|exact Hgroup].
      cbv zeta. rewrite Eempty.
      erewrite bind_Return; [|reflexivity].
      erewrite bind_Return; [|exact Hloop]. reflexivity.
    + simpl. rewrite attempted_app, Hattempted. simpl.
      rewrite attempted_app, Hbefore. simpl. by rewrite !app_nil_r.
Qed.

End Summary.

(** * Further properties

    What the services do beyond the merge facts above: how the events
    are grouped and marked, a pass from end to end, the staging of a
    webhook, the Calls table, and the streaming handler. *)

(** ** Grouping, once more: the groups are the call ids' events *)

Lemma own_None_notin {A} k (d : dict A) : own k d = None → k ∉ map fst d.
Proof.
  intros Hown Hin. apply own_is_Some in Hin as [a Ha]. congruence.
Qed.

Lemma own_elem_NoDup {A} k (a : A) d :
  NoDup (map fst d) → (k, a) ∈ d → own k d = Some a.
Proof.
  induction d as [|[k' a'] d IH]; simpl.
  - by intros _ ?%elem_of_nil.
  - intros [Hnotin Hnd]%NoDup_cons [[= -> ->]|Hin]%elem_of_cons.
    + by rewrite String.eqb_refl.
    + destruct (String.eqb k k') eqn:E; [|by apply IH].
      apply String.eqb_eq in E as ->. destruct Hnotin.
      apply list_elem_of_fmap. by exists (k', a).
Qed.

Lemma map_fst_assign_Some {A} k (a b : A) d :
  own k d = Some b → map fst (assign k a d) = map fst d.
Proof.
  induction d as [|[k' a'] d IH]; simpl; [done|].
  destruct (String.eqb k k') eqn:E; simpl; [done|].
  intros Hown. by rewrite IH.
Qed.

Lemma map_fst_assign_None {A} k (a : A) d :
  own k d = None → map fst (assign k a d) = map fst d ++ [k].
Proof.
  induction d as [|[k' a'] d IH]; simpl; [done|].
  destruct (String.eqb k k') eqn:E; simpl; [done|].
  intros Hown. by rewrite IH.
Qed.

Lemma of_call_snoc k events e :
  Notions.of_call k (events ++ [e])
  = Notions.of_call k events ++ (if String.eqb (Notions.key e) k then [e] else []).
Proof. unfold Notions.of_call. rewrite List.filter_app. simpl. by destruct (String.eqb _ _). Qed.

(** What the dictionary holds after the events [seen]: one own
    property per call id that occurred, holding that call's events in
    their order; no name of [Object.prototype] among them. *)
Lemma push_event_grouped seen g e :
  NoDup (map fst g) →
  Forall (λ k, inherited k = false) (map fst g) →
  (∀ k, own k g = match Notions.of_call k seen with [] => None | l => Some l end) →
  if inherited (Notions.key e)
  then webhookEventService.push_event g e
       = inl (TypeError "grouped[callId].push is not a function")
  else ∃ g', webhookEventService.push_event g e = inr g'
       ∧ NoDup (map fst g')
       ∧ Forall (λ k, inherited k = false) (map fst g')
       ∧ (∀ k, own k g'
               = match Notions.of_call k (seen ++ [e]) with [] => None | l => Some l end).
Proof.
  intros Hnd Hplain Hown. unfold webhookEventService.push_event.
  fold (Notions.key e).
  destruct (inherited (Notions.key e)) eqn:Hinh.
  - destruct (own (Notions.key e) g) as [group|] eqn:Hg; [|done].
    apply own_Some_elem in Hg.
    assert (Notions.key e ∈ map fst g) as Hin.
    { apply list_elem_of_fmap. by exists (Notions.key e, group). }
    rewrite Forall_forall in Hplain. apply Hplain in Hin. congruence.
  - destruct (own (Notions.key e) g) as [group|] eqn:Hg.
    + eexists. split; [done|]. rewrite (map_fst_assign_Some _ _ group) by done.
      repeat split; [done..|]. intros k. rewrite of_call_snoc.
      destruct (String.eqb (Notions.key e) k) eqn:E.
      * apply String.eqb_eq in E as <-. rewrite own_assign_eq.
        rewrite Hown in Hg. destruct (Notions.of_call _ seen); by simplify_eq.
      * apply String.eqb_neq in E. rewrite own_assign_ne by done.
        by rewrite app_nil_r.
    + eexists. split; [done|]. rewrite map_fst_assign_None by done.
      split; [|split].
      * apply NoDup_app. split; [done|]. split; [|apply NoDup_singleton].
        intros k Hin ->%list_elem_of_singleton. by apply own_None_notin in Hg.
      * apply Forall_app. split; [done|]. by constructor.
      * intros k. rewrite of_call_snoc.
        destruct (String.eqb (Notions.key e) k) eqn:E.
        -- apply String.eqb_eq in E as <-. rewrite own_assign_eq.
           rewrite Hown in Hg. by destruct (Notions.of_call _ seen).
        -- apply String.eqb_neq in E. rewrite own_assign_ne by done.
           by rewrite app_nil_r.
Qed.

Lemma group_events_grouped seen g events :
  NoDup (map fst g) →
  Forall (λ k, inherited k = false) (map fst g) →
  (∀ k, own k g = match Notions.of_call k seen with [] => None | l => Some l end) →
  (Forall (λ e, inherited (Notions.key e) = false) events →
   ∃ g', webhookEventService.group_events g events = inr g'
     ∧ NoDup (map fst g')
     ∧ (∀ k, own k g'
             = match Notions.of_call k (seen ++ events) with [] => None | l => Some l end))
  ∧ (Exists (λ e, inherited (Notions.key e) = true) events →
     webhookEventService.group_events g events
     = inl (TypeError "grouped[callId].push is not a function")).
Proof.
  revert seen g. induction events as [|e events IH]; intros seen g Hnd Hplain Hown.
  - split.
    + intros _. exists g. by rewrite app_nil_r.
    + by intros ?%Exists_nil.
  - pose proof (push_event_grouped seen g e Hnd Hplain Hown) as Hpush. simpl.
    destruct (inherited (Notions.key e)) eqn:Hinh.
    + rewrite Hpush. split; [|done].
      intros [??]%Forall_cons. congruence.
    + destruct Hpush as (g1 & -> & Hnd1 & Hplain1 & Hown1).
      destruct (IH (seen ++ [e]) g1 Hnd1 Hplain1 Hown1) as [IHok IHfail].
      rewrite <- app_assoc in IHok. simpl in IHok. split.
      * intros [_ ?]%Forall_cons. by apply IHok.
      * intros [?|?]%Exists_cons; [congruence|]. by apply IHfail.
Qed.

(** The groups are the call ids' events. *)
Lemma group_events_own (events : list (gmap string value)) :
  Forall (λ e, inherited (Notions.key e) = false) events →
  ∃ g, webhookEventService.group_events [] events = inr g
  ∧ NoDup (map fst g)
  ∧ (∀ k, own k g = match Notions.of_call k events with [] => None | l => Some l end).
Proof.
  intros Hplain.
  destruct (group_events_grouped [] [] events) as [Hok _];
    [apply NoDup_nil_2 | apply Forall_nil_2 | done |].
  by apply Hok.
Qed.

Lemma grouped_elem events (g : dict (list (gmap string value))) k group :
  NoDup (map fst g) →
  (∀ k, own k g = match Notions.of_call k events with [] => None | l => Some l end) →
  (k, group) ∈ g ↔ group = Notions.of_call k events ∧ group ≠ [].
Proof.
  intros Hnd Hown. split.
  - intros Hin%(own_elem_NoDup _ _ _ Hnd). rewrite Hown in Hin.
    destruct (Notions.of_call k events); by simplify_eq.
  - intros [-> Hne]. apply own_Some_elem. rewrite Hown.
    by destruct (Notions.of_call k events).
Qed.

Lemma grouped_event events (g : dict (list (gmap string value))) e :
  NoDup (map fst g) →
  (∀ k, own k g = match Notions.of_call k events with [] => None | l => Some l end) →
  e ∈ events →
  ∃ group, (Notions.key e, group) ∈ g ∧ e ∈ group.
Proof.
  intros Hnd Hown He. exists (Notions.of_call (Notions.key e) events).
  assert (e ∈ Notions.of_call (Notions.key e) events) as Hin.
  { apply list_elem_of_In, filter_In. split; [by apply list_elem_of_In|].
    apply String.eqb_refl. }
  split; [|done]. apply (grouped_elem events); [done..|]. split; [done|].
  intros Hnil. rewrite Hnil in Hin. by apply elem_of_nil in Hin.
Qed.

(** X1 — [getEventsGroupedByCallId] splits the events it is given into
    the groups of their call ids: when no call id is the name of a
    member of [Object.prototype], the grouping returns a dictionary with
    one property per call id that occurs, and the group of a call id
    holds exactly the events of that call, in the order in which they
    were given; so no event is lost, doubled or put under another call,
    and no group is empty. *)
Theorem grouping_partitions_the_events (events : list (gmap string value)) :
  Forall (λ e, inherited (Notions.key e) = false) events →
  ∃ g, webhookEventService.group_events [] events = inr g
  ∧ NoDup (map fst g)
  ∧ (∀ k group, (k, group) ∈ g ↔ group = Notions.of_call k events ∧ group ≠ [])
  ∧ (∀ e, e ∈ events → ∃ group, (Notions.key e, group) ∈ g ∧ e ∈ group).
Proof.
  intros Hplain.
  destruct (group_events_own events Hplain) as (g & Hg & Hnd & Hown).
  exists g. split; [exact Hg|]. split; [exact Hnd|]. split.
  - intros k group. by apply grouped_elem.
  - intros e He. by apply (grouped_event events).
Qed.

(** X1, witness: the five staged legs of two calls. *)
Lemma grouping_partitions_the_events_witness :
  let events := map as_object Sample.two_calls in
  ∃ g, webhookEventService.group_events [] events = inr g
  ∧ NoDup (map fst g)
  ∧ (∀ k group, (k, group) ∈ g ↔ group = Notions.of_call k events ∧ group ≠ [])
  ∧ (∀ e, e ∈ events → ∃ group, (Notions.key e, group) ∈ g ∧ e ∈ group).
Proof.
  apply (grouping_partitions_the_events (map as_object Sample.two_calls)).
  apply (bool_decide_unpack _). vm_compute. reflexivity.
Defined.

Section GroupingFails.
Context `{Host}.

Lemma getUnprocessedEvents_ok w :
  faults w = [] →
  webhookEventService.getUnprocessedEvents w = (Return (Notions.unprocessed_page w), w).
Proof.
  intros Hf. unfold webhookEventService.getUnprocessedEvents. apply rethrow_Return.
  unfold firstPage. erewrite bind_Return; [|by apply select_ok]. reflexivity.
Qed.

Lemma getEventsByCallId_ok callId w :
  faults w = [] →
  webhookEventService.getEventsByCallId callId w
  = (Return (Notions.call_page callId w), w).
Proof.
  intros Hf. unfold webhookEventService.getEventsByCallId. apply rethrow_Return.
  unfold firstPage. erewrite bind_Return; [|by apply select_ok]. reflexivity.
Qed.

Lemma getEventsGroupedByCallId_ok w g :
  faults w = [] →
  webhookEventService.group_events [] (Notions.unprocessed_page w) = inr g →
  webhookEventService.getEventsGroupedByCallId w = (Return g, w).
Proof.
  intros Hf Hg. unfold webhookEventService.getEventsGroupedByCallId.
  apply rethrow_Return.
  rewrite (bind_Return _ _ _ _ _ (getUnprocessedEvents_ok w Hf)).
  by rewrite Hg.
Qed.

(** X2 — A staged event whose call id is the name of a member of
    [Object.prototype] (such as [constructor] or [toString]) stops the
    whole pass: the grouping finds the inherited member where it expects
    the group, the call of [push] on it throws, and
    [processUnprocessedEvents] logs the error and throws it on, having
    written to neither table; no other call of the batch is merged. *)
Theorem call_id_naming_an_Object_member_stops_the_pass (w : World) :
  faults w = [] →
  Exists (λ e, inherited (Notions.key e) = true) (Notions.unprocessed_page w) →
  webhookEventService.group_events [] (Notions.unprocessed_page w)
  = inl (TypeError "grouped[callId].push is not a function")
  ∧ webhookMerger.processUnprocessedEvents w
    = (Throw (Error "Failed to group events: grouped[callId].push is not a function"),
       set_console
         (console w
          ++ [ Merging;
               ErrorInPass
                 "Failed to group events: grouped[callId].push is not a function" ]) w).
Proof.
  intros Hf Hex.
  destruct (group_events_grouped [] [] (Notions.unprocessed_page w)) as [_ Hfail];
    [apply NoDup_nil_2 | apply Forall_nil_2 | done |].
  specialize (Hfail Hex). split; [done|].
  unfold webhookMerger.processUnprocessedEvents.
  erewrite bind_Return; [|reflexivity].
  set (w1 := set_console (console w ++ [Merging]) w).
  assert (webhookEventService.getEventsGroupedByCallId w1
          = (Throw (Error "Failed to group events: grouped[callId].push is not a function"),
             w1)) as Hgroup.
  { unfold webhookEventService.getEventsGroupedByCallId.
    rewrite (rethrow_Throw _ _ _ (TypeError "grouped[callId].push is not a function") w1);
      [reflexivity|].
    rewrite (bind_Return _ _ _ _ _ (getUnprocessedEvents_ok w1 Hf)).
    change (Notions.unprocessed_page w1) with (Notions.unprocessed_page w).
    by rewrite Hfail. }
  erewrite try_catch_Throw; [|by apply bind_Throw].
  subst w1. clear. destruct w.
  erewrite bind_Return; [|reflexivity]. unfold throw, set_console. cbn.
  by rewrite <- app_assoc.
Qed.

End GroupingFails.

(** X2, witness: one staged leg of a call whose id is [constructor]. *)
Lemma call_id_naming_an_Object_member_stops_the_pass_witness :
  let w := Sample.world
             [Row "recP1" (list_to_map [ ("Call ID", Str "constructor");
                                         ("Status", Str "ringing") ])] [] in
  webhookEventService.group_events [] (Notions.unprocessed_page w)
  = inl (TypeError "grouped[callId].push is not a function")
  ∧ webhookMerger.processUnprocessedEvents w
    = (Throw (Error "Failed to group events: grouped[callId].push is not a function"),
       set_console
         (console w
          ++ [ Merging;
               ErrorInPass
                 "Failed to group events: grouped[callId].push is not a function" ]) w).
Proof.
  apply (call_id_naming_an_Object_member_stops_the_pass
           (Sample.world
              [Row "recP1" (list_to_map [ ("Call ID", Str "constructor");
                                          ("Status", Str "ringing") ])] [])).
  - reflexivity.
  - apply (bool_decide_unpack _). vm_compute. reflexivity.
Defined.

(** X3 — The Apps Script groups exactly as the service does, after
    leaving out the events whose [Call ID] is missing or blank: its
    groups are the service's groups of the events that carry a call
    id. *)
Theorem appsScript_groups_the_events_with_a_callId
    (g : dict (list (gmap string value))) (events : list (gmap string value)) :
  appsScript.groupByCallId g events
  = webhookEventService.group_events g
      (List.filter (λ e, truthy (get e "Call ID")) events).
Proof.
  revert g. induction events as [|e events IH]; intros g; simpl; [done|].
  unfold appsScript.push_event. destruct (truthy (get e "Call ID")); simpl.
  - destruct (webhookEventService.push_event g e); [done|apply IH].
  - apply IH.
Qed.

(** ** Marking events as processed *)

Lemma slices_nil {A} : webhookEventService.slices (@nil A) = [].
Proof. reflexivity. Qed.

Lemma slices_unfold {A} (l : list A) :
  l ≠ [] →
  webhookEventService.slices l = take 10 l :: webhookEventService.slices (drop 10 l).
Proof.
  intros Hne. unfold webhookEventService.slices.
  assert (((List.length l + 9) `div` 10)%nat
          = S ((List.length (drop 10 l) + 9) `div` 10)%nat) as ->.
  { rewrite length_drop. destruct l as [|x l]; [done|]. simpl List.length.
    destruct (decide (List.length l < 10)%nat) as [Hlt|Hge].
    - replace (S (List.length l) - 10)%nat with 0%nat by lia.
      change ((0 + 9) `div` 10)%nat with 0%nat.
      apply eq_sym, (Nat.div_unique _ _ _ (List.length l)); lia.
    - replace (S (List.length l) + 9)%nat
        with ((S (List.length l) - 10 + 9) + 1 * 10)%nat by lia.
      rewrite Nat.div_add by lia. lia. }
  rewrite <- cons_seq. simpl map. f_equal.
  rewrite <- fmap_S_seq, <- list_fmap_compose. apply list_fmap_ext.
  intros _ k _. simpl. rewrite drop_drop. do 2 f_equal. lia.
Qed.

Lemma slices_ind {A} (P : list A → Prop) :
  P [] →
  (∀ l, l ≠ [] → P (drop 10 l) → P l) →
  ∀ l, P l.
Proof.
  intros Hnil Hstep l.
  remember (List.length l) as n eqn:Hn. revert l Hn.
  induction (lt_wf n) as [n _ IH]. intros l ->.
  destruct l as [|x l]; [done|]. apply Hstep; [done|].
  eapply IH; [|reflexivity]. rewrite length_drop. simpl. lia.
Qed.

Lemma slices_concat {A} (l : list A) : List.concat (webhookEventService.slices l) = l.
Proof.
  induction l as [|l Hne IH] using slices_ind; [done|].
  rewrite slices_unfold by done. simpl. rewrite IH. apply take_drop.
Qed.

Lemma slices_lengths {A} (l : list A) :
  Forall (λ batch, (0 < List.length batch ≤ 10)%nat) (webhookEventService.slices l).
Proof.
  induction l as [|l Hne IH] using slices_ind; [constructor|].
  rewrite slices_unfold by done. constructor; [|done].
  rewrite length_take. destruct l; [done|]. cbn [List.length]. lia.
Qed.

Lemma slices_fmap {A B} (f : A → B) (l : list A) :
  webhookEventService.slices (map f l) = map (map f) (webhookEventService.slices l).
Proof.
  unfold webhookEventService.slices. rewrite length_map, <- list_fmap_compose.
  apply list_fmap_ext. intros _ k _. simpl.
  by rewrite <- fmap_drop, <- fmap_take.
Qed.

(** X4 — The marks are sent in batches of ten: the batches of
    [markMultipleAsProcessed], one after the other, are the list of
    updates again (every update is sent once, in its place), and each
    batch holds at least one and at most ten updates, which is what one
    Airtable request accepts. *)
Theorem marks_are_sent_in_batches_of_ten {A} (updates : list A) :
  List.concat (webhookEventService.slices updates) = updates
  ∧ Forall (λ batch, (0 < List.length batch ≤ 10)%nat)
           (webhookEventService.slices updates).
Proof. split; [apply slices_concat|apply slices_lengths]. Qed.

Lemma as_object_other r k : k ≠ "id" → as_object r !! k = fields r !! k.
Proof.
  intros Hk. unfold as_object.
  destruct (fields r !! k) eqn:E.
  - by apply lookup_union_Some_l.
  - rewrite lookup_union_r by done. by apply lookup_singleton_ne.
Qed.

Lemma processed_fields_lookup rid k :
  webhookEventService.processed_fields rid !! k
  = if String.eqb k "Processed" then Some (Bool true)
    else if String.eqb k "Merged Call Record" then Some (Arr [ToString rid])
    else None.
Proof.
  unfold webhookEventService.processed_fields.
  rewrite !list_to_map_cons, list_to_map_nil.
  destruct (String.eqb k "Processed") eqn:E1.
  { apply String.eqb_eq in E1 as ->. by rewrite lookup_insert_eq. }
  apply String.eqb_neq in E1. rewrite lookup_insert_ne by done.
  destruct (String.eqb k "Merged Call Record") eqn:E2.
  { apply String.eqb_eq in E2 as ->. by rewrite lookup_insert_eq. }
  apply String.eqb_neq in E2. by rewrite lookup_insert_ne.
Qed.

Lemma marked_fields rid r k :
  fields (Notions.marked rid r) !! k
  = if String.eqb k "Processed" then Some (Bool true)
    else if String.eqb k "Merged Call Record"
         then Some (Arr [ToString rid])
    else fields r !! k.
Proof.
  unfold Notions.marked. simpl. rewrite write_lookup, processed_fields_lookup.
  destruct (String.eqb k "Processed"); [done|].
  by destruct (String.eqb k "Merged Call Record").
Qed.

Lemma marked_idem rid r : Notions.marked rid (Notions.marked rid r) = Notions.marked rid r.
Proof.
  unfold Notions.marked at 1 3. simpl. f_equal. apply map_eq. intros k.
  rewrite !write_lookup, processed_fields_lookup.
  destruct (String.eqb k "Processed"); [done|].
  by destruct (String.eqb k "Merged Call Record").
Qed.

Lemma marked_processed rid r : Notions.processed (Notions.marked rid r) = true.
Proof. unfold Notions.processed, get. by rewrite marked_fields. Qed.

Lemma has_id_marked i rid r : has_id i (Notions.marked rid r) = has_id i r.
Proof. reflexivity. Qed.

Lemma has_id_mark i ids rid r : has_id i (Notions.mark ids rid r) = has_id i r.
Proof. unfold Notions.mark. by destruct (existsb _ ids). Qed.

Lemma id_mark ids rid r : id (Notions.mark ids rid r) = id r.
Proof. unfold Notions.mark. by destruct (existsb _ ids). Qed.

Lemma mark_app ids1 ids2 rid r :
  Notions.mark (ids1 ++ ids2) rid r = Notions.mark ids2 rid (Notions.mark ids1 rid r).
Proof.
  unfold Notions.mark. rewrite existsb_app.
  destruct (existsb _ ids1) eqn:E1; simpl.
  - change (existsb (λ i, has_id i (Notions.marked rid r)) ids2)
      with (existsb (λ i, has_id i r) ids2).
    destruct (existsb _ ids2); [by rewrite marked_idem|done].
  - done.
Qed.

Lemma mark_nil rid r : Notions.mark [] rid r = r.
Proof. reflexivity. Qed.

Lemma patch_all_mark ids rid r :
  patch_all (map (λ i, (i, webhookEventService.processed_fields rid)) ids) r
  = Notions.mark ids rid r.
Proof.
  unfold patch_all, Notions.mark. induction ids as [|i ids IH]; simpl; [done|].
  destruct (has_id i r) eqn:E; simpl; [|done].
  unfold patch. simpl. by rewrite E.
Qed.

Lemma existsb_has_id_mark i ids rid rows :
  existsb (has_id i) (map (Notions.mark ids rid) rows) = existsb (has_id i) rows.
Proof.
  induction rows as [|r rows IH]; simpl; [done|]. by rewrite has_id_mark, IH.
Qed.

Lemma set_rows_set_rows t l1 l2 w : set_rows t l2 (set_rows t l1 w) = set_rows t l2 w.
Proof. by destruct t. Qed.

Lemma rows_set_rows t l w : rows t (set_rows t l w) = l.
Proof. by destruct t. Qed.

Lemma faults_set_rows t l w : faults (set_rows t l w) = faults w.
Proof. by destruct t. Qed.

(** One request of marks that goes through. *)
Lemma update_many_marks ids rid w :
  faults w = [] → (List.length ids ≤ 10)%nat →
  Forall (λ i, existsb (has_id i) (webhookEvents w) = true) ids →
  ∃ updated,
    update_many WebhookEvents
      (map (λ i, (i, webhookEventService.processed_fields rid)) ids) w
    = (Return updated,
       set_rows WebhookEvents (map (Notions.mark ids rid) (webhookEvents w)) w).
Proof.
  intros Hf Hlen Hids. unfold update_many. rewrite request_no_faults by done.
  rewrite length_map. destruct (10 <? List.length ids)%nat eqn:E.
  { apply Nat.ltb_lt in E. lia. }
  assert (forallb (λ u : value * gmap string value,
                    existsb (has_id u.1) (rows WebhookEvents w))
            (map (λ i, (i, webhookEventService.processed_fields rid)) ids) = true) as ->.
  { apply forallb_forall. intros u (i & <- & Hi%list_elem_of_In)%in_map_iff.
    rewrite Forall_forall in Hids. by apply Hids. }
  eexists. f_equal. f_equal. apply map_ext. intros r. apply patch_all_mark.
Qed.

Lemma update_batches_marks batches rid results w :
  faults w = [] →
  Forall (λ batch, (List.length batch ≤ 10)%nat) batches →
  Forall (λ i, existsb (has_id i) (webhookEvents w) = true) (List.concat batches) →
  ∃ results',
    webhookEventService.update_batches
      (map (map (λ i, (i, webhookEventService.processed_fields rid))) batches) results w
    = (Return results',
       set_rows WebhookEvents
         (map (Notions.mark (List.concat batches) rid) (webhookEvents w)) w).
Proof.
  revert results w. induction batches as [|batch batches IH]; intros results w Hf Hlen Hids.
  - exists results. simpl. destruct w. simpl. f_equal. f_equal.
    by rewrite map_id.
  - simpl in Hids. apply Forall_app in Hids as [Hids1 Hids2].
    apply Forall_cons in Hlen as [Hlen1 Hlen2].
    destruct (update_many_marks batch rid w Hf Hlen1 Hids1) as (updated & Hupd).
    simpl. rewrite (bind_Return _ _ _ _ _ Hupd).
    destruct (IH (results ++ updated)
                (set_rows WebhookEvents (map (Notions.mark batch rid) (webhookEvents w)) w))
      as (results' & Hrest); [done|done| |].
    { simpl. eapply Forall_impl; [exact Hids2|]. intros i Hi. simpl.
      by rewrite existsb_has_id_mark. }
    exists results'. rewrite Hrest. f_equal. simpl. f_equal.
    rewrite map_map. apply map_ext. intros r. by rewrite mark_app.
Qed.

Lemma markMultipleAsProcessed_ok ids rid w :
  faults w = [] →
  Forall (λ i, existsb (has_id i) (webhookEvents w) = true) ids →
  ∃ events,
    webhookEventService.markMultipleAsProcessed ids rid w
    = (Return events,
       set_rows WebhookEvents (map (Notions.mark ids rid) (webhookEvents w)) w).
Proof.
  intros Hf Hids. unfold webhookEventService.markMultipleAsProcessed.
  rewrite slices_fmap.
  destruct (update_batches_marks (webhookEventService.slices ids) rid [] w)
    as (results & Hres); [done| | |].
  { eapply Forall_impl; [apply slices_lengths|]. simpl. lia. }
  { by rewrite slices_concat. }
  rewrite slices_concat in Hres.
  eexists. apply rethrow_Return. by rewrite (bind_Return _ _ _ _ _ Hres).
Qed.

(** X5 — When no request fails and every listed event exists,
    [markMultipleAsProcessed] returns and has marked exactly the listed
    events: each of them is now checked as processed and linked to the
    merged call record, with its other cells as they were; every other
    event of the staging table, and the Calls table, are as before. *)
Theorem markMultipleAsProcessed_marks_the_listed_events
    (ids : list value) (rid : value) (w : World) :
  faults w = [] →
  Forall (λ i, existsb (has_id i) (webhookEvents w) = true) ids →
  ∃ events w',
    webhookEventService.markMultipleAsProcessed ids rid w = (Return events, w')
    ∧ calls w' = calls w
    ∧ Forall2 (λ r r',
         id r' = id r
         ∧ if existsb (λ i, has_id i r) ids
           then get (fields r') "Processed" = Bool true
                ∧ fields r' !! "Merged Call Record"
                  = Some (Arr [ToString rid])
                ∧ (∀ k, k ≠ "Processed" → k ≠ "Merged Call Record" →
                     fields r' !! k = fields r !! k)
           else r' = r)
        (webhookEvents w) (webhookEvents w').
Proof.
  intros Hf Hids.
  destruct (markMultipleAsProcessed_ok ids rid w Hf Hids) as (events & Hm).
  eexists _, _. split; [exact Hm|]. split; [done|]. simpl.
  apply Forall2_fmap_r, Forall_Forall2_diag, Forall_forall. intros r _.
  split; [apply id_mark|]. unfold Notions.mark.
  destruct (existsb _ ids); [|done]. unfold get.
  split; [by rewrite marked_fields|]. split; [by rewrite marked_fields|].
  intros k Hk1%String.eqb_neq Hk2%String.eqb_neq. rewrite marked_fields.
  by rewrite Hk1, Hk2.
Qed.

(** X5, witness: the first two staged legs of the sample call are
    marked as merged into [rec9]. *)
Lemma markMultipleAsProcessed_marks_the_listed_events_witness :
  let w := Sample.world Sample.first_pass [] in
  let ids := [Str "recE1"; Str "recE2"] in
  ∃ events w',
    webhookEventService.markMultipleAsProcessed ids (Str "rec9") w = (Return events, w')
    ∧ calls w' = calls w
    ∧ Forall2 (λ r r',
         id r' = id r
         ∧ if existsb (λ i, has_id i r) ids
           then get (fields r') "Processed" = Bool true
                ∧ fields r' !! "Merged Call Record"
                  = Some (Arr ["rec9"])
                ∧ (∀ k, k ≠ "Processed" → k ≠ "Merged Call Record" →
                     fields r' !! k = fields r !! k)
           else r' = r)
        (webhookEvents w) (webhookEvents w').
Proof.
  apply (markMultipleAsProcessed_marks_the_listed_events
           [Str "recE1"; Str "recE2"] (Str "rec9") (Sample.world Sample.first_pass [])).
  - reflexivity.
  - apply (bool_decide_unpack _). vm_compute. reflexivity.
Defined.

Lemma untouched_or_marked_refl ids rid rows :
  Forall2 (Notions.untouched_or_marked ids rid) rows rows.
Proof. apply Forall_Forall2_diag, Forall_forall. intros r _. by left. Qed.

Lemma untouched_or_marked_trans ids rid rows1 rows2 rows3 :
  Forall2 (Notions.untouched_or_marked ids rid) rows1 rows2 →
  Forall2 (Notions.untouched_or_marked ids rid) rows2 rows3 →
  Forall2 (Notions.untouched_or_marked ids rid) rows1 rows3.
Proof.
  intros H12. revert rows3. induction H12 as [|r1 r2 l1 l2 Hr _ IH]; intros rows3 H23.
  - by apply Forall2_nil_inv_l in H23 as ->.
  - apply Forall2_cons_inv_l in H23 as (r3 & l3 & Hr' & Hl' & ->).
    constructor; [|by apply IH].
    destruct Hr as [->|[Hin ->]]; [done|].
    destruct Hr' as [->|[_ ->]]; right; split; try done.
    by rewrite marked_idem.
Qed.

Lemma untouched_or_marked_mark batch ids rid rows :
  batch ⊆ ids →
  Forall2 (Notions.untouched_or_marked ids rid) rows (map (Notions.mark batch rid) rows).
Proof.
  intros Hsub. apply Forall2_fmap_r, Forall_Forall2_diag, Forall_forall. intros r _.
  unfold Notions.mark, Notions.untouched_or_marked, compose.
  destruct (existsb (λ i, has_id i r) batch) eqn:E; [|by left].
  right. split; [|done]. apply existsb_exists in E as (i & Hi%list_elem_of_In & Hid).
  apply existsb_exists. exists i. split; [|done]. by apply list_elem_of_In, Hsub.
Qed.

(** What holds after a request, whether it fails or not. *)
Lemma request_post {A} (op : M A) (Q : World → Prop) w :
  (∀ w0, calls w0 = calls w → webhookEvents w0 = webhookEvents w →
         Q w0 ∧ Q (op w0).2) →
  Q (request op w).2.
Proof.
  intros Hop. unfold request. destruct (faults w) as [|[] fs]; simpl.
  - by apply Hop.
  - by apply (Hop (set_faults fs w)).
  - by apply (Hop (set_faults fs w)).
Qed.

(** One request of marks, whether it goes through or not. *)
Lemma update_many_touches batch ids rid w :
  batch ⊆ ids →
  let w' := (update_many WebhookEvents
               (map (λ i, (i, webhookEventService.processed_fields rid)) batch) w).2 in
  calls w' = calls w
  ∧ Forall2 (Notions.untouched_or_marked ids rid) (webhookEvents w) (webhookEvents w').
Proof.
  intros Hsub. cbv zeta. unfold update_many.
  apply (request_post _ (λ w', calls w' = calls w
           ∧ Forall2 (Notions.untouched_or_marked ids rid)
               (webhookEvents w) (webhookEvents w'))).
  intros w0 Hc He.
  assert (calls w0 = calls w
          ∧ Forall2 (Notions.untouched_or_marked ids rid)
              (webhookEvents w) (webhookEvents w0)) as Hsame.
  { rewrite He. split; [done|apply untouched_or_marked_refl]. }
  split; [done|].
  destruct (_ <? _)%nat; [done|]. destruct (forallb _ _); [|done].
  simpl. split; [done|]. rewrite He.
  erewrite map_ext; [by apply untouched_or_marked_mark|].
  intros r. apply patch_all_mark.
Qed.

Lemma update_batches_touches batches ids rid results w :
  Forall (λ batch, batch ⊆ ids) batches →
  let w' := (webhookEventService.update_batches
               (map (map (λ i, (i, webhookEventService.processed_fields rid))) batches)
               results w).2 in
  calls w' = calls w
  ∧ Forall2 (Notions.untouched_or_marked ids rid) (webhookEvents w) (webhookEvents w').
Proof.
  revert results w. induction batches as [|batch batches IH]; intros results w Hsub.
  - simpl. split; [done|apply untouched_or_marked_refl].
  - apply Forall_cons in Hsub as [Hsub1 Hsub2].
    pose proof (update_many_touches batch ids rid w Hsub1) as Hone.
    cbn [map webhookEventService.update_batches]. unfold mbind, ST_bind.
    destruct (update_many _ _ w) as [[updated|e] w1]; simpl in Hone |- *.
    + destruct Hone as [Hc1 He1].
      destruct (IH (results ++ updated) w1 Hsub2) as [Hc2 He2].
      split; [congruence|]. by eapply untouched_or_marked_trans.
    + done.
Qed.

Lemma slices_subseteq {A} (l : list A) :
  Forall (λ batch, batch ⊆ l) (webhookEventService.slices l).
Proof.
  apply Forall_forall. intros batch Hin x Hx.
  rewrite <- (slices_concat l). apply list_elem_of_In, in_concat.
  exists batch. by split; apply list_elem_of_In.
Qed.

Lemma markMultipleAsProcessed_touches ids rid w :
  let w' := (webhookEventService.markMultipleAsProcessed ids rid w).2 in
  calls w' = calls w
  ∧ Forall2 (Notions.untouched_or_marked ids rid) (webhookEvents w) (webhookEvents w').
Proof.
  unfold webhookEventService.markMultipleAsProcessed. rewrite slices_fmap.
  pose proof (update_batches_touches (webhookEventService.slices ids) ids rid [] w
                (slices_subseteq ids)) as Hb.
  unfold rethrow, try_catch, mbind, ST_bind.
  destruct (webhookEventService.update_batches _ _ w) as [[results|e] w1]; by simpl in *.
Qed.

(** X6 — Whatever happens to its requests, also when one of them fails
    after earlier batches were written, [markMultipleAsProcessed]
    leaves the Calls table alone and changes the staging table only by
    marking listed events: no row is added, removed or moved, a row
    whose id is not in the list is exactly as before, every row is
    either as before or marked as merged into the given call record,
    and a row that was processed before is processed afterwards. *)
Theorem marking_touches_only_the_listed_events
    (ids : list value) (rid : value) (w : World) :
  let w' := (webhookEventService.markMultipleAsProcessed ids rid w).2 in
  calls w' = calls w
  ∧ Forall2 (λ r r',
       id r' = id r
       ∧ (r' = r ∨ r' = Notions.marked rid r)
       ∧ (existsb (λ i, has_id i r) ids = false → r' = r)
       ∧ (Notions.processed r = true → Notions.processed r' = true))
      (webhookEvents w) (webhookEvents w').
Proof.
  destruct (markMultipleAsProcessed_touches ids rid w) as [Hc He].
  split; [done|]. eapply Forall2_impl; [exact He|].
  intros r r' [->|[Hin ->]].
  - repeat split; try done. by left.
  - repeat split; try done.
    + by right.
    + congruence.
    + intros _. apply marked_processed.
Qed.

(** ** Marking one event *)

(** X24 — [markAsProcessed] marks the one event or nothing. It never
    touches the Calls table. If it returns, an event with the given id
    existed, the staging table differs from the old one only in that
    this event is marked as processed and linked to the call record,
    and the returned event shows [Processed] as checked. If it
    throws, the staging table is as before, and either the request
    failed or no event had the id. *)
Theorem markAsProcessed_marks_the_event_or_nothing
    (eventRecordId mergedCallRecordId : value) (w : World) :
  let w' := (webhookEventService.markAsProcessed eventRecordId mergedCallRecordId w).2 in
  calls w' = calls w
  ∧ match (webhookEventService.markAsProcessed eventRecordId mergedCallRecordId w).1 with
    | Return event =>
        Exists (λ r, has_id eventRecordId r = true) (webhookEvents w)
        ∧ webhookEvents w'
          = map (Notions.mark [eventRecordId] mergedCallRecordId) (webhookEvents w)
        ∧ get event "Processed" = Bool true
        ∧ get event "Merged Call Record" = Arr [ToString mergedCallRecordId]
    | Throw error =>
        webhookEvents w' = webhookEvents w
        ∧ (head (faults w) = Some true
           ∨ Forall (λ r, has_id eventRecordId r = false) (webhookEvents w))
    end.
Proof.
  cbv zeta.
  assert (Hmark : ∀ r, patch eventRecordId
                         (webhookEventService.processed_fields mergedCallRecordId) r
                       = Notions.mark [eventRecordId] mergedCallRecordId r).
  { intros r. unfold patch, Notions.mark. simpl. by rewrite orb_false_r. }
  assert (Hevent : ∀ r, has_id eventRecordId r = true →
            get (as_object (patch eventRecordId
                              (webhookEventService.processed_fields mergedCallRecordId) r))
                "Processed" = Bool true
            ∧ get (as_object (patch eventRecordId
                                (webhookEventService.processed_fields mergedCallRecordId) r))
                  "Merged Call Record" = Arr [ToString mergedCallRecordId]).
  { intros r Hr. rewrite Hmark. unfold Notions.mark. simpl. rewrite Hr. simpl.
    unfold get. rewrite !as_object_other by done. by rewrite !marked_fields. }
  unfold webhookEventService.markAsProcessed, rethrow, try_catch, mbind, ST_bind,
    update, request.
  destruct w as [cs es n nw fs c]. destruct fs as [|[] fs];
    cbn [faults set_faults rows webhookEvents webhookEventService.WEBHOOK_EVENTS_TABLE].
  - destruct (List.find (has_id eventRecordId) es) as [r|] eqn:E; cbn.
    + split; [done|]. split; [apply find_is_Some_Exists; by rewrite E|].
      split; [by apply map_ext|]. apply Hevent. by apply find_some in E as [_ ?].
    + split; [done|]. split; [done|]. right. by apply find_None_Forall.
  - cbn. split; [done|]. split; [done|]. by left.
  - destruct (List.find (has_id eventRecordId) es) as [r|] eqn:E; cbn.
    + split; [done|]. split; [apply find_is_Some_Exists; by rewrite E|].
      split; [by apply map_ext|]. apply Hevent. by apply find_some in E as [_ ?].
    + split; [done|]. split; [done|]. right. by apply find_None_Forall.
Qed.

(** ** A pass in which no request fails *)

Lemma Object_keys_Permutation {A} (d : dict A) : Object_keys d ≡ₚ map fst d.
Proof.
  unfold Object_keys. generalize (map fst d) as ks. intros ks.
  rewrite Array_sort_Permutation.
  induction ks as [|k ks IH]; simpl; [done|].
  destruct (array_index k) eqn:E; simpl.
  - by rewrite IH.
  - rewrite <- Permutation_middle. by rewrite IH.
Qed.

Lemma fieldsToUpdate_no_id data : callService.fieldsToUpdate data !! "id" = None.
Proof.
  unfold callService.fieldsToUpdate. rewrite run_lines_other; [done|].
  apply (bool_decide_unpack _). vm_compute. reflexivity.
Qed.

Lemma has_id_own r : has_id (Str (id r)) r = true.
Proof. unfold has_id. simpl. apply String.eqb_refl. Qed.

Lemma existsb_has_id_elem r rows : r ∈ rows → existsb (has_id (Str (id r))) rows = true.
Proof.
  intros Hin. apply existsb_exists. exists r.
  split; [by apply list_elem_of_In|apply has_id_own].
Qed.

Lemma failed_app c1 c2 :
  Spec.failed (c1 ++ c2) = Spec.failed c1 ++ Spec.failed c2.
Proof. apply omap_app. Qed.

Section CleanPass.
Context `{Host}.

Lemma mergeCallEvents_clean callId events w :
  faults w = [] → events ≠ [] → Forall Notions.plain (calls w) →
  ∃ result w2,
    webhookMerger.mergeCallEvents callId events w = (Return result, w2)
    ∧ webhookMerger.extractCallData (webhookMerger.sorted events)
      = inr (webhookMerger.callData result)
    ∧ faults w2 = [] ∧ Forall Notions.plain (calls w2)
    ∧ webhookEvents w2 = webhookEvents w
    ∧ ((webhookMerger.action result = "created"
        ∧ List.length (calls w2) = S (List.length (calls w)))
       ∨ (webhookMerger.action result = "updated"
          ∧ List.length (calls w2) = List.length (calls w))).
Proof.
  intros Hf Hne Hplain.
  destruct (mergeCallEvents_ok callId events w Hf Hne Hplain) as (cd & Hcd & Hm).
  destruct (matching callId w) as [|r0 rs].
  - eexists _, _. split; [exact Hm|]. simpl. split; [done|]. split; [done|]. split.
    { apply Forall_app. split; [done|]. constructor; [|done].
      apply created_record_has_no_id_column. }
    split; [done|]. left. split; [done|]. rewrite length_app. simpl. lia.
  - destruct Hm as (r & _ & Hm). eexists _, _. split; [exact Hm|]. simpl.
    split; [done|]. split; [done|]. split.
    { apply Forall_forall. intros r' (r1 & -> & Hr1)%list_elem_of_fmap.
      unfold Notions.plain. rewrite patch_keeps by apply fieldsToUpdate_no_id.
      rewrite Forall_forall in Hplain. by apply Hplain. }
    split; [done|]. right. split; [done|]. by rewrite length_map.
Qed.

(** One turn of the loop when no request fails: the call is merged,
    counted once, and the events of its group are marked. *)
Lemma process_call_clean g k cu w group :
  own k g = Some group → group ≠ [] →
  faults w = [] → Forall Notions.plain (calls w) →
  Forall (λ e, existsb (has_id (get e "id")) (webhookEvents w) = true) group →
  ∃ cu' w' rid,
    webhookMerger.process_call g k (cu, w) = (Return (), (cu', w'))
    ∧ faults w' = [] ∧ Forall Notions.plain (calls w')
    ∧ (cu'.1 + cu'.2 = S (cu.1 + cu.2))%nat
    ∧ (List.length (calls w') + cu.1 = List.length (calls w) + cu'.1)%nat
    ∧ webhookEvents w'
      = map (Notions.mark (map (λ e, get e "id") (webhookMerger.sorted group)) rid)
            (webhookEvents w)
    ∧ Spec.failed (console w') = Spec.failed (console w).
Proof.
  intros Hown Hne Hf Hplain Hids.
  unfold webhookMerger.process_call. rewrite Hown. cbn [default].
  erewrite bind_Return; [|reflexivity].
  set (w1 := set_console (console w ++ [Processing k (List.length group)]) w).
  destruct (mergeCallEvents_clean k group w1) as (result & w2 & Hm & _ & Hf2 & Hplain2 & He2 & Hact);
    [done..|].
  pose proof (mergeCallEvents_keeps console k group console_faults
                (console_set_rows Calls) (λ _ _, eq_refl) w1) as Hconsole.
  rewrite Hm in Hconsole. cbn [snd] in Hconsole.
  set (ids := map (λ e, get e "id") (webhookMerger.sorted group)).
  set (rid := webhookMerger.callRecordId result).
  assert (∃ cu1 w3,
            (if String.eqb (webhookMerger.action result) "created"
             then webhookMerger.created_incr;;
                  webhookMerger.run (log (CreatedRecord rid))
             else if String.eqb (webhookMerger.action result) "updated"
             then webhookMerger.updated_incr;;
                  webhookMerger.run (log (UpdatedRecord rid))
             else mret ()) (cu, w2) = (Return (), (cu1, w3))
            ∧ faults w3 = [] ∧ calls w3 = calls w2 ∧ webhookEvents w3 = webhookEvents w2
            ∧ (cu1.1 + cu1.2 = S (cu.1 + cu.2))%nat
            ∧ (List.length (calls w2) + cu.1 = List.length (calls w) + cu1.1)%nat
            ∧ Spec.failed (console w3) = Spec.failed (console w2))
    as (cu1 & w3 & Hcount & Hf3 & Hc3 & He3 & Hcu & Hlen & Hfailed3).
  { destruct Hact as [[-> Hl]|[-> Hl]]; simpl String.eqb; cbv iota.
    - eexists _, _. split; [reflexivity|]. simpl.
      change (calls w1) with (calls w) in Hl.
      rewrite failed_app, app_nil_r. repeat split; try done; lia.
    - eexists _, _. split; [reflexivity|]. simpl.
      change (calls w1) with (calls w) in Hl.
      rewrite failed_app, app_nil_r. repeat split; try done; lia. }
  destruct (markMultipleAsProcessed_ok ids rid w3 Hf3) as (marked & Hmark).
  { rewrite He3, He2. subst ids. apply Forall_forall.
    intros i (e & -> & He)%list_elem_of_fmap.
    unfold webhookMerger.sorted in He. rewrite Array_sort_Permutation in He.
    rewrite Forall_forall in Hids. by apply Hids. }
  eexists cu1, _, rid. split.
  { apply try_catch_Return.
    erewrite bind_Return; [|by apply run_eq].
    erewrite bind_Return; [|exact Hcount].
    cbv zeta. fold ids. fold rid.
    erewrite bind_Return; [|by apply run_eq]. reflexivity. }
  simpl. rewrite Hc3, He3, He2. do 5 (split; [done|]).
  rewrite failed_app, app_nil_r, Hfailed3, Hconsole.
  subst w1. cbn [console set_console]. by rewrite failed_app, app_nil_r.
Qed.

(** The rows of the staging table after the groups [ks] were merged. *)
Lemma for_of_process_call_clean g ks cu w :
  faults w = [] → Forall Notions.plain (calls w) →
  Forall (λ k, ∃ group, own k g = Some group ∧ group ≠ []
               ∧ Forall (λ e, existsb (has_id (get e "id")) (webhookEvents w) = true)
                        group) ks →
  ∃ cu' w',
    for_of ks (webhookMerger.process_call g) (cu, w) = (Return (), (cu', w'))
    ∧ faults w' = [] ∧ Forall Notions.plain (calls w')
    ∧ (cu'.1 + cu'.2 = cu.1 + cu.2 + List.length ks)%nat
    ∧ (List.length (calls w') + cu.1 = List.length (calls w) + cu'.1)%nat
    ∧ Forall2 (λ r r',
         id r' = id r
         ∧ (Notions.processed r = true → Notions.processed r' = true)
         ∧ (∀ k e, k ∈ ks → e ∈ default [] (own k g) →
              has_id (get e "id") r = true → Notions.processed r' = true)
         ∧ ((∀ k e, k ∈ ks → e ∈ default [] (own k g) →
               has_id (get e "id") r = false) → r' = r))
        (webhookEvents w) (webhookEvents w')
    ∧ Spec.failed (console w') = Spec.failed (console w).
Proof.
  revert cu w. induction ks as [|k ks IH]; intros cu w Hf Hplain Hgroups.
  - exists cu, w. split; [done|]. do 4 (split; [done || lia|]). split; [|done].
    apply Forall_Forall2_diag, Forall_forall. intros r _. repeat split; [done|].
    by intros k e ?%elem_of_nil.
  - apply Forall_cons in Hgroups as [(group & Hown & Hne & Hids) Hrest].
    destruct (process_call_clean g k cu w group Hown Hne Hf Hplain Hids)
      as (cu1 & w1 & rid & Hstep & Hf1 & Hplain1 & Hcu1 & Hlen1 & He1 & Hfailed1).
    destruct (IH cu1 w1 Hf1 Hplain1)
      as (cu' & w' & Hloop & Hf' & Hplain' & Hcu' & Hlen' & He' & Hfailed').
    { eapply Forall_impl; [exact Hrest|]. intros k' (group' & ? & ? & Hids').
      exists group'. repeat split; [done..|].
      eapply Forall_impl; [exact Hids'|]. intros e He. simpl in *.
      by rewrite He1, existsb_has_id_mark. }
    exists cu', w'. split; [simpl; by erewrite bind_Return|].
    do 4 (split; [done || (simpl; lia)|]). split; [|by rewrite Hfailed'].
    rewrite He1 in He'. apply Forall2_fmap_l in He'.
    eapply Forall2_impl; [exact He'|].
    intros r r' (Hid & Hproc & Hmarked & Hrest'). simpl in *.
    rewrite id_mark in Hid. split; [done|]. split; [|split].
    + intros Hr. apply Hproc. unfold Notions.mark.
      destruct (existsb _ _); [apply marked_processed|done].
    + intros k' e [->|Hin]%elem_of_cons He Hhas.
      * apply Hproc. rewrite Hown in He. simpl in He. unfold Notions.mark.
        assert (existsb (λ i, has_id i r)
                  (map (λ e, get e "id") (webhookMerger.sorted group)) = true) as ->.
        { apply existsb_exists. exists (get e "id"). split; [|done].
          apply in_map_iff. exists e. split; [done|]. apply list_elem_of_In.
          unfold webhookMerger.sorted. by rewrite Array_sort_Permutation. }
        apply marked_processed.
      * apply (Hmarked k' e Hin He). by rewrite has_id_mark.
    + intros Hnone.
      assert (Notions.mark (map (λ e, get e "id") (webhookMerger.sorted group)) rid r = r)
        as Hr.
      { unfold Notions.mark.
        destruct (existsb _ _) eqn:Ex; [|done]. exfalso.
        apply existsb_exists in Ex as (i & (e & <- & He)%in_map_iff & Hhas).
        apply list_elem_of_In in He. unfold webhookMerger.sorted in He.
        rewrite Array_sort_Permutation in He.
        rewrite (Hnone k e) in Hhas; [done|by left|by rewrite Hown]. }
      rewrite Hrest'; [done|]. intros k' e Hin He. rewrite Hr.
      apply (Hnone k' e); [by right|done].
Qed.

(** A pass over a staging table without unprocessed events. *)
Lemma pass_over_processed_events w :
  faults w = [] →
  Forall (λ r, Notions.processed r = true) (webhookEvents w) →
  webhookMerger.processUnprocessedEvents w
  = (Return (webhookMerger.summary 0 0 0),
     set_console (console w ++ [Merging; NothingToMerge]) w).
Proof.
  intros Hf Hall.
  assert (Notions.unprocessed_page w = []) as Hpage.
  { unfold Notions.unprocessed_page.
    assert (List.filter (formula_false "Processed") (webhookEvents w) = []) as ->.
    { induction Hall as [|r rows Hr _ IH]; simpl; [done|].
      unfold formula_false. unfold Notions.processed in Hr. by rewrite Hr. }
    pose proof (airtable_sort_perm "Received At" asc []) as Hp.
    apply Permutation_nil_r in Hp. by rewrite Hp. }
  unfold webhookMerger.processUnprocessedEvents.
  erewrite bind_Return; [|reflexivity].
  set (w1 := set_console (console w ++ [Merging]) w).
  erewrite try_catch_Return; [reflexivity|].
  erewrite bind_Return.
  2:{ apply (getEventsGroupedByCallId_ok w1 []); [done|].
      change (Notions.unprocessed_page w1) with (Notions.unprocessed_page w).
      by rewrite Hpage. }
  cbv zeta. change (Object_keys (@nil (string * list (gmap string value)))) with (@nil string).
  cbn [List.length Nat.eqb].
  erewrite bind_Return; [|reflexivity].
  subst w1. destruct w. unfold mret, ST_ret, set_console. cbn.
  by rewrite <- app_assoc.
Qed.

(** X7 — A pass in which no request fails consumes the whole batch, and
    the pass after it finds nothing to do. If the staging table holds at
    most a page (100) of unprocessed events, no call id is the name of a
    member of [Object.prototype], and no table has a column called
    [id], then [processUnprocessedEvents] returns a summary whose
    [processed] is the number of call ids of the batch and whose
    [created] and [updated] add up to it; it appends [created] records
    to the Calls table; it leaves every event of the staging table
    processed, without adding or removing one; and a second pass,
    started in the state the first one left, returns the summary
    [0, 0, 0] and writes nothing but two lines to the console. *)
Theorem a_clean_pass_consumes_the_batch (w : World) :
  faults w = [] →
  Forall Notions.plain (calls w) →
  Forall Notions.plain (webhookEvents w) →
  Forall (λ e, inherited (Notions.key e) = false) (Notions.unprocessed_page w) →
  (List.length (List.filter (formula_false "Processed") (webhookEvents w)) ≤ 100)%nat →
  ∃ g created updated w',
    webhookEventService.group_events [] (Notions.unprocessed_page w) = inr g
    ∧ webhookMerger.processUnprocessedEvents w
      = (Return (webhookMerger.summary (List.length g) created updated), w')
    ∧ (created + updated = List.length g)%nat
    ∧ List.length (calls w') = (List.length (calls w) + created)%nat
    ∧ map id (webhookEvents w') = map id (webhookEvents w)
    ∧ Forall (λ r, Notions.processed r = true) (webhookEvents w')
    ∧ webhookMerger.processUnprocessedEvents w'
      = (Return (webhookMerger.summary 0 0 0),
         set_console (console w' ++ [Merging; NothingToMerge]) w').
Proof.
  intros Hf Hplain Hplain_events Hkeys Hpage.
  destruct (group_events_own _ Hkeys) as (g & Hg & Hnd & Hown).
  pose proof (λ k group, grouped_elem _ g k group Hnd Hown) as Hgroups.
  pose proof (λ e, grouped_event _ g e Hnd Hown) as Hall.
  exists g.
  set (w1 := set_console (console w ++ [Merging]) w).
  assert (webhookEventService.getEventsGroupedByCallId w1 = (Return g, w1)) as Hgrouped.
  { by apply getEventsGroupedByCallId_ok. }
  (* every event of the page is a row of the table, under its id *)
  assert (Hrows : ∀ e, e ∈ Notions.unprocessed_page w →
            ∃ r, r ∈ webhookEvents w ∧ e = as_object r ∧ get e "id" = Str (id r)).
  { intros e (r & -> & Hr)%list_elem_of_fmap.
    apply elem_of_take in Hr as (i & Hr%list_elem_of_lookup_2 & _).
    rewrite airtable_sort_perm in Hr.
    apply list_elem_of_In, filter_In in Hr as [Hr%list_elem_of_In _].
    exists r. split; [done|]. split; [done|]. apply as_object_id.
    rewrite Forall_forall in Hplain_events. by apply Hplain_events. }
  assert (Hks : Forall (λ k, ∃ group, own k g = Some group ∧ group ≠ []
                   ∧ Forall (λ e, existsb (has_id (get e "id")) (webhookEvents w) = true)
                            group) (Object_keys g)).
  { apply Forall_forall. intros k Hk. rewrite Object_keys_Permutation in Hk.
    apply list_elem_of_fmap in Hk as ([k' group] & -> & Hin). simpl.
    exists group. split; [by apply own_elem_NoDup|].
    apply Hgroups in Hin as [-> Hne]. split; [done|].
    apply Forall_forall. intros e He.
    apply list_elem_of_In, filter_In in He as [He%list_elem_of_In _].
    destruct (Hrows e He) as (r & Hr & _ & ->). by apply existsb_has_id_elem. }
  assert (Hlen : List.length (Object_keys g) = List.length g).
  { by rewrite Object_keys_Permutation, length_map. }
  destruct (Nat.eqb (List.length (Object_keys g)) 0) eqn:Eempty.
  - (* nothing to merge *)
    apply Nat.eqb_eq in Eempty.
    assert (Forall (λ r, Notions.processed r = true) (webhookEvents w)) as Hdone.
    { apply Forall_forall. intros r Hr.
      destruct (Notions.processed r) eqn:Hp; [done|]. exfalso.
      assert (as_object r ∈ Notions.unprocessed_page w) as Hin.
      { apply list_elem_of_fmap. exists r. split; [done|].
        rewrite take_ge by (by rewrite airtable_sort_perm).
        rewrite airtable_sort_perm. apply list_elem_of_In, filter_In.
        split; [by apply list_elem_of_In|].
        unfold formula_false. unfold Notions.processed in Hp. by rewrite Hp. }
      destruct (Hall _ Hin) as (group & Hgin & _).
      rewrite Eempty in Hlen. destruct g; [by apply elem_of_nil in Hgin|done]. }
    exists 0%nat, 0%nat, (set_console (console w ++ [Merging; NothingToMerge]) w).
    split; [done|]. rewrite <- Hlen, Eempty.
    split; [by apply pass_over_processed_events|].
    split; [done|]. split; [simpl; lia|]. split; [done|]. split; [done|].
    by apply pass_over_processed_events.
  - set (w2 := set_console (console w1 ++ [FoundCalls (List.length (Object_keys g))]) w1).
    destruct (for_of_process_call_clean g (Object_keys g) (0, 0)%nat w2)
      as ([created updated] & w3 & Hloop & Hf3 & Hplain3 & Hcu & Hcalls & Hevents & _);
      [done..|].
    simpl in Hcu, Hcalls.
    set (w4 := set_console (console w3 ++ [MergeComplete created updated]) w3).
    assert (Forall (λ r, Notions.processed r = true) (webhookEvents w4)) as Hdone.
    { change (webhookEvents w4) with (webhookEvents w3).
      change (webhookEvents w2) with (webhookEvents w) in Hevents.
      apply Forall_forall. intros r' Hr'.
      apply list_elem_of_lookup_1 in Hr' as [i Hi].
      destruct (Forall2_lookup_r _ _ _ _ _ Hevents Hi)
        as (r & Hr & _ & Hkeep & Hmark & _).
      destruct (Notions.processed r) eqn:Hp; [by apply Hkeep|].
      assert (as_object r ∈ Notions.unprocessed_page w) as Hin.
      { apply list_elem_of_fmap. exists r. split; [done|].
        rewrite take_ge by (by rewrite airtable_sort_perm).
        rewrite airtable_sort_perm. apply list_elem_of_In, filter_In.
        split; [by eapply list_elem_of_In, list_elem_of_lookup_2|].
        unfold formula_false. unfold Notions.processed in Hp. by rewrite Hp. }
      destruct (Hall _ Hin) as (group & Hgin & Hegroup).
      apply (Hmark (Notions.key (as_object r)) (as_object r)).
      - rewrite Object_keys_Permutation. apply list_elem_of_fmap.
        by exists (Notions.key (as_object r), group).
      - by rewrite (own_elem_NoDup _ _ _ Hnd Hgin).
      - destruct (Hrows _ Hin) as (r0 & _ & Heq & Hid).
        rewrite as_object_id; [apply has_id_own|].
        rewrite Forall_forall in Hplain_events.
        by eapply Hplain_events, list_elem_of_lookup_2. }
    exists created, updated, w4. split; [done|]. split.
    { unfold webhookMerger.processUnprocessedEvents.
      erewrite bind_Return; [|reflexivity]. fold w1.
      apply try_catch_Return. erewrite bind_Return; [|exact Hgrouped].
      cbv zeta. rewrite Eempty.
      erewrite bind_Return; [|reflexivity]. fold w2.
      erewrite bind_Return.
      2:{ unfold webhookMerger.locals. rewrite Hloop. reflexivity. }
      cbn beta iota. rewrite Hlen. reflexivity. }
    split; [lia|]. split; [simpl in *; lia|]. split.
    { change (webhookEvents w4) with (webhookEvents w3).
      change (webhookEvents w2) with (webhookEvents w) in Hevents.
      clear -Hevents. induction Hevents as [|r r' l l' (Hid & _) _ IH]; simpl; [done|].
      by rewrite Hid, IH. }
    split; [done|]. by apply pass_over_processed_events.
Qed.

End CleanPass.

(** X7, witness: the five staged legs of two calls. *)
Lemma a_clean_pass_consumes_the_batch_witness :
  let w := Sample.world Sample.two_calls [] in
  ∃ g created updated w',
    webhookEventService.group_events [] (Notions.unprocessed_page w) = inr g
    ∧ webhookMerger.processUnprocessedEvents w
      = (Return (webhookMerger.summary (List.length g) created updated), w')
    ∧ (created + updated = List.length g)%nat
    ∧ List.length (calls w') = (List.length (calls w) + created)%nat
    ∧ map id (webhookEvents w') = map id (webhookEvents w)
    ∧ Forall (λ r, Notions.processed r = true) (webhookEvents w')
    ∧ webhookMerger.processUnprocessedEvents w'
      = (Return (webhookMerger.summary 0 0 0),
         set_console (console w' ++ [Merging; NothingToMerge]) w').
Proof.
  apply (a_clean_pass_consumes_the_batch (Sample.world Sample.two_calls [])).
  - reflexivity.
  - constructor.
  - repeat (constructor; [vm_compute; reflexivity|]). constructor.
  - apply (bool_decide_unpack _). vm_compute. reflexivity.
  - apply (bool_decide_unpack _). vm_compute. reflexivity.
Defined.

Lemma existsb_Permutation {A} (f : A → bool) l1 l2 :
  l1 ≡ₚ l2 → existsb f l1 = existsb f l2.
Proof.
  induction 1 as [|x l1 l2 _ IH|x y l|l1 l2 l3 _ IH1 _ IH2]; simpl.
  - done.
  - by rewrite IH.
  - by destruct (f x), (f y).
  - congruence.
Qed.

Section SingleCall.
Context `{Host}.

(** X8 — [processSingleCall] merges every staged event of the call,
    the ones that were merged before included. When no request fails,
    the call has staged events (the first page of them is taken) and no
    table has a column called [id], it returns the merge result, whose
    event count is the number of those events, and it has marked
    exactly those events as processed and linked them to the call
    record of the result. *)
Theorem processSingleCall_merges_the_staged_events_of_the_call
    (callId : string) (w : World) :
  faults w = [] →
  Forall Notions.plain (calls w) →
  Forall Notions.plain (webhookEvents w) →
  Notions.call_page callId w ≠ [] →
  ∃ result w',
    webhookMerger.processSingleCall callId w = (Return (Some result), w')
    ∧ get (webhookMerger.callData result) "webhookEvents"
      = Num (Z.of_nat (List.length (Notions.call_page callId w)))
    ∧ webhookEvents w'
      = map (Notions.mark (map (λ e, get e "id") (Notions.call_page callId w))
                          (webhookMerger.callRecordId result))
            (webhookEvents w)
    ∧ Forall (λ e, ∃ r, r ∈ webhookEvents w ∧ e = as_object r
                        ∧ formula_eq "Call ID" callId r = true)
             (Notions.call_page callId w).
Proof.
  intros Hf Hplain Hplain_events Hne.
  set (events := Notions.call_page callId w) in *.
  assert (Hrows : Forall (λ e, ∃ r, r ∈ webhookEvents w ∧ e = as_object r
                                   ∧ formula_eq "Call ID" callId r = true) events).
  { apply Forall_forall. intros e (r & -> & Hr)%list_elem_of_fmap.
    apply elem_of_take in Hr as (i & Hr%list_elem_of_lookup_2 & _).
    rewrite airtable_sort_perm in Hr.
    apply list_elem_of_In, filter_In in Hr as [Hr%list_elem_of_In Hc]. by exists r. }
  set (w1 := set_console (console w ++ [ProcessingSingle callId]) w).
  set (w2 := set_console (console w1 ++ [FoundEvents (List.length events)]) w1).
  destruct (mergeCallEvents_clean callId events w2)
    as (result & w3 & Hm & Hcd & Hf3 & Hplain3 & He3 & _); [done..|].
  set (ids := map (λ e, get e "id") (webhookMerger.sorted events)).
  destruct (markMultipleAsProcessed_ok ids (webhookMerger.callRecordId result) w3 Hf3)
    as (marked & Hmark).
  { rewrite He3. subst ids. apply Forall_forall.
    intros i (e & -> & He)%list_elem_of_fmap.
    unfold webhookMerger.sorted in He. rewrite Array_sort_Permutation in He.
    rewrite Forall_forall in Hrows. destruct (Hrows e He) as (r & Hr & -> & _).
    rewrite as_object_id; [by apply existsb_has_id_elem|].
    rewrite Forall_forall in Hplain_events. by apply Hplain_events. }
  eexists result, _. split.
  { unfold webhookMerger.processSingleCall.
    erewrite bind_Return; [|reflexivity]. fold w1.
    erewrite bind_Return; [|by apply getEventsByCallId_ok].
    change (Notions.call_page callId w1) with events.
    destruct (Nat.eqb (List.length events) 0) eqn:E.
    { apply Nat.eqb_eq in E. by destruct events. }
    erewrite bind_Return; [|reflexivity]. fold w2.
    erewrite bind_Return; [|exact Hm]. cbv zeta. fold ids.
    erewrite bind_Return; [|exact Hmark].
    erewrite bind_Return; [|reflexivity]. reflexivity. }
  split.
  { destruct (extractCallData_properties _ _ Hcd)
      as (? & ? & _ & _ & _ & _ & _ & _ & _ & _ & ->).
    unfold webhookMerger.sorted. by rewrite Array_sort_Permutation. }
  split; [|done]. simpl. rewrite He3. apply map_ext. intros r.
  unfold Notions.mark, ids.
  rewrite (existsb_Permutation _ _ (map (λ e, get e "id") events)); [done|].
  unfold webhookMerger.sorted. by rewrite Array_sort_Permutation.
Qed.

End SingleCall.

(** X8, witness: the five staged legs of the sample call. *)
Lemma processSingleCall_merges_the_staged_events_of_the_call_witness :
  let callId := "1765829443.779816" in
  let w := Sample.world Sample.full_call [] in
  ∃ result w',
    webhookMerger.processSingleCall callId w = (Return (Some result), w')
    ∧ get (webhookMerger.callData result) "webhookEvents"
      = Num (Z.of_nat (List.length (Notions.call_page callId w)))
    ∧ webhookEvents w'
      = map (Notions.mark (map (λ e, get e "id") (Notions.call_page callId w))
                          (webhookMerger.callRecordId result))
            (webhookEvents w)
    ∧ Forall (λ e, ∃ r, r ∈ webhookEvents w ∧ e = as_object r
                        ∧ formula_eq "Call ID" callId r = true)
             (Notions.call_page callId w).
Proof.
  apply (processSingleCall_merges_the_staged_events_of_the_call
           "1765829443.779816" (Sample.world Sample.full_call [])).
  - reflexivity.
  - constructor.
  - repeat (constructor; [vm_compute; reflexivity|]). constructor.
  - intros E. apply (f_equal List.length) in E. vm_compute in E. discriminate.
Defined.

(** ** The facts of a call, once more *)

Section Facts.
Context `{Host}.

(** X9 — The direction and the answered-by fields of a merged call go
    with its status. A call that a phone answered is [Answered], keeps
    the direction of its first event (Inbound for [incoming], Outbound
    otherwise) and carries the name, extension and time of the first
    event that reports the answer; every other call is stored with
    direction [Missed], whichever way it went, and carries none of the
    three. *)
Theorem direction_and_answered_fields_go_with_the_status
    (events : list (gmap string value)) :
  events ≠ [] →
  ∃ cd firstEvent rest,
    webhookMerger.extractCallData events = inr cd
    ∧ events = firstEvent :: rest
    ∧ (Exists (λ e, webhookMerger.is_answered e = true) events →
         ∃ before a after,
           events = before ++ a :: after
           ∧ Forall (λ e, webhookMerger.is_answered e = false) before
           ∧ webhookMerger.is_answered a = true
           ∧ get cd "finalStatus" = Str "Answered"
           ∧ get cd "direction" = Str (webhookMerger.direction_of firstEvent)
           ∧ cd !! "pickedUpByName" = Some (get a "Destination Name")
           ∧ cd !! "pickedUpByExtension" = Some (get a "Destination Number")
           ∧ cd !! "answerTime" = Some (get a "Start Time"))
    ∧ (¬ Exists (λ e, webhookMerger.is_answered e = true) events →
         get cd "finalStatus" ≠ Str "Answered"
         ∧ get cd "direction" = Str "Missed"
         ∧ cd !! "pickedUpByName" = None
         ∧ cd !! "pickedUpByExtension" = None
         ∧ cd !! "answerTime" = None).
Proof.
  destruct events as [|firstEvent rest]; [done|]. intros _.
  destruct (extractCallData_returns (firstEvent :: rest)) as [cd Hcd]; [done|].
  exists cd, firstEvent, rest. split; [done|]. split; [done|].
  revert Hcd. unfold webhookMerger.extractCallData.
  rewrite <- wasAnswered_Exists.
  unfold webhookMerger.classify, webhookMerger.wasAnswered.
  destruct (webhookMerger.answeredEvent (firstEvent :: rest)) as [a|] eqn:Ea.
  - rewrite bool_decide_true by done.
    intros E. apply (inj inr) in E. subst cd. split; [|done]. intros _.
    apply find_Some_split in Ea as (before & after & Heq & Hbefore & Ha).
    exists before, a, after. rewrite <- Heq.
    repeat split; try done; read_property.
  - rewrite bool_decide_false by (by intros [? ?]).
    intros E. split; [done|]. intros _. revert E.
    destruct (truthy _); [|destruct (_ <? _)%nat];
      intros E; apply (inj inr) in E; subst cd;
      (split; [unfold get; read_property; by rewrite ?lookup_insert_eq|]);
      repeat split; read_property.
Qed.

End Facts.

(** X9, witness: the sample call, answered by an extension. *)
Lemma direction_and_answered_fields_go_with_the_status_witness :
  ∃ cd firstEvent a,
    webhookMerger.extractCallData (map as_object Sample.full_call) = inr cd
    ∧ webhookMerger.is_answered a = true
    ∧ get cd "finalStatus" = Str "Answered"
    ∧ get cd "direction" = Str (webhookMerger.direction_of firstEvent)
    ∧ cd !! "pickedUpByName" = Some (get a "Destination Name").
Proof.
  destruct (direction_and_answered_fields_go_with_the_status
              (map as_object Sample.full_call))
    as (cd & firstEvent & rest & Hcd & Hfirst & Hanswered & _); [discriminate|].
  destruct Hanswered as (before & a & after & Heq & Hbefore & Ha & Hs & Hd & Hn & _).
  { apply (bool_decide_unpack _). vm_compute. reflexivity. }
  exists cd, firstEvent, a. repeat split; assumption.
Defined.

(** ** Staging a webhook *)

Lemma cell_or v :
  default undefined (cell (Some (or v (Str ""))) None)
  = if truthy v && negb (blank v) then v else undefined.
Proof. by destruct v as [| |[|??]|[| |]| |[]|[|??]]. Qed.

(** An object literal is read by its first property of the name. *)
Lemma list_to_map_own {A} (l : list (string * A)) k :
  (list_to_map l : gmap string A) !! k = own k l.
Proof.
  induction l as [|[k' a] l IH]; simpl; [done|].
  destruct (String.eqb k k') eqn:E.
  - apply String.eqb_eq in E as ->. apply lookup_insert_eq.
  - apply String.eqb_neq in E. by rewrite lookup_insert_ne.
Qed.

Ltac read_literal :=
  rewrite list_to_map_own; cbv [own String.eqb Ascii.eqb Bool.eqb].

Ltac read_cell := rewrite write_lookup; read_literal; rewrite ?lookup_empty.

Lemma get_literal (l : list (string * value)) k :
  get (list_to_map l) k = default undefined (own k l).
Proof. unfold get. by rewrite list_to_map_own. Qed.

(** Reads the properties of the object literals of the goal. *)
Ltac read_properties :=
  rewrite ?get_literal;
  cbv [own String.eqb Ascii.eqb Bool.eqb default from_option Datatypes.id].

(** A record is created from a literal that holds the time of the
    clock: what happens, whether the request fails or not. *)
Lemma create_at_clock_cases (t : table) (F : string → gmap string value) prefix w :
  (∃ w', rethrow prefix
           (x ← clock; record ← create t (F x); mret (as_object record)) w
         = (Return (as_object (Row (String.append "rec" (pretty (nextId w)))
                                   (write (F (now w)) ∅))), w')
     ∧ w' = set_nextId (S (nextId w))
              (set_rows t (rows t w ++ [Row (String.append "rec" (pretty (nextId w)))
                                            (write (F (now w)) ∅)])
                 (set_faults (tail (faults w)) w))
     ∧ head (faults w) ≠ Some true)
  ∨ (rethrow prefix
       (x ← clock; record ← create t (F x); mret (as_object record)) w
     = (Throw (Error (String.append prefix "request failed")),
        set_faults (tail (faults w)) w)
     ∧ head (faults w) = Some true).
Proof.
  unfold rethrow, try_catch, mbind, ST_bind, clock, create, request.
  destruct w as [cs es n nw fs c]. destruct fs as [|[] fs]; simpl.
  - left. eexists. split; [reflexivity|]. split; [|done]. by destruct t.
  - by right.
  - left. eexists. split; [reflexivity|]. split; [|done]. by destruct t.
Qed.

Section Staging.
Context `{Host}.

(** What [createEvent] does, whether its request fails or not. *)
Lemma createEvent_cases webhookData w :
  (∃ r w', webhookEventService.createEvent webhookData w = (Return (as_object r), w')
     ∧ faults w' = tail (faults w)
     ∧ calls w' = calls w ∧ webhookEvents w' = webhookEvents w ++ [r]
     ∧ nextId w' = S (nextId w) ∧ console w' = console w
     ∧ head (faults w) ≠ Some true
     ∧ id r = String.append "rec" (pretty (nextId w))
     ∧ Notions.stages webhookData (now w) r)
  ∨ (∃ w', webhookEventService.createEvent webhookData w
           = (Throw (Error "Failed to create webhook event: request failed"), w')
       ∧ faults w' = tail (faults w)
       ∧ calls w' = calls w ∧ webhookEvents w' = webhookEvents w
       ∧ nextId w' = nextId w ∧ console w' = console w
       ∧ head (faults w) = Some true).
Proof.
  unfold webhookEventService.createEvent.
  match goal with
  | |- context [rethrow ?p (clock ≫= ?f)] =>
      match f with
      | (λ x, create ?t (@?F x) ≫= _) =>
          destruct (create_at_clock_cases t F p w) as [(w' & Hc & -> & Hhead)|[Hc Hhead]]
      end
  end.
  - left. eexists _, _. split; [exact Hc|]. cbn [faults calls webhookEvents nextId console
      set_nextId set_rows set_faults webhookEventService.WEBHOOK_EVENTS_TABLE rows id].
    do 7 (split; [done|]).
    unfold Notions.stages. cbn [fields].
    split; [by read_cell|]. split; [by read_cell|]. split; [by read_cell|].
    split.
    { unfold get. read_cell. simpl. by destruct (now w). }
    unfold Notions.columns.
    repeat (constructor; [cbn [fst snd]; unfold get at 1; read_cell; apply cell_or|]).
    constructor.
  - right. eexists. split; [exact Hc|]. by destruct w.
Qed.

End Staging.

Section Staged.
Context `{Host}.

(** X10 — [createEvent] stages the webhook or nothing. Either way it
    uses up one request and leaves the Calls table and the console
    alone. If it returns, the request went through and one row was
    appended to the staging table under a fresh id: each property of
    the webhook that is truthy (and not an empty list) is in its
    column, the column of any other property is empty, the event is
    unprocessed and linked to no call, and the row is returned with its
    id. If it throws, the request failed, the error names the failure
    and the staging table is as before. *)
Theorem createEvent_stages_the_webhook_or_nothing
    (webhookData : gmap string value) (w : World) :
  let w' := (webhookEventService.createEvent webhookData w).2 in
  faults w' = tail (faults w) ∧ calls w' = calls w ∧ console w' = console w
  ∧ match (webhookEventService.createEvent webhookData w).1 with
    | Return event =>
        head (faults w) ≠ Some true
        ∧ ∃ r, event = as_object r
               ∧ webhookEvents w' = webhookEvents w ++ [r]
               ∧ nextId w' = S (nextId w)
               ∧ id r = String.append "rec" (pretty (nextId w))
               ∧ get event "id" = Str (id r)
               ∧ Notions.stages webhookData (now w) r
    | Throw error =>
        head (faults w) = Some true
        ∧ error = Error "Failed to create webhook event: request failed"
        ∧ webhookEvents w' = webhookEvents w
        ∧ nextId w' = nextId w
    end.
Proof.
  cbv zeta.
  destruct (createEvent_cases webhookData w)
    as [(r & w' & -> & Hf & Hc & He & Hn & Hl & Hhead & Hid & Hst)
       |(w' & -> & Hf & Hc & He & Hn & Hl & Hhead)]; cbn [fst snd].
  - do 3 (split; [done|]). split; [done|]. exists r.
    do 4 (split; [done|]). split; [|done]. apply as_object_id, Hst.
  - by repeat split.
Qed.

Lemma staged_call_id webhookData now r c :
  Notions.stages webhookData now r → get webhookData "callId" = Str c → c ≠ "" →
  formula_eq "Call ID" c r = true ∧ formula_false "Processed" r = true.
Proof.
  intros (_ & Hp & _ & _ & Hcols) Hc Hne. apply Forall_cons in Hcols as [Hid _].
  simpl in Hid. rewrite Hc, truthy_Str, blank_Str in Hid by done. simpl in Hid.
  unfold formula_eq, formula_false. rewrite Hid. simpl.
  split; [apply String.eqb_refl|]. unfold get. by rewrite Hp.
Qed.

Lemma elem_of_page (f : record → bool) rows r :
  (List.length (List.filter f rows) < 100)%nat → f r = true →
  as_object r
  ∈ map as_object (take 100 (airtable_sort "Received At" asc (List.filter f (rows ++ [r])))).
Proof.
  intros Hlen Hf. apply list_elem_of_fmap. exists r. split; [done|].
  rewrite List.filter_app. simpl. rewrite Hf.
  rewrite take_ge.
  - rewrite airtable_sort_perm. apply elem_of_app. right. by left.
  - rewrite airtable_sort_perm, length_app. simpl. lia.
Qed.

(** X11 — A webhook that was staged is fetched again: after
    [createEvent] for a webhook with call id [c], and while the call has
    fewer than a page (100) of staged events, [getEventsByCallId c]
    returns the new event among the events of the call; and while fewer
    than a page of events are unprocessed, the next pass fetches it
    with the unprocessed events. *)
Theorem a_staged_event_is_fetched_for_its_call
    (webhookData : gmap string value) (c : string) (w : World) :
  faults w = [] → get webhookData "callId" = Str c → c ≠ "" →
  (List.length (List.filter (formula_eq "Call ID" c) (webhookEvents w)) < 100)%nat →
  ∃ e w' events,
    webhookEventService.createEvent webhookData w = (Return e, w')
    ∧ webhookEventService.getEventsByCallId c w' = (Return events, w')
    ∧ e ∈ events
    ∧ get e "Call ID" = Str c
    ∧ ((List.length (List.filter (formula_false "Processed") (webhookEvents w)) < 100)%nat →
       ∃ unprocessed,
         webhookEventService.getUnprocessedEvents w' = (Return unprocessed, w')
         ∧ e ∈ unprocessed).
Proof.
  intros Hf Hc Hne Hlen.
  destruct (createEvent_cases webhookData w)
    as [(r & w' & Hcreate & Hf' & _ & He & _ & _ & _ & _ & Hst)|(? & _ & _ & _ & _ & _ & _ & Hhead)];
    [|by rewrite Hf in Hhead].
  rewrite Hf in Hf'. simpl in Hf'.
  destruct (staged_call_id _ _ _ _ Hst Hc Hne) as [Hcall Hunprocessed].
  exists (as_object r), w', (Notions.call_page c w').
  split; [done|]. split; [by apply getEventsByCallId_ok|]. split.
  { unfold Notions.call_page. rewrite He. by apply elem_of_page. }
  split.
  { unfold get. rewrite as_object_other by done.
    destruct Hst as (_ & _ & _ & _ & Hcols). apply Forall_cons in Hcols as [Hid _].
    simpl in Hid. rewrite Hc, truthy_Str, blank_Str in Hid by done. exact Hid. }
  intros Hlen'. exists (Notions.unprocessed_page w').
  split; [by apply getUnprocessedEvents_ok|].
  unfold Notions.unprocessed_page. rewrite He. by apply elem_of_page.
Qed.

End Staged.

(** X11, witness: a sixth webhook of the sample call. *)
Lemma a_staged_event_is_fetched_for_its_call_witness :
  let webhookData : gmap string value :=
    list_to_map [ ("callId", Str "1765829443.779816"); ("status", Str "ended");
                  ("direction", Str "incoming") ] in
  let w := Sample.world Sample.full_call [] in
  ∃ e w' events,
    webhookEventService.createEvent webhookData w = (Return e, w')
    ∧ webhookEventService.getEventsByCallId "1765829443.779816" w' = (Return events, w')
    ∧ e ∈ events
    ∧ get e "Call ID" = Str "1765829443.779816".
Proof.
  destruct (a_staged_event_is_fetched_for_its_call
              (list_to_map [ ("callId", Str "1765829443.779816"); ("status", Str "ended");
                             ("direction", Str "incoming") ])
              "1765829443.779816" (Sample.world Sample.full_call []))
    as (e & w' & events & H1 & H2 & H3 & H4 & _).
  - reflexivity.
  - vm_compute. reflexivity.
  - discriminate.
  - apply (bool_decide_unpack _). vm_compute. reflexivity.
  - exists e, w', events. repeat split; assumption.
Defined.

(** ** The receiving end *)

Section Receiving.
Context `{Host}.

Lemma errors_of_nil webhookData :
  webhookReceiver.errors_of webhookData = []
  ↔ truthy (get webhookData "callId") = true
    ∧ truthy (get webhookData "status") = true
    ∧ truthy (get webhookData "direction") = true.
Proof.
  unfold webhookReceiver.errors_of.
  destruct (truthy (get webhookData "callId")),
           (truthy (get webhookData "status")),
           (truthy (get webhookData "direction")); simpl; split; try done;
    by intros (? & ? & ?).
Qed.

(** The receiver proper: it never throws, and it reports success
    exactly when the webhook was staged. *)
Lemma handleTelebroadWebhook_cases webhookData s :
  (∃ r lines w',
     webhookReceiver.handleTelebroadWebhook webhookData s
     = (Return (list_to_map [
                  ("success", Bool true);
                  ("eventId", Str (id r));
                  ("callId", get webhookData "callId");
                  ("status", get webhookData "status");
                  ("message", Str "Webhook received and saved to staging table") ]),
        (lines, w'))
     ∧ calls w' = calls s.2 ∧ webhookEvents w' = webhookEvents s.2 ++ [r]
     ∧ Notions.stages webhookData (now s.2) r)
  ∨ (∃ lines w',
       webhookReceiver.handleTelebroadWebhook webhookData s
       = (Return (list_to_map [
                    ("success", Bool false);
                    ("error", Str "Failed to create webhook event: request failed");
                    ("callId", or (get webhookData "callId") (Str "unknown")) ]),
          (lines, w'))
       ∧ calls w' = calls s.2 ∧ webhookEvents w' = webhookEvents s.2).
Proof.
  destruct s as [c w]. unfold webhookReceiver.handleTelebroadWebhook.
  unfold try_catch, mbind, ST_bind, webhookReceiver.say, webhookReceiver.run.
  cbn [fst snd].
  destruct (createEvent_cases webhookData w)
    as [(r & w' & -> & _ & Hc & He & _ & _ & _ & _ & Hst)|(w' & -> & _ & Hc & He & _)].
  - left. exists r. eexists _, w'. cbn [fst snd].
    rewrite (as_object_id r) by apply Hst. split; [reflexivity|]. done.
  - right. eexists _, w'. cbn [fst snd message]. split; [reflexivity|]. done.
Qed.

(** X12 — Only valid webhooks are staged. The receiving end never
    throws. A webhook whose [callId], [status] or [direction] is
    missing (or falsy) is turned down with the list of what is
    missing: no request is made and the world is as before. A valid
    webhook is handed to [createEvent]; the result reports success
    exactly when the event was appended to the staging table, and then
    its [eventId] is the id of the new row, which holds the webhook. *)
Theorem only_valid_webhooks_are_staged
    (webhookData : gmap string value) (s : webhookReceiver.Receiver) :
  ∃ result s',
    webhookReceiver.handleWebhookWithValidation webhookData s = (Return result, s')
    ∧ calls s'.2 = calls s.2
    ∧ (webhookReceiver.errors_of webhookData ≠ [] →
         s'.2 = s.2
         ∧ s'.1 = s.1 ++ [webhookReceiver.InvalidData (webhookReceiver.errors_of webhookData)]
         ∧ get result "success" = Bool false
         ∧ get result "errors" = Arr (webhookReceiver.errors_of webhookData))
    ∧ (get result "success" = Bool true →
         truthy (get webhookData "callId") = true
         ∧ truthy (get webhookData "status") = true
         ∧ truthy (get webhookData "direction") = true
         ∧ ∃ r, webhookEvents s'.2 = webhookEvents s.2 ++ [r]
                ∧ get result "eventId" = Str (id r)
                ∧ Notions.stages webhookData (now s.2) r)
    ∧ (get result "success" ≠ Bool true →
         get result "success" = Bool false
         ∧ webhookEvents s'.2 = webhookEvents s.2).
Proof.
  unfold webhookReceiver.handleWebhookWithValidation, webhookReceiver.validateWebhookData.
  pose proof (errors_of_nil webhookData) as Hvalid.
  destruct (webhookReceiver.errors_of webhookData) as [|msg msgs] eqn:Eerr.
  - cbn [List.length Nat.ltb Nat.leb]. 
    assert (negb (truthy (get (list_to_map [("valid", Bool true)] : gmap string value)
                             "valid")) = false) as -> by (unfold get; by read_literal).
    destruct (handleTelebroadWebhook_cases webhookData s)
      as [(r & lines & w' & -> & Hc & He & Hst)|(lines & w' & -> & Hc & He)].
    + eexists _, _. split; [reflexivity|]. cbn [fst snd].
      split; [done|]. split; [done|]. split.
      * intros _. destruct Hvalid as [(? & ? & ?) _]; [done|].
        do 3 (split; [done|]). exists r. split; [done|]. split; [|done].
        unfold get. by read_literal.
      * intros Hs. destruct Hs. unfold get. by read_literal.
    + eexists _, _. split; [reflexivity|]. cbn [fst snd].
      split; [done|]. split; [done|]. split.
      * unfold get. read_literal. done.
      * intros _. split; [|done]. unfold get. by read_literal.
  - assert ((0 <? List.length (msg :: msgs))%nat = true) as -> by done.
    assert (negb (truthy (get (list_to_map [("valid", Bool false);
                                            ("errors", Arr (msg :: msgs))]
                                : gmap string value) "valid")) = true)
      as -> by (unfold get; by read_literal).
    eexists _, _. split; [reflexivity|]. cbn [fst snd].
    split; [done|]. split.
    { intros _. repeat split; unfold get; by read_literal. }
    split.
    + unfold get. read_literal. done.
    + intros _. split; [|done]. unfold get. by read_literal.
Qed.

End Receiving.

(** ** The dry run *)

Section DryRun.
Context `{Host}.

Lemma preview_calls_returns g callIds preview :
  Forall (λ k, ∃ group, own k g = Some group ∧ group ≠ []) callIds →
  ∃ entries,
    WebhookMergerService.preview_calls g callIds preview = inr (preview ++ entries)
    ∧ Forall2 (λ k entry,
         ∃ group callData,
           own k g = Some group
           ∧ webhookMerger.extractCallData group = inr callData
           ∧ entry = WebhookMergerService.preview_of k group callData)
        callIds entries.
Proof.
  revert preview. induction callIds as [|k callIds IH]; intros preview Hks.
  - exists []. simpl. by rewrite app_nil_r.
  - apply Forall_cons in Hks as [(group & Hown & Hne) Hks].
    destruct (extractCallData_returns group Hne) as [cd Hcd].
    destruct (IH (preview ++ [WebhookMergerService.preview_of k group cd]) Hks)
      as (entries & Hrest & Hall).
    exists (WebhookMergerService.preview_of k group cd :: entries).
    simpl. rewrite Hown. simpl. rewrite Hcd, Hrest. rewrite <- app_assoc.
    split; [done|]. constructor; [|done]. by exists group, cd.
Qed.

Lemma previewMerge_keeps {X} (proj : World → X) :
  (∀ fs w, proj (set_faults fs w) = proj w) →
  Spec.keeps proj WebhookMergerService.previewMerge.
Proof.
  intros Hp. unfold WebhookMergerService.previewMerge.
  apply keeps_bind; [by apply getEventsGroupedByCallId_keeps|].
  intros g. apply keeps_bind; [apply keeps_lift_pure|].
  intros p. apply keeps_ret.
Qed.

(** X13 — [previewMerge] is a dry run. Whatever happens, it leaves
    both tables and the console as they were. When the request goes
    through and no call id is the name of a member of
    [Object.prototype], it returns one entry per call id of the batch,
    in the order of [Object.keys]; the entry of a call holds the call
    id, the number of its events, and the facts that [extractCallData]
    gives for the events in the order in which they were fetched
    (the dry run does not sort them by event time). *)
Theorem previewMerge_is_a_dry_run (w : World) :
  calls (WebhookMergerService.previewMerge w).2 = calls w
  ∧ webhookEvents (WebhookMergerService.previewMerge w).2 = webhookEvents w
  ∧ console (WebhookMergerService.previewMerge w).2 = console w
  ∧ (faults w = [] →
     Forall (λ e, inherited (Notions.key e) = false) (Notions.unprocessed_page w) →
     ∃ g entries,
       webhookEventService.group_events [] (Notions.unprocessed_page w) = inr g
       ∧ WebhookMergerService.previewMerge w
         = (Return (WebhookMergerService.MkPreview (List.length g) entries), w)
       ∧ Forall2 (λ k entry,
            ∃ group callData,
              (k, group) ∈ g
              ∧ webhookMerger.extractCallData group = inr callData
              ∧ get entry "callId" = Str k
              ∧ get entry "eventCount" = Num (Z.of_nat (List.length group))
              ∧ get entry "finalStatus" = get callData "finalStatus"
              ∧ get entry "direction" = get callData "direction"
              ∧ get entry "duration" = get callData "duration")
           (Object_keys g) entries).
Proof.
  split; [apply (previewMerge_keeps calls calls_faults)|].
  split; [apply (previewMerge_keeps webhookEvents webhookEvents_faults)|].
  split; [apply (previewMerge_keeps console console_faults)|].
  intros Hf Hkeys.
  destruct (group_events_own _ Hkeys) as (g & Hg & Hnd & Hgrouped).
  pose proof (λ k group, grouped_elem _ g k group Hnd Hgrouped) as Hgroups.
  destruct (preview_calls_returns g (Object_keys g) []) as (entries & Hp & Hall).
  { apply Forall_forall. intros k Hk. rewrite Object_keys_Permutation in Hk.
    apply list_elem_of_fmap in Hk as ([k' group] & -> & Hin). exists group.
    split; [by apply own_elem_NoDup|]. by apply Hgroups in Hin as [_ ?]. }
  exists g, entries. split; [done|]. split.
  { unfold WebhookMergerService.previewMerge.
    erewrite bind_Return; [|by apply getEventsGroupedByCallId_ok].
    cbv zeta. rewrite Hp. simpl.
    unfold mbind, ST_bind, lift_pure, mret, ST_ret. do 3 f_equal.
    apply Forall2_length in Hall. rewrite <- Hall.
    by rewrite Object_keys_Permutation, length_map. }
  eapply Forall2_impl; [exact Hall|].
  intros k entry (group & cd & Hown & Hcd & ->). exists group, cd.
  split; [by apply own_Some_elem|]. split; [done|].
  unfold WebhookMergerService.preview_of.
  repeat split; unfold get at 1; by read_literal.
Qed.

End DryRun.

(** ** The Calls table *)

Lemma run_line_assigns data fs l :
  callService.run_line data fs l
  = match Notions.assigns data l with
    | Some v => <[callService.target l := v]> fs
    | None => fs
    end.
Proof. destruct l; simpl; by repeat case_match. Qed.

Lemma run_lines_assigns data fs lines l :
  NoDup (map callService.target lines) → l ∈ lines →
  foldl (callService.run_line data) fs lines !! callService.target l
  = match Notions.assigns data l with
    | Some v => Some v
    | None => fs !! callService.target l
    end.
Proof.
  revert fs. induction lines as [|l' lines IH]; intros fs Hnd Hin.
  { by apply elem_of_nil in Hin. }
  simpl in Hnd. apply NoDup_cons in Hnd as [Hnotin Hnd]. simpl.
  apply elem_of_cons in Hin as [->|Hin].
  - rewrite run_lines_other by done. rewrite run_line_assigns.
    destruct (Notions.assigns data l'); [apply lookup_insert_eq|done].
  - rewrite IH by done. destruct (Notions.assigns data l); [done|].
    apply run_line_other. intros Heq. apply Hnotin. rewrite Heq.
    apply list_elem_of_fmap. by exists l.
Qed.

Lemma updateCall_lines_NoDup : NoDup (map callService.target callService.updateCall_lines).
Proof. apply (bool_decide_unpack _). vm_compute. reflexivity. Qed.

Lemma fieldsToUpdate_line data l :
  l ∈ callService.updateCall_lines →
  callService.fieldsToUpdate data !! callService.target l = Notions.assigns data l.
Proof.
  intros Hin. unfold callService.fieldsToUpdate.
  rewrite run_lines_assigns by (done || apply updateCall_lines_NoDup).
  by destruct (Notions.assigns data l).
Qed.

Lemma fieldsToUpdate_other data k :
  k ∉ map callService.target callService.updateCall_lines →
  callService.fieldsToUpdate data !! k = None.
Proof. intros Hk. unfold callService.fieldsToUpdate. by rewrite run_lines_other. Qed.

(** What [updateCall] does to the Calls table, whether it returns or
    throws. *)
Lemma updateCall_cases rid data w :
  webhookEvents (callService.updateCall rid data w).2 = webhookEvents w
  ∧ ((∃ res, (callService.updateCall rid data w).1 = Return res
       ∧ head (faults w) ≠ Some true
       ∧ Exists (λ r, has_id rid r = true) (calls w)
       ∧ calls (callService.updateCall rid data w).2
         = map (patch rid (callService.fieldsToUpdate data)) (calls w))
     ∨ (∃ e, (callService.updateCall rid data w).1 = Throw e
         ∧ (head (faults w) = Some true
            ∨ Forall (λ r, has_id rid r = false) (calls w))
         ∧ calls (callService.updateCall rid data w).2 = calls w)).
Proof.
  unfold callService.updateCall, rethrow, try_catch, mbind, ST_bind, update, request.
  destruct w as [cs es n nw fs c]. destruct fs as [|[] fs]; simpl.
  - destruct (List.find (has_id rid) cs) as [r|] eqn:E; simpl.
    + split; [done|]. left. eexists. do 2 (split; [done|]). split; [|done].
      apply find_is_Some_Exists. by rewrite E.
    + split; [done|]. right. eexists. split; [done|]. split; [|done].
      right. by apply find_None_Forall.
  - split; [done|]. right. eexists. split; [done|]. split; [by left|done].
  - destruct (List.find (has_id rid) cs) as [r|] eqn:E; simpl.
    + split; [done|]. left. eexists. do 2 (split; [done|]). split; [|done].
      apply find_is_Some_Exists. by rewrite E.
    + split; [done|]. right. eexists. split; [done|]. split; [|done].
      right. by apply find_None_Forall.
Qed.

Lemma assigns_defined data l v : Notions.assigns data l = Some v → v ≠ undefined.
Proof.
  destruct l; simpl; repeat case_match; intros [= <-]; try done;
    by destruct (get data p).
Qed.

(** X14 — [updateCall] changes what it is given and nothing else.
    Whatever happens, the staging table is as before and no call record
    is added, removed or moved. When it throws, the Calls table is as
    before. When it returns, a record with the given id exists, every
    record with another id is exactly as before, and in the record that
    is addressed a field changes only if the update data holds the
    property of the line of [updateCall] that writes the field: the
    field then holds the value that line assigns, or is emptied when
    that value is blank; every other field keeps its cell. *)
Theorem updateCall_changes_only_what_it_is_given
    (rid : value) (data : gmap string value) (w : World) :
  let w' := (callService.updateCall rid data w).2 in
  let returned :=
    match (callService.updateCall rid data w).1 with
    | Return _ => true
    | Throw _ => false
    end in
  webhookEvents w' = webhookEvents w
  ∧ (returned = false → calls w' = calls w)
  ∧ (returned = true → Exists (λ r, has_id rid r = true) (calls w))
  ∧ Forall2 (λ r r',
       id r' = id r
       ∧ (has_id rid r = false → r' = r)
       ∧ (∀ k, k ∉ map callService.target callService.updateCall_lines →
               fields r' !! k = fields r !! k)
       ∧ (∀ l, l ∈ callService.updateCall_lines →
               fields r' !! callService.target l
               = match Notions.assigns data l with
                 | Some v =>
                     if has_id rid r && returned
                     then (if blank v then None else Some v)
                     else fields r !! callService.target l
                 | None => fields r !! callService.target l
                 end))
      (calls w) (calls w').
Proof.
  cbv zeta. destruct (updateCall_cases rid data w) as [He Hcases].
  split; [done|].
  destruct Hcases as [(res & Hres & _ & Hex & Hc)|(e & Hres & _ & Hc)]; rewrite Hc, Hres.
  - split; [done|]. split; [done|].
    apply Forall2_fmap_r, Forall_Forall2_diag, Forall_forall. intros r _.
    unfold compose. split; [apply patch_id|]. unfold patch.
    destruct (has_id rid r); cbn [fields andb].
    + split; [done|]. split.
      * intros k Hk. by rewrite write_lookup, fieldsToUpdate_other.
      * intros l Hl. rewrite write_lookup, fieldsToUpdate_line by done.
        destruct (Notions.assigns data l) as [v|] eqn:Ea; [|done].
        apply assigns_defined in Ea. by destruct v.
    + repeat split; try done. intros l _. by destruct (Notions.assigns data l).
  - split; [done|]. split; [done|].
    apply Forall_Forall2_diag, Forall_forall. intros r _.
    repeat split; try done. intros l _. rewrite andb_false_r.
    by destruct (Notions.assigns data l).
Qed.

Lemma fieldsToUpdate_absent data k :
  Forall (λ l, callService.target l = k → Notions.assigns data l = None)
         callService.updateCall_lines →
  callService.fieldsToUpdate data !! k = None.
Proof.
  intros Hall.
  destruct (decide (k ∈ map callService.target callService.updateCall_lines)) as [Hin|Hout].
  - apply list_elem_of_fmap in Hin as (l & -> & Hl).
    rewrite fieldsToUpdate_line by done.
    rewrite Forall_forall in Hall. by apply Hall.
  - by apply fieldsToUpdate_other.
Qed.

(** The rows of the Calls table after an update with [data]: each is
    as before outside the fields that [data] assigns. *)
Lemma updateCall_keeps_fields rid data w (keeps : string → Prop) :
  (∀ k, keeps k → callService.fieldsToUpdate data !! k = None) →
  Forall2 (λ r r', id r' = id r ∧ ∀ k, keeps k → fields r' !! k = fields r !! k)
    (calls w) (calls (callService.updateCall rid data w).2).
Proof.
  intros Hkeeps. destruct (updateCall_cases rid data w) as [_ Hcases].
  destruct Hcases as [(res & _ & _ & _ & ->)|(e & _ & _ & ->)].
  - apply Forall2_fmap_r, Forall_Forall2_diag, Forall_forall. intros r _.
    unfold compose. split; [apply patch_id|]. intros k Hk.
    apply patch_keeps. by apply Hkeeps.
  - apply Forall_Forall2_diag, Forall_forall. by intros r _.
Qed.

Ltac line_assigns_nothing :=
  solve [ intros _; unfold Notions.assigns; read_properties; reflexivity ].

(** X15 — The three helpers that go through [updateCall] touch only
    their own fields, whatever the outcome: [markFollowupCreated]
    leaves every field but [Follow-up Created] as it was, [linkCaller]
    every field but [Caller], and [completeCallDetails] every field
    that is not one of the seven details; a detail that is left out
    ([undefined]) keeps the cell it had. No record is added, removed or
    given another id. *)
Theorem helpers_of_updateCall_touch_only_their_fields
    (rid callerId : value) (details : gmap string value) (w : World) :
  Forall2 (λ r r',
      id r' = id r ∧ ∀ k, k ≠ F.FOLLOWUP_CREATED → fields r' !! k = fields r !! k)
    (calls w) (calls (CallService.markFollowupCreated rid w).2)
  ∧ Forall2 (λ r r',
        id r' = id r ∧ ∀ k, k ≠ F.CALLER → fields r' !! k = fields r !! k)
      (calls w) (calls (CallService.linkCaller rid callerId w).2)
  ∧ Forall2 (λ r r',
        id r' = id r
        ∧ ∀ k, (k ∉ map fst Notions.detail_fields
                ∨ ∃ p, (k, p) ∈ Notions.detail_fields ∧ get details p = undefined) →
               fields r' !! k = fields r !! k)
      (calls w) (calls (CallService.completeCallDetails rid details w).2).
Proof.
  split; [|split].
  - apply updateCall_keeps_fields. intros k Hk. apply fieldsToUpdate_absent.
    unfold callService.updateCall_lines.
    repeat (apply Forall_cons; split;
            [first [line_assigns_nothing|by intros Heq; destruct Hk]|]).
    apply Forall_nil_2.
  - apply updateCall_keeps_fields. intros k Hk. apply fieldsToUpdate_absent.
    unfold callService.updateCall_lines.
    repeat (apply Forall_cons; split;
            [first [line_assigns_nothing|by intros Heq; destruct Hk]|]).
    apply Forall_nil_2.
  - apply updateCall_keeps_fields. intros k Hk. apply fieldsToUpdate_absent.
    assert (Hdetail : ∀ f p, (f, p) ∈ Notions.detail_fields →
              (f ∉ map fst Notions.detail_fields
               ∨ ∃ p', (f, p') ∈ Notions.detail_fields ∧ get details p' = undefined) →
              get details p = undefined).
    { intros f p Hin [Hout|(p' & Hin' & Hu)].
      - destruct Hout. apply list_elem_of_fmap. by exists (f, p).
      - unfold Notions.detail_fields in Hin, Hin'.
        repeat (apply elem_of_cons in Hin as [Hin|Hin]; [injection Hin as -> ->|]);
          try (by apply elem_of_nil in Hin);
          repeat (apply elem_of_cons in Hin' as [Hin'|Hin']; [by simplify_eq|]);
          by apply elem_of_nil in Hin'. }
    unfold callService.updateCall_lines.
    repeat (apply Forall_cons; split;
            [first [ line_assigns_nothing
                   | cbn [callService.target]; intros <-;
                     unfold Notions.assigns; read_properties;
                     erewrite Hdetail; [reflexivity| |exact Hk];
                     apply (bool_decide_unpack _); vm_compute; reflexivity ]|]).
    apply Forall_nil_2.
Qed.

Lemma find_filter_negb {A} (f : A → bool) l :
  List.find f (List.filter (λ x, negb (f x)) l) = None.
Proof.
  apply find_None_Forall, Forall_forall.
  intros x [_ Hx]%list_elem_of_In%filter_In. by destruct (f x).
Qed.

(** X16 — [deleteCall] removes the record with the given id and
    nothing else: when it returns, such a record existed, the Calls
    table is the old one without the records of that id, in the old
    order, and a following [getCallById] for the id fails with
    [NOT_FOUND]; when it throws, the Calls table is as before. The
    staging table is never touched. *)
Theorem deleteCall_removes_the_record (rid : value) (w : World) :
  let w' := (CallService.deleteCall rid w).2 in
  webhookEvents w' = webhookEvents w
  ∧ match (CallService.deleteCall rid w).1 with
    | Return result =>
        get result "success" = Bool true ∧ get result "id" = rid
        ∧ Exists (λ r, has_id rid r = true) (calls w)
        ∧ calls w' = List.filter (λ r, negb (has_id rid r)) (calls w)
        ∧ (head (faults w') ≠ Some true →
           (CallService.getCallById rid w').1
           = Throw (Error (String.append
                             (String.append "Failed to fetch call "
                                (String.append (ToString rid) ": "))
                             "NOT_FOUND")))
    | Throw e =>
        calls w' = calls w
        ∧ (head (faults w) = Some true ∨ Forall (λ r, has_id rid r = false) (calls w))
    end.
Proof.
  cbv zeta.
  unfold CallService.deleteCall, rethrow, try_catch, mbind, ST_bind, Base.destroy, request.
  assert (Hget : ∀ w0, head (faults w0) ≠ Some true →
            List.find (has_id rid) (calls w0) = None →
            (CallService.getCallById rid w0).1
            = Throw (Error (String.append
                              (String.append "Failed to fetch call "
                                 (String.append (ToString rid) ": "))
                              "NOT_FOUND"))).
  { intros w0 Hhead Hnone.
    unfold CallService.getCallById, rethrow, try_catch, mbind, ST_bind, Base.find, request.
    destruct w0 as [cs es n nw fs c]. simpl in *.
    destruct fs as [|[] fs]; simpl; rewrite ?Hnone; simpl; done. }
  destruct w as [cs es n nw fs c]. destruct fs as [|[] fs]; cbn [faults set_faults rows calls].
  - destruct (List.find (has_id rid) cs) as [r|] eqn:E; simpl.
    + split; [done|]. do 2 (split; [by read_properties|]).
      split; [apply find_is_Some_Exists; by rewrite E|]. split; [done|].
      intros Hhead. apply Hget; [done|]. apply find_filter_negb.
    + split; [done|]. split; [done|]. right. by apply find_None_Forall.
  - simpl. split; [done|]. split; [done|]. by left.
  - destruct (List.find (has_id rid) cs) as [r|] eqn:E; simpl.
    + split; [done|]. do 2 (split; [by read_properties|]).
      split; [apply find_is_Some_Exists; by rewrite E|]. split; [done|].
      intros Hhead. apply Hget; [done|]. apply find_filter_negb.
    + split; [done|]. split; [done|]. right. by apply find_None_Forall.
Qed.

Section FromWebhook.
Context `{Host}.

Lemma fieldsToCreate_line now data l :
  NoDup (map callService.target callService.createCall_lines) →
  l ∈ callService.createCall_lines →
  callService.fieldsToCreate now data !! callService.target l
  = match Notions.assigns data l with
    | Some v => Some v
    | None =>
        (list_to_map [ (F.DATE_TIME, or (get data "dateTime") (Str now));
                       (F.DIRECTION, or (get data "direction") (Str "Inbound")) ]
           : gmap string value) !! callService.target l
    end.
Proof. intros Hnd Hl. unfold callService.fieldsToCreate. by apply run_lines_assigns. Qed.

Lemma createCall_lines_NoDup : NoDup (map callService.target callService.createCall_lines).
Proof. apply (bool_decide_unpack _). vm_compute. reflexivity. Qed.

(** X17 — [createFromWebhook] logs the call of a Zapier webhook and the
    call is found again under its id. When no request fails, one record
    is appended to the Calls table. Its direction is [Missed] when the
    webhook reports a duration of [0] or a missed call, whatever the
    direction of the webhook, and otherwise the direction of the
    webhook, or [Inbound] when it has none. Its [TB Call ID] is the
    [callId] of the webhook; and when no record carried that id before,
    [findByTelebroadId] returns the new record. *)
Theorem createFromWebhook_logs_the_call
    (telebroadData : gmap string value) (c : string) (w : World) :
  faults w = [] → get telebroadData "callId" = Str c → c ≠ "" →
  ∃ r w',
    CallService.createFromWebhook telebroadData w = (Return (as_object r), w')
    ∧ calls w' = calls w ++ [r] ∧ webhookEvents w' = webhookEvents w
    ∧ get (fields r) F.TB_CALL_ID = Str c
    ∧ (CallService.is_zero (get telebroadData "duration") = true
       ∨ truthy (get telebroadData "missed") = true →
         get (fields r) F.DIRECTION = Str "Missed")
    ∧ (CallService.is_zero (get telebroadData "duration") = false →
       truthy (get telebroadData "missed") = false →
         get (fields r) F.DIRECTION
         = if truthy (get telebroadData "direction")
           then (if blank (get telebroadData "direction") then undefined
                 else get telebroadData "direction")
           else Str "Inbound")
    ∧ (matching c w = [] →
       callService.findByTelebroadId c w' = (Return (Some (as_object r)), w')).
Proof.
  intros Hf Hc Hne.
  set (data := CallService.webhook_callData (now w) telebroadData).
  set (r := Row (String.append "rec" (pretty (nextId w)))
                (write (callService.fieldsToCreate (now w) data) ∅)).
  assert (Hdata : ∀ p, p ≠ "_extension" → p ≠ "_callerPhone" →
            get data p
            = get (list_to_map [
                ("dateTime", or (or (get telebroadData "timestamp")
                                    (get telebroadData "callTime")) (Str (now w)));
                ("direction", if CallService.is_zero (get telebroadData "duration")
                                 || truthy (get telebroadData "missed")
                              then Str "Missed"
                              else or (get telebroadData "direction") (Str "Inbound"));
                ("duration", or (get telebroadData "duration") (Num 0));
                ("telebroadCallId", or (get telebroadData "callId")
                                       (get telebroadData "uniqueId")) ]) p).
  { intros p Hp1 Hp2. unfold data, CallService.webhook_callData, get.
    repeat case_match; by rewrite ?lookup_insert_ne. }
  assert (Hid : get (fields r) F.TB_CALL_ID = Str c).
  { unfold get, r. cbn [fields]. rewrite write_lookup.
    rewrite (fieldsToCreate_TB_CALL_ID (now w) data).
    - rewrite Hdata by done. read_properties. rewrite Hc.
      unfold or. rewrite truthy_Str by done. unfold cell. cbv beta iota.
      by rewrite blank_Str.
    - rewrite Hdata by done. read_properties. rewrite Hc.
      unfold or. rewrite truthy_Str by done. by apply truthy_Str. }
  assert (Hdir : get (fields r) F.DIRECTION
                 = let v := get data "direction" in
                   if blank (or v (Str "Inbound")) then undefined
                   else or v (Str "Inbound")).
  { unfold get at 1, r. cbn [fields]. rewrite write_lookup.
    unfold callService.fieldsToCreate. rewrite run_lines_other.
    2:{ apply (bool_decide_unpack _). vm_compute. reflexivity. }
    read_literal. cbv zeta. unfold cell.
    by destruct (or (get data "direction") (Str "Inbound")) as [| |[|??]| | |[]|[|??]]. }
  exists r, (set_nextId (S (nextId w)) (set_rows Calls (calls w ++ [r]) w)).
  split.
  { unfold CallService.createFromWebhook.
    erewrite bind_Return; [|reflexivity]. by apply createCall_ok. }
  split; [done|]. split; [done|]. split; [done|]. split; [|split].
  - intros Hmissed. rewrite Hdir, Hdata by done. read_properties.
    assert (CallService.is_zero (get telebroadData "duration")
            || truthy (get telebroadData "missed") = true) as ->.
    { destruct Hmissed as [-> | ->]; [done|apply orb_true_r]. }
    done.
  - intros Hz Hm. rewrite Hdir, Hdata by done. read_properties. rewrite Hz, Hm.
    cbn [orb]. unfold or.
    destruct (get telebroadData "direction") as [| |[|??]|[| |]| |[]|[|??]]; done.
  - intros Hnone.
    rewrite findByTelebroadCallId_ok by done.
    unfold matching, Spec.matching. cbn [calls set_nextId set_rows].
    rewrite List.filter_app. unfold matching, Spec.matching in Hnone. rewrite Hnone.
    cbn [List.filter app]. unfold formula_eq at 1. rewrite Hid. cbn [cell_text ToString].
    rewrite String.eqb_refl.
    pose proof (head_selected [r]) as (r0 & Hr0 & ->).
    apply list_elem_of_singleton in Hr0 as ->. done.
Qed.

End FromWebhook.

(** X17, witness: a Zapier webhook of a missed call. *)
Lemma createFromWebhook_logs_the_call_witness :
  let telebroadData : gmap string value :=
    list_to_map [ ("callId", Str "1765829443.779816"); ("duration", Num 0);
                  ("direction", Str "Inbound") ] in
  ∃ r w',
    CallService.createFromWebhook telebroadData (Sample.world [] [])
    = (Return (as_object r), w')
    ∧ get (fields r) F.TB_CALL_ID = Str "1765829443.779816"
    ∧ get (fields r) F.DIRECTION = Str "Missed"
    ∧ callService.findByTelebroadId "1765829443.779816" w'
      = (Return (Some (as_object r)), w').
Proof.
  destruct (createFromWebhook_logs_the_call
              (list_to_map [ ("callId", Str "1765829443.779816"); ("duration", Num 0);
                             ("direction", Str "Inbound") ])
              "1765829443.779816" (Sample.world [] []))
    as (r & w' & Hcreate & _ & _ & Hid & Hmissed & _ & Hfind).
  - reflexivity.
  - vm_compute. reflexivity.
  - discriminate.
  - exists r, w'. split; [exact Hcreate|]. split; [exact Hid|]. split.
    + apply Hmissed. left. vm_compute. reflexivity.
    + apply Hfind. reflexivity.
Defined.

(** ** The streaming handler's view of a call *)

Section Streaming.
Context `{Host}.
Variable stringify : gmap string value → string.

Abbreviation updateCallData := (telebroadHandler.updateCallData stringify).

Lemma updateCallData_answered callData webhookData :
  telebroadHandler.wasAnswered (updateCallData callData webhookData)
  = telebroadHandler.wasAnswered callData || Notions.answered webhookData.
Proof.
  unfold telebroadHandler.updateCallData, Notions.answered. cbn.
  destruct (_ && _), (telebroadHandler.wasAnswered callData); done.
Qed.

Lemma updateCallData_status callData webhookData :
  (telebroadHandler.wasAnswered callData = true ↔
   telebroadHandler.finalStatus callData = "Answered") →
  (telebroadHandler.wasAnswered (updateCallData callData webhookData) = true ↔
   telebroadHandler.finalStatus (updateCallData callData webhookData) = "Answered").
Proof.
  intros Hinv. unfold telebroadHandler.updateCallData. cbn.
  destruct (is_str (get webhookData "status") "answered"
            && is_str (get webhookData "destinationType") "phone").
  - by rewrite andb_false_r.
  - destruct (telebroadHandler.wasAnswered callData) eqn:Hw.
    + by rewrite andb_false_r.
    + rewrite andb_true_r.
      destruct (is_str (get webhookData "status") "ended"); [|done].
      split; [done|]. by repeat case_match.
Qed.

Lemma foldl_updateCallData_status callData events :
  (telebroadHandler.wasAnswered callData = true ↔
   telebroadHandler.finalStatus callData = "Answered") →
  telebroadHandler.wasAnswered (foldl updateCallData callData events)
  = telebroadHandler.wasAnswered callData || existsb Notions.answered events
  ∧ (telebroadHandler.wasAnswered (foldl updateCallData callData events) = true ↔
     telebroadHandler.finalStatus (foldl updateCallData callData events) = "Answered")
  ∧ telebroadHandler.webhookEvents (foldl updateCallData callData events)
    = (telebroadHandler.webhookEvents callData + List.length events)%nat.
Proof.
  revert callData. induction events as [|e events IH]; intros callData Hinv; simpl.
  - rewrite orb_false_r. repeat split; try apply Hinv. lia.
  - destruct (IH (updateCallData callData e)) as (Hw & Hs & Hn);
      [by apply updateCallData_status|].
    split; [by rewrite Hw, updateCallData_answered, orb_assoc|].
    split; [done|]. rewrite Hn. cbn. lia.
Qed.

(** X18 — In the streaming handler an answered call stays answered:
    after the webhooks of a call were fed to [updateCallData], the
    status of the cache entry is [Answered] exactly when one of them
    reported that a phone answered, whatever came after it (a later
    [ended] webhook does not turn the call into a missed one); and the
    entry has counted every webhook. *)
Theorem an_answered_call_stays_Answered
    (first : gmap string value) (later : list (gmap string value)) :
  let callData := telebroadHandler.aggregate stringify first later in
  (telebroadHandler.finalStatus callData = "Answered"
   ↔ Exists (λ webhookData, Notions.answered webhookData = true) (first :: later))
  ∧ telebroadHandler.wasAnswered callData = existsb Notions.answered (first :: later)
  ∧ telebroadHandler.webhookEvents callData = S (List.length later).
Proof.
  cbv zeta. unfold telebroadHandler.aggregate.
  destruct (foldl_updateCallData_status
              (telebroadHandler.createInitialCallData first) (first :: later))
    as (Hw & Hs & Hn); [done|].
  split; [|split; [exact Hw|exact Hn]].
  rewrite <- Hs, Hw. cbn [telebroadHandler.wasAnswered telebroadHandler.createInitialCallData orb].
  rewrite Exists_exists. split.
  - intros (e & He & Ha)%existsb_exists. exists e. split; [by apply list_elem_of_In|done].
  - intros (e & He & Ha). apply existsb_exists. exists e.
    split; [by apply list_elem_of_In|done].
Qed.

Abbreviation startTime := (λ webhookData : gmap string value,
                             Date_new (get webhookData "startTime")).

(** The end time after the webhooks [seen]: none when no webhook
    reported an end, and otherwise the time of the latest such
    webhook. *)
Lemma foldl_updateCallData_endTime callData seen events :
  Forall (λ webhookData,
            Notions.ended webhookData = true →
            truthy (get webhookData "startTime") = true
            ∧ is_Some (startTime webhookData)) (seen ++ events) →
  (Forall (λ e, Notions.ended e = false) seen ∧ telebroadHandler.endTime callData = null
   ∨ ∃ e, e ∈ seen ∧ Notions.ended e = true
          ∧ telebroadHandler.endTime callData = get e "startTime"
          ∧ ∀ e', e' ∈ seen → Notions.ended e' = true → Spec.not_later startTime e' e) →
  let callData' := foldl updateCallData callData events in
  Forall (λ e, Notions.ended e = false) (seen ++ events)
    ∧ telebroadHandler.endTime callData' = null
  ∨ ∃ e, e ∈ seen ++ events ∧ Notions.ended e = true
         ∧ telebroadHandler.endTime callData' = get e "startTime"
         ∧ ∀ e', e' ∈ seen ++ events → Notions.ended e' = true →
                 Spec.not_later startTime e' e.
Proof.
  revert callData seen. induction events as [|wd events IH]; intros callData seen Hvalid Hinv.
  { cbv zeta. simpl. by rewrite app_nil_r. }
  cbv zeta. simpl. rewrite (cons_middle wd seen events), app_assoc.
  rewrite (cons_middle wd seen events), app_assoc in Hvalid.
  apply IH; [done|].
  assert (Hwd : Notions.ended wd = true →
            truthy (get wd "startTime") = true ∧ is_Some (startTime wd)).
  { rewrite Forall_forall in Hvalid. apply Hvalid.
    apply elem_of_app. left. apply elem_of_app. right. by left. }
  assert (Hseen : ∀ e, e ∈ seen → Notions.ended e = true →
            truthy (get e "startTime") = true ∧ is_Some (startTime e)).
  { intros e He. rewrite Forall_forall in Hvalid. apply Hvalid.
    apply elem_of_app. left. apply elem_of_app. by left. }
  unfold telebroadHandler.updateCallData. cbn [telebroadHandler.endTime].
  fold (Notions.ended wd).
  destruct (Notions.ended wd) eqn:Hended.
  - destruct (Hwd eq_refl) as [Htruthy [t Ht]].
    destruct Hinv as [[Hnone ->]|(e & He & Hee & -> & Hmax)].
    + right. exists wd. cbn [truthy negb orb].
      split; [apply elem_of_app; right; by left|]. split; [done|]. split; [done|].
      intros e' [He'|Heq%list_elem_of_singleton]%elem_of_app Hended'; [|subst e'].
      * rewrite Forall_forall in Hnone. specialize (Hnone e' He'). congruence.
      * exists t, t. repeat split; try done; lia.
    + destruct (Hseen e He Hee) as [Htruthy_e [te Hte]].
      rewrite Htruthy_e. cbn [negb orb]. cbv beta in Ht, Hte. rewrite Ht, Hte.
      cbn [telebroadHandler.Date_gt].
      destruct (te <? t) eqn:Hlt; right.
      * apply Z.ltb_lt in Hlt. exists wd.
        split; [apply elem_of_app; right; by left|]. split; [done|]. split; [done|].
        intros e' [He'|Heq%list_elem_of_singleton]%elem_of_app Hended'; [|subst e'].
        -- destruct (Hmax e' He' Hended') as (x & y & Hx & Hy & Hxy).
           exists x, t. split; [done|]. split; [done|].
           cbv beta in Hy. rewrite Hte in Hy. injection Hy as <-. lia.
        -- exists t, t. repeat split; try done; lia.
      * apply Z.ltb_ge in Hlt. exists e.
        split; [apply elem_of_app; by left|]. split; [done|]. split; [done|].
        intros e' [He'|Heq%list_elem_of_singleton]%elem_of_app Hended'; [|subst e'].
        -- by apply Hmax.
        -- by exists t, te.
  - destruct Hinv as [[Hnone Hnull]|(e & He & Hee & Hend & Hmax)].
    + left. split; [|done]. apply Forall_app. split; [done|]. by constructor.
    + right. exists e. split; [apply elem_of_app; by left|]. split; [done|].
      split; [done|].
      intros e' [He'|Heq%list_elem_of_singleton]%elem_of_app Hended';
        [by apply Hmax|subst e'].
      congruence.
Qed.

(** X19 — The streaming handler keeps the latest end time. When every
    webhook that reports an end carries a start time that is a valid
    date, the end time of the cache entry after the webhooks of a call
    is [null] if none of them reported an end, and otherwise the start
    time of a webhook that reported an end and that is not earlier than
    any other such webhook. *)
Theorem the_streamed_end_time_is_the_latest
    (first : gmap string value) (later : list (gmap string value)) :
  Forall (λ webhookData,
            Notions.ended webhookData = true →
            truthy (get webhookData "startTime") = true
            ∧ is_Some (startTime webhookData)) (first :: later) →
  let callData := telebroadHandler.aggregate stringify first later in
  Forall (λ e, Notions.ended e = false) (first :: later)
    ∧ telebroadHandler.endTime callData = null
  ∨ ∃ e, e ∈ first :: later ∧ Notions.ended e = true
         ∧ telebroadHandler.endTime callData = get e "startTime"
         ∧ ∀ e', e' ∈ first :: later → Notions.ended e' = true →
                 Spec.not_later startTime e' e.
Proof.
  intros Hvalid.
  apply (foldl_updateCallData_endTime
           (telebroadHandler.createInitialCallData first) [] (first :: later) Hvalid).
  left. by split.
Qed.

End Streaming.

(** X19, witness: two legs of a call end, the later one first. *)
Lemma the_streamed_end_time_is_the_latest_witness :
  let ended_at (t : string) : gmap string value :=
    list_to_map [ ("callId", Str "1765829443.779816"); ("status", Str "ended");
                  ("startTime", Str t) ] in
  let first := ended_at "2025-12-15T15:13:40-05:00" in
  let later := [ended_at "2025-12-15T15:13:25-05:00"] in
  let callData := telebroadHandler.aggregate Iso.show_object first later in
  Forall (λ e, Notions.ended e = false) (first :: later)
    ∧ telebroadHandler.endTime callData = null
  ∨ ∃ e, e ∈ first :: later ∧ Notions.ended e = true
         ∧ telebroadHandler.endTime callData = get e "startTime"
         ∧ ∀ e', e' ∈ first :: later → Notions.ended e' = true →
                 Spec.not_later (λ webhookData, Date_new (get webhookData "startTime")) e' e.
Proof.
  cbv zeta.
  apply (the_streamed_end_time_is_the_latest Iso.show_object
           (list_to_map [ ("callId", Str "1765829443.779816"); ("status", Str "ended");
                          ("startTime", Str "2025-12-15T15:13:40-05:00") ])
           [list_to_map [ ("callId", Str "1765829443.779816"); ("status", Str "ended");
                          ("startTime", Str "2025-12-15T15:13:25-05:00") ]]).
  repeat (constructor;
          [intros _; split; [vm_compute; reflexivity|vm_compute; by eexists]|]).
  constructor.
Defined.

(** ** The Airtable script's order of the events *)

Section ScriptOrder.
Context `{Host}.

(** X20 — The Airtable script merges the events of a call in the order
    of their [Start Time], with [Call Start Time] standing in for an
    event that has none: when every event has a valid date under this
    key, the sorted list holds the same events, each not later than the
    ones after it, and events of the same time keep their order. An
    event with neither cell is sorted as of the epoch, before all
    others. *)
Theorem the_script_orders_by_start_time (events : list (gmap string value)) :
  Forall (λ e, is_Some (airtableScript.timeOf e)) events →
  Array_sort airtableScript.byTime events ≡ₚ events
  ∧ StronglySorted (Spec.not_later airtableScript.timeOf)
      (Array_sort airtableScript.byTime events)
  ∧ (∀ t, filter (λ e, airtableScript.timeOf e = Some t)
            (Array_sort airtableScript.byTime events)
          = filter (λ e, airtableScript.timeOf e = Some t) events)
  ∧ (∀ e, e !! "Start Time" = None → e !! "Call Start Time" = None →
          airtableScript.timeOf e = Some 0)
  ∧ (∀ e, truthy (airtableScript.getCellValue e "Start Time") = false →
          airtableScript.timeOf e
          = Date_new (airtableScript.getCellValue e "Call Start Time")).
Proof.
  intros Hvalid. split; [apply Array_sort_Permutation|].
  split; [by apply (Array_sort_sorted airtableScript.timeOf)|].
  split; [intros t; apply (Array_sort_stable airtableScript.timeOf)|].
  split.
  - intros e H1 H2. unfold airtableScript.timeOf, airtableScript.getCellValue.
    by rewrite H1, H2.
  - intros e Hf. unfold airtableScript.timeOf, or. by rewrite Hf.
Qed.

End ScriptOrder.

(** X20, witness: the five legs of the sample call, as the script
    reads them. *)
Lemma the_script_orders_by_start_time_witness :
  let events := map fields Sample.full_call in
  Array_sort airtableScript.byTime events ≡ₚ events
  ∧ StronglySorted (Spec.not_later airtableScript.timeOf)
      (Array_sort airtableScript.byTime events).
Proof.
  destruct (the_script_orders_by_start_time (map fields Sample.full_call))
    as (Hp & Hs & _).
  - apply (bool_decide_unpack _). vm_compute. reflexivity.
  - by split.
Defined.

(** ** Streaming and staging compared *)

Section TwoRoutes.
Context `{Host}.
Variable stringify : gmap string value → string.











End TwoRoutes.



(** ** Listing calls *)

Section Listing.
Context `{Host}.

(** X22 — [getAllCalls] returns a page of the calls that pass the
    filter. When its request goes through, it returns at most
    [maxRecords] calls (100 when the option is left out or 0), each of
    them a record of the Calls table that passes the filter, and none
    of them twice: together with the calls it left out they are the
    calls that pass the filter. When these are no more than the limit,
    all of them are returned. The tables are not changed. *)
Theorem getAllCalls_returns_a_page (o : callService.options) (w : World) :
  head (faults w) ≠ Some true →
  let limit := match callService.maxRecords o with
               | Some (S n) => S n
               | _ => 100%nat
               end in
  let passing := List.filter (default (λ _, true) (callService.filterByFormula o))
                             (calls w) in
  ∃ records w',
    callService.getAllCalls o w = (Return (map as_object records), w')
    ∧ calls w' = calls w ∧ webhookEvents w' = webhookEvents w
    ∧ (List.length records ≤ limit)%nat
    ∧ (∃ left_out, records ++ left_out ≡ₚ passing)
    ∧ ((List.length passing ≤ limit)%nat → records ≡ₚ passing).
Proof.
  intros Hhead. cbv zeta.
  set (limit := match callService.maxRecords o with Some (S n) => S n | _ => 100%nat end).
  set (f := default (λ _, true) (callService.filterByFormula o)).
  set (sort := default (F.DATE_TIME, desc) (callService.sort o)).
  exists (take limit (airtable_sort sort.1 sort.2 (List.filter f (calls w)))),
         (set_faults (tail (faults w)) w).
  split.
  { unfold callService.getAllCalls, rethrow, try_catch, mbind, ST_bind, select, request.
    fold limit f sort. destruct sort as [field dir]. simpl sorted_by.
    destruct w as [cs es n nw fs c]. destruct fs as [|[] fs]; simpl in *; done. }
  split; [done|]. split; [done|]. split; [rewrite length_take; lia|]. split.
  - exists (drop limit (airtable_sort sort.1 sort.2 (List.filter f (calls w)))).
    by rewrite take_drop, airtable_sort_perm.
  - intros Hlen. rewrite take_ge; [apply airtable_sort_perm|].
    by rewrite airtable_sort_perm.
Qed.

End Listing.

(** X22, witness: a table with one call, listed with the default
    options. *)
Lemma getAllCalls_returns_a_page_witness :
  let w := MkWorld [Row "rec1" (list_to_map [ (F.TB_CALL_ID, Str "1765829443.779816") ])]
                   [] 2 "2025-12-15T15:15:00-05:00" [] [] in
  ∃ records w',
    callService.getAllCalls (callService.Options None None None) w
    = (Return (map as_object records), w')
    ∧ (List.length records ≤ 100)%nat
    ∧ records ≡ₚ calls w.
Proof.
  destruct (getAllCalls_returns_a_page (callService.Options None None None)
              (MkWorld [Row "rec1" (list_to_map [ (F.TB_CALL_ID, Str "1765829443.779816") ])]
                       [] 2 "2025-12-15T15:15:00-05:00" [] []))
    as (records & w' & Hget & _ & _ & Hlen & _ & Hall).
  - discriminate.
  - exists records, w'. split; [exact Hget|]. split; [exact Hlen|].
    apply Hall. simpl. lia.
Defined.

(** X13, witness: the five staged legs of two calls. *)
Lemma previewMerge_is_a_dry_run_witness :
  let w := Sample.world Sample.two_calls [] in
  ∃ g entries,
    webhookEventService.group_events [] (Notions.unprocessed_page w) = inr g
    ∧ WebhookMergerService.previewMerge w
      = (Return (WebhookMergerService.MkPreview (List.length g) entries), w)
    ∧ List.length entries = List.length (Object_keys g).
Proof.
  destruct (previewMerge_is_a_dry_run (Sample.world Sample.two_calls []))
    as (_ & _ & _ & Hpreview).
  destruct Hpreview as (g & entries & Hg & Hp & Hall).
  - reflexivity.
  - apply (bool_decide_unpack _). vm_compute. reflexivity.
  - exists g, entries. split; [exact Hg|]. split; [exact Hp|].
    symmetry. exact (Forall2_length _ _ _ Hall).
Defined.

(** ** A pass whose fetch fails *)

Section FailedFetch.
Context `{Host}.

(** X23 — When the request for the unprocessed events fails, nothing is
    merged: [getUnprocessedEvents] and [getEventsGroupedByCallId] each
    wrap the error, [processUnprocessedEvents] logs the message and
    throws the error on, and the dry run throws it as well; both tables
    are as before and only the failed request is used up. *)
Theorem a_failed_fetch_aborts_the_pass (w : World) :
  head (faults w) = Some true →
  let message :=
    "Failed to group events: Failed to fetch unprocessed events: request failed" in
  webhookEventService.getEventsGroupedByCallId w
  = (Throw (Error message), set_faults (tail (faults w)) w)
  ∧ webhookMerger.processUnprocessedEvents w
    = (Throw (Error message),
       set_console (console w ++ [Merging; ErrorInPass message])
         (set_faults (tail (faults w)) w))
  ∧ WebhookMergerService.previewMerge w
    = (Throw (Error message), set_faults (tail (faults w)) w).
Proof.
  intros Hhead. cbv zeta.
  destruct w as [cs es n nw fs c]. destruct fs as [|[] fs]; try discriminate Hhead.
  split; [done|]. split; [|done].
  unfold webhookMerger.processUnprocessedEvents.
  erewrite bind_Return; [|reflexivity].
  erewrite try_catch_Throw; [|by apply bind_Throw].
  erewrite bind_Return; [|reflexivity]. unfold throw, set_console. cbn.
  by rewrite <- app_assoc.
Qed.

End FailedFetch.

(** X23, witness: the first request of the pass fails. *)
Lemma a_failed_fetch_aborts_the_pass_witness :
  let w := Sample.world Sample.two_calls [true] in
  webhookMerger.processUnprocessedEvents w
  = (Throw (Error "Failed to group events: Failed to fetch unprocessed events: request failed"),
     set_console
       (console w
        ++ [ Merging;
             ErrorInPass
               "Failed to group events: Failed to fetch unprocessed events: request failed" ])
       (set_faults (tail (faults w)) w)).
Proof.
  apply (a_failed_fetch_aborts_the_pass (Sample.world Sample.two_calls [true])).
  reflexivity.
Defined.

(** ** The upsert, record by record *)

Ltac in_lines :=
  apply list_elem_of_In;
  cbv [callService.updateCall_lines callService.createCall_lines In];
  repeat (first [left; reflexivity | right]).

Section UpsertWrites.
Context `{Host}.

Lemma extracted_webhookEvents events cd :
  webhookMerger.extractCallData (webhookMerger.sorted events) = inr cd →
  get cd "webhookEvents" = Num (Z.of_nat (List.length events)).
Proof.
  intros Hcd.
  destruct (extractCallData_properties _ _ Hcd)
    as (f & rest & _ & _ & _ & _ & _ & _ & _ & _ & ->).
  unfold webhookMerger.sorted.
  by rewrite (Permutation_length (Array_sort_Permutation webhookMerger.byTime events)).
Qed.

Lemma extracted_finalStatus events cd :
  webhookMerger.extractCallData events = inr cd →
  ∃ s, get cd "finalStatus" = Str s ∧ s ≠ "".
Proof.
  intros Hcd.
  destruct (extractCallData_properties _ _ Hcd)
    as (f & rest & _ & _ & -> & _).
  eexists. split; [reflexivity|].
  unfold webhookMerger.classify. by repeat case_match.
Qed.

(** What the patch of [updateCall] leaves in a record. *)
Lemma patch_updated_with rid data r :
  Notions.updated_with rid data r (patch rid (callService.fieldsToUpdate data) r).
Proof.
  split; [apply patch_id|]. unfold patch.
  destruct (has_id rid r); cbn [fields]; (split; [done|]); intros Hb; [|done].
  split.
  - intros l Hl. rewrite write_lookup, fieldsToUpdate_line by done.
    destruct (Notions.assigns data l) as [v|] eqn:Ea; [|done].
    apply assigns_defined in Ea. by destruct v.
  - intros k Hk. by rewrite write_lookup, fieldsToUpdate_other.
Qed.

Lemma patch_merge_facts rid events cd r :
  webhookMerger.extractCallData (webhookMerger.sorted events) = inr cd →
  has_id rid r = true →
  fields (patch rid (callService.fieldsToUpdate cd) r) !! F.WEBHOOK_EVENTS
  = Some (Num (Z.of_nat (List.length events)))
  ∧ fields (patch rid (callService.fieldsToUpdate cd) r) !! F.FINAL_STATUS
    = Some (get cd "finalStatus").
Proof.
  intros Hcd Hid.
  destruct (patch_updated_with rid cd r) as (_ & _ & Hon).
  destruct (Hon Hid) as [Hlines _]. split.
  - pose proof (Hlines (callService.IfDefined "webhookEvents" F.WEBHOOK_EVENTS)
                  ltac:(in_lines)) as Hl.
    cbn [callService.target Notions.assigns] in Hl.
    by rewrite Hl, (extracted_webhookEvents _ _ Hcd).
  - pose proof (Hlines (callService.IfDefined "finalStatus" F.FINAL_STATUS)
                  ltac:(in_lines)) as Hl.
    cbn [callService.target Notions.assigns] in Hl. rewrite Hl.
    destruct (extracted_finalStatus _ _ Hcd) as (s & -> & Hs).
    cbn [defined]. by rewrite blank_Str.
Qed.

Lemma patched_calls rid events cd (l : list record) :
  webhookMerger.extractCallData (webhookMerger.sorted events) = inr cd →
  Forall2 (λ r r',
     Notions.updated_with rid cd r r'
     ∧ (has_id rid r = true →
        fields r' !! F.WEBHOOK_EVENTS = Some (Num (Z.of_nat (List.length events)))
        ∧ fields r' !! F.FINAL_STATUS = Some (get cd "finalStatus")))
    l (map (patch rid (callService.fieldsToUpdate cd)) l).
Proof.
  intros Hcd. apply Forall2_fmap_r, Forall_Forall2_diag, Forall_forall.
  intros r _. unfold compose. split; [apply patch_updated_with|].
  by apply patch_merge_facts.
Qed.

Lemma created_fields now data l :
  l ∈ callService.createCall_lines →
  write (callService.fieldsToCreate now data) ∅ !! callService.target l
  = match Notions.assigns data l with
    | Some v => if blank v then None else Some v
    | None => None
    end.
Proof.
  intros Hl. rewrite write_lookup, lookup_empty.
  rewrite fieldsToCreate_line by (done || apply createCall_lines_NoDup).
  destruct (Notions.assigns data l) as [v|] eqn:Ea.
  - apply assigns_defined in Ea. by destruct v.
  - assert (Forall (λ k, k ≠ F.DATE_TIME ∧ k ≠ F.DIRECTION)
              (map callService.target callService.createCall_lines)) as Hnot.
    { apply (bool_decide_unpack _). vm_compute. reflexivity. }
    rewrite Forall_forall in Hnot.
    destruct (Hnot (callService.target l)) as [H1 H2].
    { apply list_elem_of_fmap. by exists l. }
    rewrite list_to_map_own. unfold own. cbn [List.find fst snd].
    apply String.eqb_neq in H1, H2. by rewrite H1, H2.
Qed.

Lemma created_record_from now data rid :
  Notions.created_from data (Row rid (write (callService.fieldsToCreate now data) ∅)).
Proof. intros l Hl. cbn [fields]. by apply created_fields. Qed.

Lemma created_webhookEvents now events cd :
  webhookMerger.extractCallData (webhookMerger.sorted events) = inr cd →
  write (callService.fieldsToCreate now cd) ∅ !! F.WEBHOOK_EVENTS
  = Some (Num (Z.of_nat (List.length events))).
Proof.
  intros Hcd.
  transitivity
    (write (callService.fieldsToCreate now cd) ∅
       !! callService.target (callService.IfDefined "webhookEvents" F.WEBHOOK_EVENTS));
    [reflexivity|].
  rewrite created_fields by in_lines.
  cbn [Notions.assigns]. by rewrite (extracted_webhookEvents _ _ Hcd).
Qed.

Lemma created_TB_CALL_ID callId events cd now :
  callId ≠ "" → Forall (λ e, get e "Call ID" = Str callId) events →
  webhookMerger.extractCallData (webhookMerger.sorted events) = inr cd →
  write (callService.fieldsToCreate now cd) ∅ !! F.TB_CALL_ID = Some (Str callId).
Proof.
  intros HcallId Hevents Hcd.
  destruct (extractCallData_properties _ _ Hcd) as (firstEvent & rest & E & Hid & _).
  assert (get firstEvent "Call ID" = Str callId) as Hfirst.
  { rewrite Forall_forall in Hevents. apply Hevents.
    rewrite <- (Array_sort_Permutation webhookMerger.byTime events).
    fold (webhookMerger.sorted events). rewrite E. by left. }
  rewrite write_lookup, lookup_empty, fieldsToCreate_TB_CALL_ID.
  - rewrite Hid, Hfirst. unfold cell. by rewrite blank_Str.
  - rewrite Hid, Hfirst. by apply truthy_Str.
Qed.

(** C1. [mergeCallEvents] keys the upsert on the call id. With the
    store answering, a non-empty group is merged as follows: the call
    data is extracted from the sorted group and returned with the
    result. When some record carries the call id in [TB Call ID], one
    such record is updated in place: the result names its storage id, no
    record is added, no record's id or [TB Call ID] changes, a record
    with another id is exactly as before, and the record that is named
    holds in every field that [updateCall] writes the value extracted
    from the group (so its event count is that of the group and its
    final status the extracted one) and in every other field its old
    cell. When no record carries the call id, exactly one record is
    appended, the result names it, and it holds the extracted values.
    In that case, when the events carry the (non-blank) call id, the new
    record carries it in [TB Call ID], and a second merge for the same
    call id, with any further non-empty event set, updates that same
    record with what is extracted from the second set, and adds none.
    The staged events are not touched. *)
Theorem upsert_keys_on_callId (w : World) (callId : string)
    (events : list (gmap string value)) :
  faults w = [] → events ≠ [] →
  Forall (λ r, fields r !! "id" = None) (calls w) →
  ∃ cd result w',
    webhookMerger.extractCallData (webhookMerger.sorted events) = inr cd
    ∧ webhookMerger.mergeCallEvents callId events w = (Return result, w')
    ∧ webhookMerger.callData result = cd
    ∧ webhookEvents w' = webhookEvents w
    ∧ (matching callId w ≠ [] →
         webhookMerger.action result = "updated"
         ∧ (∃ r, r ∈ matching callId w
                 ∧ webhookMerger.callRecordId result = Str (id r))
         ∧ map id (calls w') = map id (calls w)
         ∧ map (λ r, fields r !! F.TB_CALL_ID) (calls w')
           = map (λ r, fields r !! F.TB_CALL_ID) (calls w)
         ∧ Forall2 (λ r r',
              Notions.updated_with (webhookMerger.callRecordId result) cd r r'
              ∧ (has_id (webhookMerger.callRecordId result) r = true →
                 fields r' !! F.WEBHOOK_EVENTS
                 = Some (Num (Z.of_nat (List.length events)))
                 ∧ fields r' !! F.FINAL_STATUS = Some (get cd "finalStatus")))
             (calls w) (calls w'))
    ∧ (matching callId w = [] →
         webhookMerger.action result = "created"
         ∧ ∃ r, calls w' = calls w ++ [r]
           ∧ webhookMerger.callRecordId result = Str (id r)
           ∧ Notions.created_from cd r
           ∧ fields r !! F.WEBHOOK_EVENTS = Some (Num (Z.of_nat (List.length events)))
           ∧ (callId ≠ "" →
              Forall (λ e, get e "Call ID" = Str callId) events →
              fields r !! F.TB_CALL_ID = Some (Str callId)
              ∧ ∀ events2 : list (gmap string value), events2 ≠ [] →
                ∃ cd2 result2 w'',
                  webhookMerger.extractCallData (webhookMerger.sorted events2) = inr cd2
                  ∧ webhookMerger.mergeCallEvents callId events2 w'
                    = (Return result2, w'')
                  ∧ webhookMerger.callData result2 = cd2
                  ∧ webhookMerger.action result2 = "updated"
                  ∧ webhookMerger.callRecordId result2 = Str (id r)
                  ∧ map id (calls w'') = map id (calls w ++ [r])
                  ∧ map (λ r, fields r !! F.TB_CALL_ID) (calls w'')
                    = map (λ r, fields r !! F.TB_CALL_ID) (calls w ++ [r])
                  ∧ Forall2 (λ r1 r2,
                       Notions.updated_with (Str (id r)) cd2 r1 r2
                       ∧ (has_id (Str (id r)) r1 = true →
                          fields r2 !! F.WEBHOOK_EVENTS
                          = Some (Num (Z.of_nat (List.length events2)))
                          ∧ fields r2 !! F.FINAL_STATUS
                            = Some (get cd2 "finalStatus")))
                      (calls w ++ [r]) (calls w''))).
Proof.
  intros Hf Hne Hcols.
  destruct (mergeCallEvents_ok callId events w Hf Hne Hcols) as (cd & Hcd & Hmerge).
  exists cd.
  destruct (matching callId w) as [|r0 rs] eqn:Em.
  - (* no record carries the call id *)
    cbv zeta in Hmerge. eexists _, _. split; [exact Hcd|]. split; [exact Hmerge|].
    split; [done|]. split; [done|]. split; [done|]. intros _. split; [done|].
    eexists. split; [reflexivity|]. split; [reflexivity|].
    split; [apply created_record_from|]. cbn [fields].
    split; [by apply created_webhookEvents|].
    intros HcallId Hevents.
    split; [by apply (created_TB_CALL_ID callId events)|].
    intros events2 Hne2.
    set (r := Row (String.append "rec" (pretty (nextId w)))
                  (write (callService.fieldsToCreate (now w) cd) ∅)).
    set (w' := set_nextId (S (nextId w)) (set_rows Calls (calls w ++ [r]) w)).
    assert (matching callId w' = [r]) as Em'.
    { unfold matching, Spec.matching. simpl. rewrite List.filter_app.
      unfold matching, Spec.matching in Em. rewrite Em. simpl.
      unfold r at 1. by erewrite created_record_matches. }
    destruct (mergeCallEvents_ok callId events2 w') as (cd2 & Hcd2 & Hmerge2);
      [done|done| |].
    { simpl. apply Forall_app. split; [done|]. constructor; [|constructor].
      apply created_record_has_no_id_column. }
    rewrite Em' in Hmerge2. destruct Hmerge2 as (r' & Hr' & Hmerge2).
    apply list_elem_of_singleton in Hr'. subst r'.
    eexists cd2, _, _. split; [exact Hcd2|]. split; [exact Hmerge2|].
    split; [done|]. split; [done|]. split; [done|].
    cbn [calls set_rows rows set_nextId w']. split; [|split].
    + rewrite <- list_fmap_compose. apply list_fmap_ext.
      intros _ x _. apply patch_id.
    + rewrite <- list_fmap_compose. apply list_fmap_ext.
      intros _ x _. simpl. apply patch_keeps, fieldsToUpdate_keeps_TB_CALL_ID.
    + by apply patched_calls.
  - (* some record carries the call id *)
    destruct Hmerge as (r & Hr & Hmerge).
    eexists _, _. split; [exact Hcd|]. split; [exact Hmerge|].
    split; [done|]. split; [done|].
    split; [|done]. intros _. split; [done|].
    split; [by exists r|]. cbn [calls set_rows rows webhookMerger.callRecordId].
    split; [|split].
    + rewrite <- list_fmap_compose. apply list_fmap_ext.
      intros _ x _. apply patch_id.
    + rewrite <- list_fmap_compose. apply list_fmap_ext.
      intros _ x _. simpl. apply patch_keeps, fieldsToUpdate_keeps_TB_CALL_ID.
    + by apply patched_calls.
Qed.

End UpsertWrites.

(** C1, witness: the first four legs of the sample call are merged into
    an empty Calls table, then all five: the one record is created with
    four events and afterwards holds five, the answered status and the
    duration of the call that has now ended. *)
Lemma upsert_keys_on_callId_witness :
  ∃ result w' r result2 w'' r2,
    webhookMerger.mergeCallEvents "1765829443.779816"
      (map as_object Sample.first_pass) (Sample.world Sample.first_pass [])
    = (Return result, w')
    ∧ webhookMerger.action result = "created"
    ∧ calls w' = [r]
    ∧ webhookMerger.callRecordId result = Str (id r)
    ∧ fields r !! F.WEBHOOK_EVENTS = Some (Num 4)
    ∧ fields r !! F.TB_CALL_ID = Some (Str "1765829443.779816")
    ∧ webhookMerger.mergeCallEvents "1765829443.779816"
        (map as_object Sample.full_call) w'
      = (Return result2, w'')
    ∧ webhookMerger.action result2 = "updated"
    ∧ webhookMerger.callRecordId result2 = Str (id r)
    ∧ calls w'' = [r2]
    ∧ id r2 = id r
    ∧ fields r2 !! F.TB_CALL_ID = Some (Str "1765829443.779816")
    ∧ fields r2 !! F.WEBHOOK_EVENTS = Some (Num 5)
    ∧ fields r2 !! F.FINAL_STATUS = Some (Str "Answered")
    ∧ fields r2 !! F.DURATION = Some (Num 135).
Proof.
  destruct (upsert_keys_on_callId (Sample.world Sample.first_pass [])
              "1765829443.779816" (map as_object Sample.first_pass))
    as (cd & result & w' & Hcd & Hmerge & _ & _ & _ & Hcreated);
    [reflexivity|discriminate|constructor|].
  destruct Hcreated as (Haction & r & Hcalls & Hid & _ & Hcount & Hsecond);
    [reflexivity|].
  destruct (Hsecond ltac:(discriminate)
              ltac:(apply (bool_decide_unpack _); vm_compute; reflexivity))
    as (Htb & Hagain).
  destruct (Hagain (map as_object Sample.full_call) ltac:(discriminate))
    as (cd2 & result2 & w'' & Hcd2 & Hmerge2 & _ & Haction2 & Hid2 & _ & Htb2 & Hrows).
  cbn [calls Sample.world app] in Hcalls, Hrows, Htb2.
  apply Forall2_cons_inv_l in Hrows as (r2 & rest & [Hup Hfacts] & Hrest & Hcalls2).
  apply Forall2_nil_inv_l in Hrest. subst rest.
  assert (has_id (Str (id r)) r = true) as Hself.
  { unfold has_id. cbn [is_str]. apply String.eqb_refl. }
  destruct Hup as (Hid' & _ & Hon). destruct (Hon Hself) as [Hlines _].
  destruct (Hfacts Hself) as [Hcount2 Hstatus2].
  destruct (extractCallData_properties _ _ Hcd2)
    as (f & rest & _ & _ & Hfinal & _ & _ & _ & _ & Hduration & _).
  exists result, w', r, result2, w'', r2.
  split; [exact Hmerge|]. split; [exact Haction|]. split; [exact Hcalls|].
  split; [exact Hid|]. split; [exact Hcount|]. split; [exact Htb|].
  split; [exact Hmerge2|]. split; [exact Haction2|]. split; [exact Hid2|].
  split; [exact Hcalls2|]. split; [exact Hid'|]. split.
  { rewrite Hcalls2 in Htb2. cbn [map] in Htb2. injection Htb2 as ->. exact Htb. }
  split; [exact Hcount2|]. split.
  { rewrite Hstatus2, Hfinal. vm_compute. reflexivity. }
  pose proof (Hlines (callService.IfDefined "duration" F.DURATION)
                ltac:(in_lines)) as Hl.
  cbn [callService.target Notions.assigns] in Hl.
  rewrite Hl, Hduration. vm_compute. reflexivity.
Defined.

(** ** A pass in which one group fails *)

Lemma NoDup_fmap_elem {A B} (f : A → B) (l : list A) x y :
  NoDup (map f l) → x ∈ l → y ∈ l → f x = f y → x = y.
Proof.
  induction l as [|a l IH]; simpl.
  - by intros _ ?%elem_of_nil.
  - intros [Hnotin Hnd]%NoDup_cons [->|Hx]%elem_of_cons [->|Hy]%elem_of_cons Heq.
    + done.
    + destruct Hnotin. rewrite Heq. apply list_elem_of_fmap. by exists y.
    + destruct Hnotin. rewrite <- Heq. apply list_elem_of_fmap. by exists x.
    + by apply IH.
Qed.

Section FailedGroup.
Context `{Host}.

Lemma select_next t f sort n w fs :
  faults w = false :: fs →
  select t f sort n w
  = (Return (take n (sorted_by sort (List.filter f (rows t w)))), set_faults fs w).
Proof. intros Hf. unfold select, request. rewrite Hf. by destruct t. Qed.

Lemma getEventsGroupedByCallId_next w g fs :
  faults w = false :: fs →
  webhookEventService.group_events [] (Notions.unprocessed_page w) = inr g →
  webhookEventService.getEventsGroupedByCallId w = (Return g, set_faults fs w).
Proof.
  intros Hf Hg. unfold webhookEventService.getEventsGroupedByCallId.
  apply rethrow_Return.
  erewrite bind_Return.
  2:{ unfold webhookEventService.getUnprocessedEvents. apply rethrow_Return.
      unfold firstPage. erewrite bind_Return; [|by apply select_next]. reflexivity. }
  change (lift_pure (webhookEventService.group_events [] (Notions.unprocessed_page w))
            (set_faults fs w) = (Return g, set_faults fs w)).
  by rewrite Hg.
Qed.

Lemma findByTelebroadCallId_next callId w fs :
  faults w = false :: fs →
  callService.findByTelebroadCallId callId w
  = (Return (head (map as_object
       (take 100 (airtable_sort F.DATE_TIME desc (matching callId w))))),
     set_faults fs w).
Proof.
  intros Hf. unfold callService.findByTelebroadCallId, callService.findByTelebroadId.
  erewrite bind_Return; [reflexivity|].
  unfold callService.getAllCalls. apply rethrow_Return.
  erewrite bind_Return; [reflexivity|]. by apply select_next.
Qed.

(** When the lookup of the call, or the write that follows it, fails,
    [mergeCallEvents] throws and has written nothing. *)
Lemma mergeCallEvents_fails callId events w :
  faults w = [true] ∨ faults w = [false; true] → events ≠ [] →
  ∃ e, webhookMerger.mergeCallEvents callId events w = (Throw e, set_faults [] w).
Proof.
  intros Hf Hne.
  destruct (extractCallData_returns (webhookMerger.sorted events)) as [cd Hcd];
    [by apply sorted_nonempty|].
  unfold webhookMerger.mergeCallEvents. rewrite Hcd.
  destruct Hf as [Hf|Hf].
  - eexists. erewrite bind_Return; [|reflexivity]. apply bind_Throw.
    unfold callService.findByTelebroadCallId, callService.findByTelebroadId.
    apply bind_Throw. unfold callService.getAllCalls. apply rethrow_Throw.
    apply bind_Throw. unfold select, request. by rewrite Hf.
  - erewrite bind_Return; [|reflexivity].
    erewrite bind_Return; [|by apply findByTelebroadCallId_next].
    destruct (head _) as [existing|].
    + eexists. apply bind_Throw. unfold callService.updateCall.
      apply rethrow_Throw. apply bind_Throw. reflexivity.
    + eexists. apply bind_Throw. unfold callService.createCall.
      apply rethrow_Throw. erewrite bind_Return; [|reflexivity].
      apply bind_Throw. reflexivity.
Qed.

(** The turn of a group whose merge fails in this way. *)
Lemma process_call_fails g k cu w group :
  own k g = Some group → group ≠ [] →
  faults w = [true] ∨ faults w = [false; true] →
  ∃ e, webhookMerger.process_call g k (cu, w)
       = (Return (),
          (cu, set_console
                 (console w ++ [ Processing k (List.length group);
                                 ErrorProcessing k (message e) ])
                 (set_faults [] w))).
Proof.
  intros Hown Hne Hf.
  set (w1 := set_console (console w ++ [Processing k (List.length group)]) w).
  destruct (mergeCallEvents_fails k group w1 Hf Hne) as [e Hm].
  exists e. unfold webhookMerger.process_call. rewrite Hown. cbn [default].
  erewrite bind_Return; [|reflexivity]. fold w1.
  rewrite (try_catch_Throw _ _ _ e (cu, set_faults [] w1)).
  - unfold webhookMerger.run, log. cbn. by rewrite <- app_assoc.
  - apply bind_Throw. by apply run_eq.
Qed.

(** C7 (as amended). A group whose merge fails does not stop the pass,
    and the summary does not count it as failed.

    Turn by turn: when [mergeCallEvents] throws for a call group, the
    error is caught and logged, that turn of the loop writes to neither
    table, and it counts nothing. The loop never throws: it attempts
    every group of the batch once, in the order of enumeration. The
    summary that a pass returns holds [processed] (the number of
    groups), [created] and [updated], and no count of failed groups.

    A pass from end to end: the events are fetched, and then the lookup
    of the first group's call, or the write that follows it, fails,
    while every later request is answered (no table has a column [id],
    no two staged events share an id, no call id names a member of
    [Object.prototype], and the unprocessed events fit one page). Then
    the pass returns a summary whose [processed] is the number of groups,
    the failed one included, and whose [created] and [updated] add up to
    the number of the other groups; [created] records are appended to
    the Calls table; the console shows the first group as the one
    failure; every staged event of the failed group, and every event
    that was processed before, is exactly as it was; and every
    unprocessed event of another group is marked as processed. *)
Theorem failed_group_does_not_stop_the_pass :
  (∀ (g : dict (list (gmap string value))) k cu w e w2,
     webhookMerger.mergeCallEvents k (default [] (own k g))
       (set_console
          (console w ++ [Processing k (List.length (default [] (own k g)))]) w)
     = (Throw e, w2) →
     ∃ w', webhookMerger.process_call g k (cu, w) = (Return (), (cu, w'))
       ∧ calls w' = calls w ∧ webhookEvents w' = webhookEvents w
       ∧ console w'
         = console w ++ [ Processing k (List.length (default [] (own k g)));
                          ErrorProcessing k (message e) ])
  ∧ (∀ (g : dict (list (gmap string value))) callIds cu w,
       ∃ cu' w',
         for_of callIds (webhookMerger.process_call g) (cu, w) = (Return (), (cu', w'))
         ∧ Spec.attempted (console w') = Spec.attempted (console w) ++ callIds)
  ∧ (∀ (g : dict (list (gmap string value))) w w1,
       webhookEventService.getEventsGroupedByCallId
         (set_console (console w ++ [Merging]) w) = (Return g, w1) →
       ∃ created updated w',
         webhookMerger.processUnprocessedEvents w
         = (Return (webhookMerger.summary (List.length (Object_keys g)) created updated),
            w')
         ∧ (created + updated ≤ List.length (Object_keys g))%nat
         ∧ Spec.attempted (console w') = Spec.attempted (console w) ++ Object_keys g
         ∧ webhookMerger.summary (List.length (Object_keys g)) created updated
             !! "failed" = None)
  ∧ (∀ w fs,
       faults w = false :: fs → fs = [true] ∨ fs = [false; true] →
       Forall Notions.plain (calls w) →
       Forall Notions.plain (webhookEvents w) →
       NoDup (map id (webhookEvents w)) →
       Forall (λ e, inherited (Notions.key e) = false) (Notions.unprocessed_page w) →
       (List.length (List.filter (formula_false "Processed") (webhookEvents w)) ≤ 100)%nat →
       Notions.unprocessed_page w ≠ [] →
       ∃ g k ks created updated w',
         webhookEventService.group_events [] (Notions.unprocessed_page w) = inr g
         ∧ Object_keys g = k :: ks
         ∧ webhookMerger.processUnprocessedEvents w
           = (Return (webhookMerger.summary (S (List.length ks)) created updated), w')
         ∧ (created + updated = List.length ks)%nat
         ∧ List.length (calls w') = (List.length (calls w) + created)%nat
         ∧ Spec.failed (console w') = Spec.failed (console w) ++ [k]
         ∧ Spec.attempted (console w') = Spec.attempted (console w) ++ k :: ks
         ∧ Forall2 (λ r r',
              id r' = id r
              ∧ (Notions.processed r = true ∨ Notions.key (as_object r) = k → r' = r)
              ∧ (Notions.processed r = false → Notions.key (as_object r) ≠ k →
                 Notions.processed r' = true))
             (webhookEvents w) (webhookEvents w')).
Proof.
  split; [|split; [|split]].
  - intros g k cu w e w2 Hthrow.
    destruct (process_call_step g k cu w)
      as (cu' & w' & lines & Hstep & Hconsole & _ & _ & Hfailed).
    destruct (Hfailed e w2 Hthrow) as (-> & Hcalls & Hevents & ->).
    by exists w'.
  - intros g callIds cu w.
    destruct (for_of_process_call g callIds cu w) as (cu' & w' & Hloop & Hatt & _).
    by exists cu', w'.
  - intros g w w1 Hgroup.
    destruct (processUnprocessedEvents_grouped w g w1 Hgroup)
      as (created & updated & w' & Hpass & Hcount & Hatt).
    exists created, updated, w'.
    split; [done|]. split; [done|]. split; [done|].
    apply summary_has_no_failed_count.
  - intros w fs Hf Hfs Hplain Hplain_events Hids Hkeys Hpage Hne.
    destruct (group_events_own _ Hkeys) as (g & Hg & Hnd & Hown).
    pose proof (λ k group, grouped_elem _ g k group Hnd Hown) as Hgroups.
    pose proof (λ e, grouped_event _ g e Hnd Hown) as Hall.
    exists g.
    set (w1 := set_console (console w ++ [Merging]) w).
    assert (webhookEventService.getEventsGroupedByCallId w1 = (Return g, set_faults fs w1))
      as Hgrouped.
    { by apply getEventsGroupedByCallId_next. }
    (* every event of the page is an unprocessed row of the table *)
    assert (Hrows : ∀ e, e ∈ Notions.unprocessed_page w →
              ∃ r, r ∈ webhookEvents w ∧ e = as_object r ∧ get e "id" = Str (id r)
                   ∧ Notions.processed r = false).
    { intros e (r & -> & Hr)%list_elem_of_fmap.
      apply elem_of_take in Hr as (i & Hr%list_elem_of_lookup_2 & _).
      rewrite airtable_sort_perm in Hr.
      apply list_elem_of_In, filter_In in Hr as [Hr%list_elem_of_In Hfalse].
      exists r. split; [done|]. split; [done|]. split.
      - apply as_object_id. rewrite Forall_forall in Hplain_events.
        by apply Hplain_events.
      - unfold formula_false in Hfalse. unfold Notions.processed.
        by destruct (truthy _). }
    assert (Hin_page : ∀ r, r ∈ webhookEvents w → Notions.processed r = false →
              as_object r ∈ Notions.unprocessed_page w).
    { intros r Hr Hp. apply list_elem_of_fmap. exists r. split; [done|].
      rewrite take_ge by (by rewrite airtable_sort_perm).
      rewrite airtable_sort_perm. apply list_elem_of_In, filter_In.
      split; [by apply list_elem_of_In|].
      unfold formula_false. unfold Notions.processed in Hp. by rewrite Hp. }
    assert (Hks : Forall (λ k, ∃ group, own k g = Some group ∧ group ≠ []
                     ∧ Forall (λ e, existsb (has_id (get e "id")) (webhookEvents w) = true)
                              group) (Object_keys g)).
    { apply Forall_forall. intros k Hk. rewrite Object_keys_Permutation in Hk.
      apply list_elem_of_fmap in Hk as ([k' group] & -> & Hin). simpl.
      exists group. split; [by apply own_elem_NoDup|].
      apply Hgroups in Hin as [-> Hne']. split; [done|].
      apply Forall_forall. intros e He.
      apply list_elem_of_In, filter_In in He as [He%list_elem_of_In _].
      destruct (Hrows e He) as (r & Hr & _ & -> & _). by apply existsb_has_id_elem. }
    assert (Hkeys_nd : NoDup (Object_keys g)).
    { by rewrite Object_keys_Permutation. }
    destruct (Object_keys g) as [|k ks] eqn:Ekeys.
    { exfalso. destruct (Notions.unprocessed_page w) as [|e page] eqn:Epage; [done|].
      destruct (Hall e) as (group & Hin & _); [by left|].
      assert (Notions.key e ∈ Object_keys g) as Hk.
      { rewrite Object_keys_Permutation. apply list_elem_of_fmap.
        by exists (Notions.key e, group). }
      rewrite Ekeys in Hk. by apply elem_of_nil in Hk. }
    apply NoDup_cons in Hkeys_nd as [Hk_fresh _].
    apply Forall_cons in Hks as [(group & Hown_k & Hne_k & _) Hrest].
    exists k, ks.
    set (w2 := set_console (console w1 ++ [FoundCalls (S (List.length ks))])
                 (set_faults fs w1)).
    destruct (process_call_fails g k (0, 0)%nat w2 group Hown_k Hne_k Hfs)
      as [err Hturn].
    set (w3 := set_console
                 (console w2 ++ [ Processing k (List.length group);
                                  ErrorProcessing k (message err) ])
                 (set_faults [] w2)) in Hturn.
    destruct (for_of_process_call_clean g ks (0, 0)%nat w3)
      as ([created updated] & w4 & Hloop & Hf4 & Hplain4 & Hcu & Hcalls & Hevents & Hfailed);
      [done..|].
    cbn [fst snd] in Hcu, Hcalls.
    change (webhookEvents w3) with (webhookEvents w) in Hevents.
    change (calls w3) with (calls w) in Hcalls.
    set (w5 := set_console (console w4 ++ [MergeComplete created updated]) w4).
    exists created, updated, w5. split; [done|]. split; [done|]. split.
    { unfold webhookMerger.processUnprocessedEvents.
      erewrite bind_Return; [|reflexivity]. fold w1.
      apply try_catch_Return. erewrite bind_Return; [|exact Hgrouped].
      cbv zeta. rewrite Ekeys. cbn [List.length Nat.eqb].
      erewrite bind_Return; [|reflexivity]. fold w2.
      erewrite bind_Return.
      2:{ unfold webhookMerger.locals. cbn [for_of].
          erewrite bind_Return; [|exact Hturn]. rewrite Hloop. reflexivity. }
      reflexivity. }
    split; [lia|]. split; [cbn [calls set_console w5]; lia|]. split.
    { cbn [console set_console w5]. rewrite failed_app, Hfailed.
      cbn [console set_console w3 w2 w1 set_faults].
      rewrite !failed_app. cbn. by rewrite !app_nil_r. }
    split.
    { destruct (for_of_process_call g ks (0, 0)%nat w3) as (cu' & w' & Hloop' & Hatt & _).
      rewrite Hloop in Hloop'. injection Hloop' as _ <-.
      cbn [console set_console w5]. rewrite attempted_app, Hatt.
      cbn [console set_console w3 w2 w1 set_faults].
      rewrite !attempted_app. cbn. rewrite !app_nil_r. by rewrite <- app_assoc. }
    change (webhookEvents w5) with (webhookEvents w4).
    apply Forall2_same_length_lookup_2; [by eapply Forall2_length|].
    intros i r r' Hr Hr'.
    destruct (Forall2_lookup_lr _ _ _ _ _ _ Hevents Hr Hr')
      as (Hid & _ & Hmark & Hsame).
    apply list_elem_of_lookup_2 in Hr.
    split; [done|]. split.
    + intros Hwhy. apply Hsame. intros k' e Hk' He.
      destruct (has_id (get e "id") r) eqn:Hhas; [exfalso|done].
      destruct (own k' g) as [group'|] eqn:Hown'; [|by apply elem_of_nil in He].
      cbn [default] in He. apply own_Some_elem, Hgroups in Hown' as [-> _].
      apply list_elem_of_In, filter_In in He as [He%list_elem_of_In Hkey].
      apply String.eqb_eq in Hkey.
      destruct (Hrows e He) as (r0 & Hr0 & -> & Hid0 & Hp0).
      rewrite Hid0 in Hhas. unfold has_id in Hhas. cbn [is_str] in Hhas.
      apply String.eqb_eq in Hhas.
      assert (r0 = r) as -> by by apply (NoDup_fmap_elem id (webhookEvents w)).
      destruct Hwhy as [Hp|Hk]; [congruence|].
      apply Hk_fresh. by rewrite <- Hk, Hkey.
    + intros Hp Hk.
      pose proof (Hin_page r Hr Hp) as Hin.
      destruct (Hall _ Hin) as (group' & Hgin & Hegroup).
      apply (Hmark (Notions.key (as_object r)) (as_object r)).
      * assert (Notions.key (as_object r) ∈ Object_keys g) as Hkey.
        { rewrite Object_keys_Permutation. apply list_elem_of_fmap.
          by exists (Notions.key (as_object r), group'). }
        rewrite Ekeys in Hkey. by apply elem_of_cons in Hkey as [?|?].
      * by rewrite (own_elem_NoDup _ _ _ Hnd Hgin).
      * destruct (Hrows _ Hin) as (r0 & _ & _ & _ & _).
        rewrite as_object_id; [apply has_id_own|].
        rewrite Forall_forall in Hplain_events. by apply Hplain_events.
Qed.

End FailedGroup.

(** C7, witness: four legs of the sample call and one leg of a later
    call are staged; the events are fetched and the lookup of the first
    call fails. The pass goes on to the second call and merges it. *)
Lemma failed_group_does_not_stop_the_pass_witness :
  let w := Sample.world Sample.two_calls [false; true] in
  ∃ g k ks created updated w',
    webhookEventService.group_events [] (Notions.unprocessed_page w) = inr g
    ∧ Object_keys g = k :: ks
    ∧ webhookMerger.processUnprocessedEvents w
      = (Return (webhookMerger.summary (S (List.length ks)) created updated), w')
    ∧ (created + updated = List.length ks)%nat
    ∧ List.length (calls w') = (List.length (calls w) + created)%nat
    ∧ Spec.failed (console w') = Spec.failed (console w) ++ [k]
    ∧ Spec.attempted (console w') = Spec.attempted (console w) ++ k :: ks
    ∧ Forall2 (λ r r',
         id r' = id r
         ∧ (Notions.processed r = true ∨ Notions.key (as_object r) = k → r' = r)
         ∧ (Notions.processed r = false → Notions.key (as_object r) ≠ k →
            Notions.processed r' = true))
        (webhookEvents w) (webhookEvents w').
Proof.
  destruct failed_group_does_not_stop_the_pass as (_ & _ & _ & Hpass).
  apply (Hpass (Sample.world Sample.two_calls [false; true]) [true]).
  - reflexivity.
  - by left.
  - constructor.
  - repeat (constructor; [vm_compute; reflexivity|]). constructor.
  - apply (bool_decide_unpack _). vm_compute. reflexivity.
  - apply (bool_decide_unpack _). vm_compute. reflexivity.
  - apply (bool_decide_unpack _). vm_compute. reflexivity.
  - intros E. apply (f_equal List.length) in E. vm_compute in E. discriminate E.
Defined.

(** C7, counterexample: two passes over the same two call groups. In
    the first the lookup for the first group fails; in the second the
    first group's record is created but marking its events fails, and
    the lookup for the second group fails. One group failed in the first
    pass and two in the second, and both passes return the same summary,
    [{ processed: 2, created: 1, updated: 0 }], without a count of
    failed groups. And a group can fail with part of its events consumed:
    of eleven events, ten are marked by the first batch before the
    second batch fails. *)
Lemma summary_does_not_report_failed_groups :
  let pass faults :=
    webhookMerger.processUnprocessedEvents (Sample.world Sample.two_calls faults) in
  let report (r : outcome (gmap string value) * World) :=
    match r.1 with
    | Return s => Some (get s "processed", get s "created", get s "updated", s !! "failed")
    | Throw _ => None
    end in
  let long :=
    webhookMerger.processUnprocessedEvents
      (Sample.world Sample.eleven_legs [false; false; false; false; true]) in
  report (pass [false; true]) = Some (Num 2, Num 1, Num 0, None)
  ∧ Spec.failed (console (pass [false; true]).2) = ["1765829443.779816"]
  ∧ report (pass [false; false; false; true; true]) = Some (Num 2, Num 1, Num 0, None)
  ∧ Spec.failed (console (pass [false; false; false; true; true]).2)
    = ["1765829443.779816"; "1765829500.123456"]
  ∧ Spec.failed (console long.2) = ["1765829443.779816"]
  ∧ map (λ r, truthy (get (fields r) "Processed")) (webhookEvents long.2)
    = [true; true; true; true; true; true; true; true; true; true; false].
Proof. cbv zeta. repeat split; vm_compute; reflexivity. Qed.
